(** * gocamelpack: transactional file operations and progress reporting

  A shallow embedding of the Go packages [progress] (the reporter
  interface, [ProgressState] and [ProgressBar]) and [files] (root.go,
  transaction.go, the copy and move operations, transaction_manager.go),
  together with the properties of the transaction engine and of the
  progress bar that the design specification states.  Of package [cmd]
  it holds the non-transactional transfers and the collection of the
  sources (cmd.go, transfer_util.go); further properties of all three
  packages follow those of the specification.

  Conventions.
  - A Go [int] is a 64-bit two's complement integer: it is a [Z], and
    the one addition of the embedded code ([IncrementBy]) wraps around.
  - A Go [string] is a [string] (a sequence of bytes); a [rune] is a [Z].
  - A [float64] is an IEEE 754 binary64 value of [SpecFloat].
  - A method with a pointer receiver takes the receiver and returns the
    updated receiver.
  - An [io.Writer] is the list of the strings written to it so far.
  - The operating system is a parameter: a record of the calls the code
    makes, over a world of its own.  The transaction engine is further
    parameterised by its collaborator ([FilesService]) and by the
    progress reporter, whose state is kept apart from the world.
  - An [error] built by [fmt.Errorf] is kept as its format and operands. *)

From Stdlib Require Import ZArith Lia List Bool.
From Stdlib Require Import Strings.String Strings.Ascii.
From Stdlib Require Import Numbers.DecimalString.
From Stdlib Require Import Floats.SpecFloat.
From stdpp Require Import base option list strings gmap.

Local Open Scope string_scope.
Local Open Scope Z_scope.

(** ** Go primitives used by the embedded code *)

Module Go.

(** [int] on a 64-bit target. *)
Definition intSize : Z := 64.
Definition minInt : Z := - 2 ^ (intSize - 1).
Definition maxInt : Z := 2 ^ (intSize - 1) - 1.

(** Two's complement wrap-around of an [int] result. *)
Definition wrap (z : Z) : Z :=
  (z + 2 ^ (intSize - 1)) mod 2 ^ intSize - 2 ^ (intSize - 1).

Definition add (a b : Z) : Z := wrap (a + b).

(** [float64(n)] for an [int] [n]: round to nearest, ties to even. *)
Definition float64 (n : Z) : spec_float := binary_normalize 53 1024 n 0 false.
Definition fdiv (x y : spec_float) : spec_float := SFdiv 53 1024 x y.
Definition fmul (x y : spec_float) : spec_float := SFmul 53 1024 x y.

(** [int(f)] for a [float64] [f]: truncation towards zero.  The Go
    specification leaves the result open when the value does not fit;
    amd64 yields the smallest [int], which is what is modelled. *)
Definition int_of_float64 (f : spec_float) : Z :=
  match f with
  | S754_zero _ => 0
  | S754_finite s m e =>
      let v := if 0 <=? e then Z.pos m * 2 ^ e else Z.pos m / 2 ^ (- e) in
      let r := if s then - v else v in
      if (minInt <=? r) && (r <=? maxInt) then r else minInt
  | S754_infinity _ | S754_nan => minInt
  end.

(** [%d] of an [int]. *)
Definition itoa (n : Z) : string := NilZero.string_of_int (Z.to_int n).

Definition byte (n : Z) : string :=
  String (ascii_of_N (Z.to_N (n mod 256))) EmptyString.

(** [utf8.AppendRune]: the UTF-8 encoding of a rune; a rune that is not
    a Unicode scalar value is written as U+FFFD. *)
Definition encodeRune (r : Z) : string :=
  if (0 <=? r) && (r <=? 127) then byte r
  else if (0 <=? r) && (r <=? 2047) then
    byte (192 + r / 64) +:+ byte (128 + r mod 64)
  else if (r <? 0) || (1114111 <? r) || ((55296 <=? r) && (r <=? 57343)) then
    byte 239 +:+ byte 191 +:+ byte 189
  else if r <=? 65535 then
    byte (224 + r / 4096) +:+ byte (128 + (r / 64) mod 64)
      +:+ byte (128 + r mod 64)
  else
    byte (240 + r / 262144) +:+ byte (128 + (r / 4096) mod 64)
      +:+ byte (128 + (r / 64) mod 64) +:+ byte (128 + r mod 64).

(** [n] copies of [s], one per iteration of a counting loop. *)
Fixpoint repeatString (n : nat) (s : string) : string :=
  match n with
  | O => ""
  | S k => s +:+ repeatString k s
  end.

Definition CR : string := byte 13.
Definition LF : string := byte 10.

End Go.

(** ** Package progress: progress.go *)

Module ProgressState.

(** [type ProgressState struct]. *)
Record t : Type := mk {
  current : Z;
  total : Z;
  actualCurrent : Z;
  message : string;
  writer : list string
}.

Definition NewProgressState (w : list string) : t :=
  {| current := 0; total := 0; actualCurrent := 0; message := "";
     writer := w |}.

Definition SetTotal (n : Z) (p : t) : t :=
  let n := if n <? 0 then 0 else n in
  {| current := current p; total := n; actualCurrent := actualCurrent p;
     message := message p; writer := writer p |}.

Definition SetCurrent (c : Z) (p : t) : t :=
  let c := if c <? 0 then 0 else c in
  let actual := c in
  let c := if (total p <? c) && (0 <? total p) then total p else c in
  {| current := c; total := total p; actualCurrent := actual;
     message := message p; writer := writer p |}.

Definition IncrementBy (amount : Z) (p : t) : t :=
  if amount <? 0 then p
  else
    let newCurrent := Go.add (actualCurrent p) amount in
    SetCurrent newCurrent p.

Definition Increment (p : t) : t := IncrementBy 1 p.

Definition SetMessage (m : string) (p : t) : t :=
  {| current := current p; total := total p;
     actualCurrent := actualCurrent p; message := m; writer := writer p |}.

Definition Current (p : t) : Z := current p.
Definition Total (p : t) : Z := total p.
Definition Message (p : t) : string := message p.

Definition IsComplete (p : t) : bool :=
  (0 <? total p) && (total p <=? current p).

Definition Percentage (p : t) : Z :=
  if total p =? 0 then 0
  else Go.int_of_float64
         (Go.fmul (Go.fdiv (Go.float64 (actualCurrent p))
                           (Go.float64 (total p)))
                  (Go.float64 100)).

Definition String (p : t) : string :=
  if total p =? 0 then Go.itoa (current p) +:+ " items processed"
  else Go.itoa (current p) +:+ "/" +:+ Go.itoa (total p)
         +:+ " (" +:+ Go.itoa (Percentage p) +:+ "%)".

(** [fmt.Fprint(p.writer, s)]. *)
Definition Fprint (s : string) (p : t) : t :=
  {| current := current p; total := total p;
     actualCurrent := actualCurrent p; message := message p;
     writer := writer p ++ [s] |}.

End ProgressState.

(** ** Package progress: the ASCII progress bar *)

Module ProgressBar.

(** [type ProgressBar struct]; the embedded [*ProgressState] is owned by
    the bar alone. *)
Record t : Type := mk {
  state : ProgressState.t;
  width : Z;
  barChar : Z;
  emptyChar : Z;
  showMsg : bool;
  finished : bool;
  errored : bool
}.

Definition with_state (f : ProgressState.t -> ProgressState.t) (pb : t) : t :=
  {| state := f (state pb); width := width pb; barChar := barChar pb;
     emptyChar := emptyChar pb; showMsg := showMsg pb;
     finished := finished pb; errored := errored pb |}.

Definition NewProgressBar (w : list string) (width : Z) : t :=
  let width := if width <=? 0 then 40 else width in
  {| state := ProgressState.NewProgressState w; width := width;
     barChar := 9608; emptyChar := 9617; showMsg := true;
     finished := false; errored := false |}.

Definition NewSimpleProgressBar (w : list string) : t := NewProgressBar w 40.

Definition SetBarChar (c : Z) (pb : t) : t :=
  {| state := state pb; width := width pb; barChar := c;
     emptyChar := emptyChar pb; showMsg := showMsg pb;
     finished := finished pb; errored := errored pb |}.

Definition SetEmptyChar (c : Z) (pb : t) : t :=
  {| state := state pb; width := width pb; barChar := barChar pb;
     emptyChar := c; showMsg := showMsg pb;
     finished := finished pb; errored := errored pb |}.

Definition SetShowMessage (show : bool) (pb : t) : t :=
  {| state := state pb; width := width pb; barChar := barChar pb;
     emptyChar := emptyChar pb; showMsg := show;
     finished := finished pb; errored := errored pb |}.

Definition SetWidth (w : Z) (pb : t) : t :=
  if 0 <? w then
    {| state := state pb; width := w; barChar := barChar pb;
       emptyChar := emptyChar pb; showMsg := showMsg pb;
       finished := finished pb; errored := errored pb |}
  else pb.

(** The number of filled cells: [int(float64(current) / float64(total) *
    float64(width))] when the total is positive, capped at the width. *)
Definition filledWidth (pb : t) : Z :=
  let p := state pb in
  let fw :=
    if 0 <? ProgressState.total p then
      Go.int_of_float64
        (Go.fmul (Go.fdiv (Go.float64 (ProgressState.current p))
                          (Go.float64 (ProgressState.total p)))
                 (Go.float64 (width pb)))
    else 0 in
  if width pb <? fw then width pb else fw.

(** The text after the closing bracket: the counts and, when enabled and
    present, the message. *)
Definition stats (pb : t) : string :=
  " " +:+ ProgressState.String (state pb)
  +:+ (if showMsg pb && negb (String.eqb (ProgressState.message (state pb)) "")
       then " - " +:+ ProgressState.message (state pb) else "").

(** The two counting loops of [Render] and [SetError]. *)
Definition partialBar (pb : t) : string :=
  let fw := filledWidth pb in
  "[" +:+ Go.repeatString (Z.to_nat fw) (Go.encodeRune (barChar pb))
  +:+ Go.repeatString (Z.to_nat (width pb - fw)) (Go.encodeRune (emptyChar pb))
  +:+ "]".

Definition Render (pb : t) : string :=
  if finished pb || errored pb then ""
  else partialBar pb +:+ stats pb.

Definition Display (pb : t) : t :=
  if finished pb || errored pb then pb
  else
    let rendered := Render pb in
    if negb (String.eqb rendered "")
    then with_state (ProgressState.Fprint (Go.CR +:+ rendered)) pb
    else pb.

Definition Update (pb : t) : t := Display pb.

Definition Finish (pb : t) : t :=
  if finished pb then pb
  else
    let pb :=
      {| state := state pb; width := width pb; barChar := barChar pb;
         emptyChar := emptyChar pb; showMsg := showMsg pb;
         finished := true; errored := errored pb |} in
    let result :=
      "[" +:+ Go.repeatString (Z.to_nat (width pb)) (Go.encodeRune (barChar pb))
      +:+ "]" +:+ stats pb +:+ " " +:+ Go.encodeRune 10003 +:+ Go.LF in
    with_state (ProgressState.Fprint (Go.CR +:+ result)) pb.

Definition Increment (pb : t) : t :=
  if errored pb || finished pb then pb
  else Update (with_state ProgressState.Increment pb).

Definition IncrementBy (amount : Z) (pb : t) : t :=
  if errored pb || finished pb then pb
  else Update (with_state (ProgressState.IncrementBy amount) pb).

Definition SetCurrent (c : Z) (pb : t) : t :=
  if errored pb || finished pb then pb
  else Update (with_state (ProgressState.SetCurrent c) pb).

Definition SetTotal (n : Z) (pb : t) : t :=
  if errored pb || finished pb then pb
  else Update (with_state (ProgressState.SetTotal n) pb).

Definition SetMessage (m : string) (pb : t) : t :=
  if errored pb || finished pb then pb
  else Update (with_state (ProgressState.SetMessage m) pb).

(** [SetError(err)]: [err] is [None] for a nil error and otherwise carries
    the text of [err.Error()], the only use the bar makes of it. *)
Definition SetError (err : option string) (pb : t) : t :=
  if finished pb then pb
  else
    let pb :=
      {| state := state pb; width := width pb; barChar := barChar pb;
         emptyChar := emptyChar pb; showMsg := showMsg pb;
         finished := true; errored := true |} in
    let result :=
      partialBar pb +:+ stats pb +:+ " " +:+ Go.encodeRune 10007
      +:+ (match err with
           | Some msg => " - Error: " +:+ msg
           | None => ""
           end)
      +:+ Go.LF in
    with_state (ProgressState.Fprint (Go.CR +:+ result)) pb.

Definition IsErrored (pb : t) : bool := errored pb.

(** Methods promoted from the embedded [*ProgressState]. *)
Definition Current (pb : t) : Z := ProgressState.Current (state pb).
Definition Total (pb : t) : Z := ProgressState.Total (state pb).
Definition IsComplete (pb : t) : bool := ProgressState.IsComplete (state pb).
Definition output (pb : t) : list string := ProgressState.writer (state pb).

End ProgressBar.


(** ** Package progress: the reporter interface *)

(** [type ProgressReporter interface], over the reporter's own state [R].
    An [error] reaches a reporter only as the text of its [Error()]. *)
Record ProgressReporter (R : Type) : Type := {
  rSetTotal : Z -> R -> R;
  rIncrement : R -> R;
  rIncrementBy : Z -> R -> R;
  rSetCurrent : Z -> R -> R;
  rSetMessage : string -> R -> R;
  rFinish : R -> R;
  rSetError : option string -> R -> R;
  rIsComplete : R -> bool;
  rCurrent : R -> Z;
  rTotal : R -> Z
}.

Arguments rSetTotal {R} _ _ _.
Arguments rIncrement {R} _ _.
Arguments rIncrementBy {R} _ _ _.
Arguments rSetCurrent {R} _ _ _.
Arguments rSetMessage {R} _ _ _.
Arguments rFinish {R} _ _.
Arguments rSetError {R} _ _ _.
Arguments rIsComplete {R} _ _.
Arguments rCurrent {R} _ _.
Arguments rTotal {R} _ _.

(** [type NoOpReporter struct{}]. *)
Definition NoOpReporter : ProgressReporter unit := {|
  rSetTotal := fun _ r => r;
  rIncrement := fun r => r;
  rIncrementBy := fun _ r => r;
  rSetCurrent := fun _ r => r;
  rSetMessage := fun _ r => r;
  rFinish := fun r => r;
  rSetError := fun _ r => r;
  rIsComplete := fun _ => false;
  rCurrent := fun _ => 0;
  rTotal := fun _ => 0
|}.

Definition NewNoOpReporter : unit := tt.

(** [*ProgressBar] as a [ProgressReporter]. *)
Definition ProgressBarReporter : ProgressReporter ProgressBar.t := {|
  rSetTotal := ProgressBar.SetTotal;
  rIncrement := ProgressBar.Increment;
  rIncrementBy := ProgressBar.IncrementBy;
  rSetCurrent := ProgressBar.SetCurrent;
  rSetMessage := ProgressBar.SetMessage;
  rFinish := ProgressBar.Finish;
  rSetError := ProgressBar.SetError;
  rIsComplete := ProgressBar.IsComplete;
  rCurrent := ProgressBar.Current;
  rTotal := ProgressBar.Total
|}.

(** The mutating calls of the interface, as data: what a recording test
    double observes. *)
Inductive ReporterCall : Type :=
| CallSetTotal (n : Z)
| CallIncrement
| CallIncrementBy (n : Z)
| CallSetCurrent (n : Z)
| CallSetMessage (m : string)
| CallFinish
| CallSetError (err : option string).

Definition applyCall {R : Type} (rep : ProgressReporter R) (r : R)
    (c : ReporterCall) : R :=
  match c with
  | CallSetTotal n => rSetTotal rep n r
  | CallIncrement => rIncrement rep r
  | CallIncrementBy n => rIncrementBy rep n r
  | CallSetCurrent n => rSetCurrent rep n r
  | CallSetMessage m => rSetMessage rep m r
  | CallFinish => rFinish rep r
  | CallSetError e => rSetError rep e r
  end.

(** The reporter after a sequence of calls, first call first. *)
Definition applyCalls {R : Type} (rep : ProgressReporter R)
    (calls : list ReporterCall) (r : R) : R :=
  fold_left (applyCall rep) calls r.

(** A recording reporter: its state is the log of the calls it received. *)
Definition Recorder : ProgressReporter (list ReporterCall) := {|
  rSetTotal := fun n r => (r ++ [CallSetTotal n])%list;
  rIncrement := fun r => (r ++ [CallIncrement])%list;
  rIncrementBy := fun n r => (r ++ [CallIncrementBy n])%list;
  rSetCurrent := fun n r => (r ++ [CallSetCurrent n])%list;
  rSetMessage := fun m r => (r ++ [CallSetMessage m])%list;
  rFinish := fun r => (r ++ [CallFinish])%list;
  rSetError := fun e r => (r ++ [CallSetError e])%list;
  rIsComplete := fun _ => false;
  rCurrent := fun _ => 0;
  rTotal := fun _ => 0
|}.

Definition isSetCurrent (c : ReporterCall) : option Z :=
  match c with CallSetCurrent n => Some n | _ => None end.

Definition isFinish (c : ReporterCall) : bool :=
  match c with CallFinish => true | _ => false end.

Definition isSetError (c : ReporterCall) : bool :=
  match c with CallSetError _ => true | _ => false end.

(** ** Errors *)

(** [syscall.Errno], the values the model distinguishes. *)
Inductive Errno : Type :=
| ENOENT | EEXIST | ENOTDIR | EISDIR | ENOTEMPTY | EACCES | EPERM | EINVAL
| EBADF | EIO.

Definition Errno_eqb (a b : Errno) : bool :=
  match a, b with
  | ENOENT, ENOENT | EEXIST, EEXIST | ENOTDIR, ENOTDIR | EISDIR, EISDIR
  | ENOTEMPTY, ENOTEMPTY | EACCES, EACCES | EPERM, EPERM | EINVAL, EINVAL
  | EBADF, EBADF | EIO, EIO => true
  | _, _ => false
  end.

(** [type OperationType int] with its two constants. *)
Inductive OperationType : Type := OperationCopy | OperationMove.

(** [OperationType.String]; the [default] branch of the source is not
    reachable from the two constants. *)
Definition OperationType_String (ot : OperationType) : string :=
  match ot with
  | OperationCopy => "copy"
  | OperationMove => "move"
  end.

(** The two implementations of [type Operation interface]. *)
Inductive Operation : Type :=
| CopyOperation (src dst : string)
| MoveOperation (src dst : string).

Definition NewCopyOperation (src dst : string) : Operation :=
  CopyOperation src dst.
Definition NewMoveOperation (src dst : string) : Operation :=
  MoveOperation src dst.

Definition Source (op : Operation) : string :=
  match op with CopyOperation s _ | MoveOperation s _ => s end.
Definition Destination (op : Operation) : string :=
  match op with CopyOperation _ d | MoveOperation _ d => d end.
Definition Type_ (op : Operation) : OperationType :=
  match op with
  | CopyOperation _ _ => OperationCopy
  | MoveOperation _ _ => OperationMove
  end.

(** An operand of [fmt.Errorf], tagged with the verb that prints it. *)
Inductive Operand (E : Type) : Type :=
| OpS (s : string)            (* %s of a string *)
| OpQ (s : string)            (* %q of a string *)
| OpT (t : OperationType)     (* %s of an OperationType *)
| OpV (e : E)                 (* %v of an error *)
| OpVs (es : list E)          (* %v of a []error *)
| OpW (e : E).                (* %w of an error *)

Arguments OpS {E} _.
Arguments OpQ {E} _.
Arguments OpT {E} _.
Arguments OpV {E} _.
Arguments OpVs {E} _.
Arguments OpW {E} _.

(** Go [error] values: the ones the operating system returns, the ones
    [fmt.Errorf] builds (kept as format and operands rather than as
    text), and [*TransactionError]. *)
#[warnings="-register-all"]
Inductive error : Type :=
| SyscallErrno (e : Errno)
| ErrNotExist
| PathError (op path : string) (err : error)
| LinkError (op old new : string) (err : error)
| Errorf (format : string) (operands : list (Operand error))
| TransactionError (Phase : string) (Op : option Operation) (Err : error).

(** [os.IsNotExist]: looks through one [*PathError] or [*LinkError] and
    asks whether what is left is [ErrNotExist] or [ENOENT]; it does not
    look through [%w]. *)
Definition underlyingError (err : error) : error :=
  match err with
  | PathError _ _ e => e
  | LinkError _ _ _ e => e
  | e => e
  end.

Definition os_IsNotExist (err : error) : bool :=
  match underlyingError err with
  | ErrNotExist => true
  | SyscallErrno e => Errno_eqb e ENOENT
  | _ => false
  end.

(** [errors.Is(err, os.ErrNotExist)]: follows the [Unwrap] chain. *)
Fixpoint errors_Is_ErrNotExist (err : error) : bool :=
  match err with
  | SyscallErrno e => Errno_eqb e ENOENT
  | ErrNotExist => true
  | PathError _ _ e => errors_Is_ErrNotExist e
  | LinkError _ _ _ e => errors_Is_ErrNotExist e
  | Errorf _ operands =>
      (fix first_w (l : list (Operand error)) : bool :=
         match l with
         | [] => false
         | OpW e :: _ => errors_Is_ErrNotExist e
         | _ :: rest => first_w rest
         end) operands
  | TransactionError _ _ e => errors_Is_ErrNotExist e
  end.

(** Accessors of [TransactionError]; [None] on any other error. *)
Definition Phase_of (err : error) : option string :=
  match err with TransactionError p _ _ => Some p | _ => None end.
Definition Operation_of (err : error) : option Operation :=
  match err with TransactionError _ o _ => o | _ => None end.
Definition Err_of (err : error) : option error :=
  match err with TransactionError _ _ e => Some e | _ => None end.

(** ** The operating system and the collaborator interface *)

(** [fs.FileInfo], as far as the code looks at it. *)
Record FileInfo : Type := { IsDir : bool; Mode : Z }.

(** The calls the package makes into [os], [io] and [path/filepath], over
    a world [W] of the environment's choosing.  [os.Stat] is a query: it
    returns no new world.  An open [*os.File] is a number. *)
Record OS (W : Type) : Type := {
  os_Stat : string -> W -> FileInfo + error;
  os_Remove : string -> W -> option error * W;
  os_Rename : string -> string -> W -> option error * W;
  os_MkdirAll : string -> Z -> W -> option error * W;
  os_Open : string -> W -> (Z + error) * W;
  os_OpenFile_excl : string -> Z -> W -> (Z + error) * W;
  File_Stat : Z -> W -> FileInfo + error;
  File_Sync : Z -> W -> option error * W;
  File_Close : Z -> W -> option error * W;
  io_Copy : Z -> Z -> W -> option error * W;
  filepath_Dir : string -> string
}.

Arguments os_Stat {W} _ _ _.
Arguments os_Remove {W} _ _ _.
Arguments os_Rename {W} _ _ _ _.
Arguments os_MkdirAll {W} _ _ _ _.
Arguments os_Open {W} _ _ _.
Arguments os_OpenFile_excl {W} _ _ _ _.
Arguments File_Stat {W} _ _ _.
Arguments File_Sync {W} _ _ _.
Arguments File_Close {W} _ _ _.
Arguments io_Copy {W} _ _ _ _.
Arguments filepath_Dir {W} _ _.

(** [type FilesService interface], the methods of the contract between
    the transaction engine and its collaborator.  A method of an arbitrary
    implementation may change the world (the counting test double of the
    repository does). *)
Record FilesService (W : Type) : Type := {
  svcIsFile : string -> W -> bool * W;
  svcIsDirectory : string -> W -> bool * W;
  svcCopy : string -> string -> W -> option error * W;
  svcEnsureDir : string -> Z -> W -> option error * W;
  svcValidateCopyArgs : string -> string -> W -> option error * W
}.

Arguments svcIsFile {W} _ _ _.
Arguments svcIsDirectory {W} _ _ _.
Arguments svcCopy {W} _ _ _ _.
Arguments svcEnsureDir {W} _ _ _ _.
Arguments svcValidateCopyArgs {W} _ _ _ _.

(** [fs.DirEntry], as far as the code looks at it. *)
Record DirEntry : Type := { Name : string; entryIsDir : bool }.

(** [type PathResolver interface] of pathresolver.go.  [Abs] asks the
    environment for the working directory. *)
Record PathResolver (W : Type) : Type := {
  prAbs : string -> W -> string + error;
  prJoin : list string -> string
}.

Arguments prAbs {W} _ _ _.
Arguments prJoin {W} _ _.

(** ** Package files: root.go, the [*Files] implementation *)

Module Files.
Section WithOS.
Context {W : Type} (os : OS W).

Definition IsFile (path : string) (w : W) : bool :=
  match os_Stat os path w with
  | inr _ => false
  | inl info => negb (IsDir info)
  end.

Definition IsDirectory (path : string) (w : W) : bool :=
  match os_Stat os path w with
  | inr _ => false
  | inl info => IsDir info
  end.

Definition EnsureDir (path : string) (perm : Z) (w : W) : option error * W :=
  if String.eqb path "" then (Some (Errorf "directory path is empty" []), w)
  else
    match os_MkdirAll os path perm w with
    | (Some err, w) =>
        (Some (Errorf "creating directory %q: %w" [OpQ path; OpW err]), w)
    | (None, w) => (None, w)
    end.

Definition ValidateCopyArgs (src dst : string) (w : W) : option error :=
  if String.eqb src "" || String.eqb dst "" then
    Some (Errorf "source and destination must be provided" [])
  else if negb (IsFile src w) then
    Some (Errorf "source %q is not a regular file" [OpQ src])
  else
    match os_Stat os dst w with
    | inl _ => Some (Errorf "destination %q already exists" [OpQ dst])
    | inr err =>
        if negb (errors_Is_ErrNotExist err)
        then Some (Errorf "checking destination: %w" [OpW err])
        else None
    end.

(** [Copy]; the deferred [in.Close()] runs on every return after the
    source is open, and its result is dropped. *)
Definition Copy (src dst : string) (w : W) : option error * W :=
  match ValidateCopyArgs src dst w with
  | Some err => (Some err, w)
  | None =>
    match os_Open os src w with
    | (inr err, w) => (Some (Errorf "open %q: %w" [OpQ src; OpW err]), w)
    | (inl fin, w) =>
      let closeIn (res : option error * W) : option error * W :=
        (fst res, snd (File_Close os fin (snd res))) in
      match File_Stat os fin w with
      | inr err => closeIn (Some (Errorf "stat %q: %w" [OpQ src; OpW err]), w)
      | inl srcInfo =>
        match EnsureDir (filepath_Dir os dst) 493 w with
        | (Some err, w) => closeIn (Some err, w)
        | (None, w) =>
          match os_OpenFile_excl os dst (Mode srcInfo) w with
          | (inr err, w) =>
              closeIn (Some (Errorf "create %q: %w" [OpQ dst; OpW err]), w)
          | (inl fout, w) =>
            match io_Copy os fout fin w with
            | (Some copyErr, w) =>
                (* the deferred cleanup: out.Close(); os.Remove(dst) *)
                let w := snd (File_Close os fout w) in
                let w := snd (os_Remove os dst w) in
                closeIn (Some (Errorf "copy data: %w" [OpW copyErr]), w)
            | (None, w) =>
              match File_Sync os fout w with
              | (Some err, w) =>
                  let w := snd (File_Close os fout w) in
                  let w := snd (os_Remove os dst w) in
                  closeIn (Some (Errorf "sync %q: %w" [OpQ dst; OpW err]), w)
              | (None, w) => closeIn (File_Close os fout w)
              end
            end
          end
        end
      end
    end
  end.

(** The loop of [ReadDirectory] over the entries; [filePaths] is the
    slice built so far. *)
Fixpoint readDirectoryLoop (pr : PathResolver W) (dirPath : string)
    (entries : list DirEntry) (filePaths : list string) (w : W) :
    list string + error :=
  match entries with
  | [] => inl filePaths
  | entry :: rest =>
      if negb (entryIsDir entry) then
        match prAbs pr (prJoin pr [dirPath; Name entry]) w with
        | inr err => inr (Errorf "failed to get absolute path: %w" [OpW err])
        | inl absPath =>
            readDirectoryLoop pr dirPath rest (filePaths ++ [absPath])%list w
        end
      else readDirectoryLoop pr dirPath rest filePaths w
  end.

(** [ReadDirectory].  The path resolver of the [Files] value and
    [os.ReadDir], a query the record of the operating system does not
    hold, are parameters. *)
Definition ReadDirectory (pr : PathResolver W)
    (os_ReadDir : string -> W -> list DirEntry + error) (dirPath : string)
    (w : W) : list string + error :=
  match os_ReadDir dirPath w with
  | inr err => inr (Errorf "failed to read directory: %w" [OpW err])
  | inl entries => readDirectoryLoop pr dirPath entries [] w
  end.

(** [*Files] as a [FilesService]. *)
Definition service : FilesService W := {|
  svcIsFile := fun p w => (IsFile p w, w);
  svcIsDirectory := fun p w => (IsDirectory p w, w);
  svcCopy := Copy;
  svcEnsureDir := EnsureDir;
  svcValidateCopyArgs := fun s d w => (ValidateCopyArgs s d w, w)
|}.

End WithOS.
End Files.

(** ** Package files: operations and the transaction engine *)

(** [type FileTransaction struct]; the [fs] field is the collaborator the
    engine below is parameterised by. *)
Record FileTransaction : Type := {
  operations : list Operation;
  completed : list Operation;
  overwrite : bool
}.

Definition set_operations (ops : list Operation) (ft : FileTransaction) :
    FileTransaction :=
  {| operations := ops; completed := completed ft; overwrite := overwrite ft |}.

Definition set_completed (ops : list Operation) (ft : FileTransaction) :
    FileTransaction :=
  {| operations := operations ft; completed := ops; overwrite := overwrite ft |}.

Definition NewTransaction (overwrite : bool) : FileTransaction :=
  {| operations := []; completed := []; overwrite := overwrite |}.

Definition AddCopy (src dst : string) (ft : FileTransaction) :
    option error * FileTransaction :=
  let op := NewCopyOperation src dst in
  (None, set_operations (operations ft ++ [op]) ft).

Definition AddMove (src dst : string) (ft : FileTransaction) :
    option error * FileTransaction :=
  let op := NewMoveOperation src dst in
  (None, set_operations (operations ft ++ [op]) ft).

(** [Operations()] and [Completed()] return copies of the slices. *)
Definition Operations (ft : FileTransaction) : list Operation := operations ft.
Definition Completed (ft : FileTransaction) : list Operation := completed ft.

Section Engine.
Context {W : Type} (os : OS W) (fs : FilesService W).

(** [CopyOperation.Execute] and [MoveOperation.Execute]. *)
Definition Operation_Execute (op : Operation) (w : W) : option error * W :=
  match op with
  | CopyOperation src dst => svcCopy fs src dst w
  | MoveOperation src dst =>
      match svcEnsureDir fs (filepath_Dir os dst) 493 w with
      | (Some err, w) => (Some err, w)
      | (None, w) =>
          match os_Rename os src dst w with
          | (Some err, w) =>
              (Some (Errorf "move %q to %q: %w" [OpQ src; OpQ dst; OpW err]), w)
          | (None, w) => (None, w)
          end
      end
  end.

(** [CopyOperation.Rollback] and [MoveOperation.Rollback]. *)
Definition Operation_Rollback (op : Operation) (w : W) : option error * W :=
  match op with
  | CopyOperation src dst =>
      match os_Remove os dst w with
      | (Some err, w) =>
          if negb (os_IsNotExist err) then
            (Some (Errorf "failed to remove copied file %q: %w"
                     [OpQ dst; OpW err]), w)
          else (None, w)
      | (None, w) => (None, w)
      end
  | MoveOperation src dst =>
      match os_Rename os dst src w with
      | (Some err, w) =>
          if negb (os_IsNotExist err) then
            (Some (Errorf "failed to restore moved file %q to %q: %w"
                     [OpQ dst; OpQ src; OpW err]), w)
          else (None, w)
      | (None, w) => (None, w)
      end
  end.

(** [Validate]: the loop over [ft.operations], with its early returns. *)
Fixpoint validateLoop (ov : bool) (ops : list Operation) (w : W) :
    option error * W :=
  match ops with
  | [] => (None, w)
  | op :: rest =>
      if negb ov then
        match svcValidateCopyArgs fs (Source op) (Destination op) w with
        | (Some err, w) => (Some (TransactionError "planning" (Some op) err), w)
        | (None, w) => validateLoop ov rest w
        end
      else if String.eqb (Source op) "" || String.eqb (Destination op) "" then
        (Some (TransactionError "planning" (Some op)
                 (Errorf "source and destination must be provided" [])), w)
      else
        match svcIsFile fs (Source op) w with
        | (false, w) =>
            (Some (TransactionError "planning" (Some op)
                     (Errorf "source %q is not a regular file"
                        [OpQ (Source op)])), w)
        | (true, w) => validateLoop ov rest w
        end
  end.

Definition Validate (ft : FileTransaction) (w : W) :
    option error * FileTransaction * W :=
  let '(err, w) := validateLoop (overwrite ft) (operations ft) w in
  (err, ft, w).

(** The loop of [Rollback]: [for i := len(ft.completed) - 1; i >= 0; i--],
    with [n = i + 1] the number of iterations left.  The index is always
    in range; the [None] branch stands for the panic Go would raise. *)
Fixpoint rollbackLoop (n : nat) (ft : FileTransaction)
    (rollbackErrors : list error) (w : W) : list error * W :=
  match n with
  | O => (rollbackErrors, w)
  | S i =>
      match completed ft !! i with
      | None => (rollbackErrors, w)
      | Some op =>
          match Operation_Rollback op w with
          | (Some err, w) =>
              rollbackLoop i ft
                (rollbackErrors ++
                   [Errorf "failed to rollback %s %s->%s: %w"
                      [OpT (Type_ op); OpS (Source op);
                       OpS (Destination op); OpW err]])
                w
          | (None, w) => rollbackLoop i ft rollbackErrors w
          end
      end
  end.

Definition Rollback (ft : FileTransaction) (w : W) :
    option error * FileTransaction * W :=
  let '(rollbackErrors, w) := rollbackLoop (length (completed ft)) ft [] w in
  let ft := set_completed [] ft in
  if (0 <? length rollbackErrors)%nat then
    (Some (TransactionError "rollback" None
             (Errorf "rollback errors: %v" [OpVs rollbackErrors])), ft, w)
  else (None, ft, w).

Section WithReporter.
Context {R : Type} (reporter : ProgressReporter R).

(** The loop of [ExecuteWithProgress]: [for i, op := range ft.operations]. *)
Fixpoint executeLoop (ops : list Operation) (i : Z) (ft : FileTransaction)
    (r : R) (w : W) : option error * FileTransaction * R * W :=
  match ops with
  | [] =>
      let r := rFinish reporter r in
      (None, ft, r, w)
  | op :: rest =>
      let r :=
        rSetMessage reporter
          (OperationType_String (Type_ op) +:+ " " +:+ Source op) r in
      match Operation_Execute op w with
      | (Some err, w) =>
          let '(rollbackErr, ft, w) := Rollback ft w in
          match rollbackErr with
          | Some rbErr =>
              (Some (TransactionError "execution" (Some op)
                       (Errorf "execution failed: %v; rollback also failed: %v"
                          [OpV err; OpV rbErr])), ft, r, w)
          | None => (Some (TransactionError "execution" (Some op) err), ft, r, w)
          end
      | (None, w) =>
          let ft := set_completed (completed ft ++ [op]) ft in
          let r := rSetCurrent reporter (i + 1) r in
          executeLoop rest (i + 1) ft r w
      end
  end.

Definition ExecuteWithProgress (ft : FileTransaction) (r : R) (w : W) :
    option error * FileTransaction * R * W :=
  let ft := set_completed [] ft in
  let r := rSetTotal reporter (Z.of_nat (length (operations ft))) r in
  let r := rSetCurrent reporter 0 r in
  executeLoop (operations ft) 0 ft r w.

End WithReporter.

Definition Execute (ft : FileTransaction) (w : W) :
    option error * FileTransaction * W :=
  let '(err, ft, _, w) := ExecuteWithProgress NoOpReporter ft NewNoOpReporter w in
  (err, ft, w).

(** *** Reference runs, used to state what the engine does *)

(** The operations of a list executed one after the other until one
    fails: the operations that succeeded, the failing operation with its
    error if there is one, and the world reached. *)
Fixpoint runOperations (ops : list Operation) (w : W) :
    list Operation * option (Operation * error) * W :=
  match ops with
  | [] => ([], None, w)
  | op :: rest =>
      match Operation_Execute op w with
      | (Some err, w) => ([], Some (op, err), w)
      | (None, w) =>
          let '(done, failure, w) := runOperations rest w in
          (op :: done, failure, w)
      end
  end.

(** The rollback of each operation of a list, in the order of the list,
    none skipped: every operation with the result of its rollback, and
    the world reached. *)
Fixpoint rollbackEach (ops : list Operation) (w : W) :
    list (Operation * option error) * W :=
  match ops with
  | [] => ([], w)
  | op :: rest =>
      let '(res, w) := Operation_Rollback op w in
      let '(results, w) := rollbackEach rest w in
      ((op, res) :: results, w)
  end.

(** The entry [Rollback] adds to its aggregate for a failed step. *)
Definition rollbackFailure (step : Operation * option error) : option error :=
  match step with
  | (op, Some err) =>
      Some (Errorf "failed to rollback %s %s->%s: %w"
              [OpT (Type_ op); OpS (Source op); OpS (Destination op); OpW err])
  | (_, None) => None
  end.

End Engine.

(** The reporter calls of a run of [ExecuteWithProgress] in which the
    operations [done] succeed, starting at index [i]. *)
Fixpoint progressCalls (done : list Operation) (i : Z) : list ReporterCall :=
  match done with
  | [] => []
  | op :: rest =>
      CallSetMessage (OperationType_String (Type_ op) +:+ " " +:+ Source op)
        :: CallSetCurrent (i + 1) :: progressCalls rest (i + 1)
  end.

(** ** Package cmd: transfer_util.go and the non-transactional transfers *)

(** [type FileMetadata struct] of package files. *)
Record FileMetadata : Type := { Filepath : string; Tags : gmap string string }.

(** The two metadata methods of [type FilesService interface]:
    [GetFileTags] runs an external tool on the files, and like every
    method of the interface it may change the world. *)
Record MetadataService (W : Type) : Type := {
  svcGetFileTags : list string -> W -> list FileMetadata * W;
  svcDestinationFromMetadata :
    FileMetadata -> string -> W -> (string + error) * W
}.

Arguments svcGetFileTags {W} _ _ _.
Arguments svcDestinationFromMetadata {W} _ _ _ _.

Module Cmd.

(** [const dirPerm = 0o755]. *)
Definition dirPerm : Z := 493.

Section WithServices.
Context {W : Type} (os : OS W) (fs : FilesService W) (md : MetadataService W).

Definition destFromMetadata (src dstRoot : string) (w : W) :
    (string + error) * W :=
  let '(tags, w) := svcGetFileTags md [src] w in
  match tags with
  | [] => (inr (Errorf "no metadata for %s" [OpS src]), w)
  | t :: _ => svcDestinationFromMetadata md t dstRoot w
  end.

(** [fmt.Fprintf(cmd.OutOrStdout(), "Would <verb> %s → %s\n", src, dst)]. *)
Definition wouldLine (verb src dst : string) : string :=
  "Would " +:+ verb +:+ " " +:+ src +:+ " " +:+ Go.encodeRune 8594 +:+ " "
  +:+ dst +:+ Go.LF.

(** [fmt.Fprintf(cmd.OutOrStdout(), "<Verb> %d file(s).\n", len(sources))]. *)
Definition doneLine (verb : string) (n : nat) : string :=
  verb +:+ " " +:+ Go.itoa (Z.of_nat n) +:+ " file(s)." +:+ Go.LF.

Section WithReporter.
Context {R : Type} (reporter : ProgressReporter R).

(** The loop of [performNonTransactionalCopy]:
    [for i, src := range sources].  [stdout] is what has been written to
    [cmd.OutOrStdout()]. *)
Fixpoint copyLoop (dstRoot : string) (dryRun overwrite : bool)
    (sources : list string) (i : Z) (stdout : list string) (r : R) (w : W) :
    option error * list string * R * W :=
  match sources with
  | [] => (None, stdout, r, w)
  | src :: rest =>
      match destFromMetadata src dstRoot w with
      | (inr err, w) => (Some err, stdout, r, w)
      | (inl dst, w) =>
          let r := rSetMessage reporter ("copy " +:+ src) r in
          if dryRun then
            let stdout := (stdout ++ [wouldLine "copy" src dst])%list in
            let r := rIncrement reporter r in
            copyLoop dstRoot dryRun overwrite rest (i + 1) stdout r w
          else
            match (if negb overwrite then svcValidateCopyArgs fs src dst w
                   else (None, w)) with
            | (Some err, w) => (Some err, stdout, r, w)
            | (None, w) =>
                match svcCopy fs src dst w with
                | (Some err, w) => (Some err, stdout, r, w)
                | (None, w) =>
                    let r := rSetCurrent reporter (i + 1) r in
                    copyLoop dstRoot dryRun overwrite rest (i + 1) stdout r w
                end
            end
      end
  end.

(** [performNonTransactionalCopy] once the reporter is chosen. *)
Definition performNonTransactionalCopyWith (sources : list string)
    (dstRoot : string) (dryRun overwrite : bool) (stdout : list string)
    (r : R) (w : W) : option error * list string * R * W :=
  let r := rSetTotal reporter (Z.of_nat (length sources)) r in
  match copyLoop dstRoot dryRun overwrite sources 0 stdout r w with
  | (Some err, stdout, r, w) => (Some err, stdout, r, w)
  | (None, stdout, r, w) =>
      let r := rFinish reporter r in
      (None, (stdout ++ [doneLine "Copied" (length sources)])%list, r, w)
  end.

(** The loop of [performNonTransactionalMove]. *)
Fixpoint moveLoop (dstRoot : string) (dryRun overwrite : bool)
    (sources : list string) (i : Z) (stdout : list string) (r : R) (w : W) :
    option error * list string * R * W :=
  match sources with
  | [] => (None, stdout, r, w)
  | src :: rest =>
      match destFromMetadata src dstRoot w with
      | (inr err, w) => (Some err, stdout, r, w)
      | (inl dst, w) =>
          let r := rSetMessage reporter ("move " +:+ src) r in
          if dryRun then
            let stdout := (stdout ++ [wouldLine "move" src dst])%list in
            let r := rIncrement reporter r in
            moveLoop dstRoot dryRun overwrite rest (i + 1) stdout r w
          else
            match (if negb overwrite then svcValidateCopyArgs fs src dst w
                   else (None, w)) with
            | (Some err, w) => (Some err, stdout, r, w)
            | (None, w) =>
                match svcEnsureDir fs (filepath_Dir os dst) dirPerm w with
                | (Some err, w) => (Some err, stdout, r, w)
                | (None, w) =>
                    match os_Rename os src dst w with
                    | (Some err, w) => (Some err, stdout, r, w)
                    | (None, w) =>
                        let r := rSetCurrent reporter (i + 1) r in
                        moveLoop dstRoot dryRun overwrite rest (i + 1) stdout r w
                    end
                end
            end
      end
  end.

(** [performNonTransactionalMove] once the reporter is chosen. *)
Definition performNonTransactionalMoveWith (sources : list string)
    (dstRoot : string) (dryRun overwrite : bool) (stdout : list string)
    (r : R) (w : W) : option error * list string * R * W :=
  let r := rSetTotal reporter (Z.of_nat (length sources)) r in
  match moveLoop dstRoot dryRun overwrite sources 0 stdout r w with
  | (Some err, stdout, r, w) => (Some err, stdout, r, w)
  | (None, stdout, r, w) =>
      let r := rFinish reporter r in
      (None, (stdout ++ [doneLine "Moved" (length sources)])%list, r, w)
  end.

End WithReporter.

(** [performNonTransactionalCopy]: the reporter is a simple progress bar
    on [cmd.ErrOrStderr()] when progress is asked for, and the no-op
    reporter otherwise.  The result carries what the two streams hold. *)
Definition performNonTransactionalCopy (sources : list string)
    (dstRoot : string) (dryRun overwrite showProgress : bool)
    (stdout stderr : list string) (w : W) :
    option error * list string * list string * W :=
  if showProgress then
    let '(err, stdout, pb, w) :=
      performNonTransactionalCopyWith ProgressBarReporter sources dstRoot
        dryRun overwrite stdout (ProgressBar.NewSimpleProgressBar stderr) w in
    (err, stdout, ProgressBar.output pb, w)
  else
    let '(err, stdout, _, w) :=
      performNonTransactionalCopyWith NoOpReporter sources dstRoot
        dryRun overwrite stdout NewNoOpReporter w in
    (err, stdout, stderr, w).

Definition performNonTransactionalMove (sources : list string)
    (dstRoot : string) (dryRun overwrite showProgress : bool)
    (stdout stderr : list string) (w : W) :
    option error * list string * list string * W :=
  if showProgress then
    let '(err, stdout, pb, w) :=
      performNonTransactionalMoveWith ProgressBarReporter sources dstRoot
        dryRun overwrite stdout (ProgressBar.NewSimpleProgressBar stderr) w in
    (err, stdout, ProgressBar.output pb, w)
  else
    let '(err, stdout, _, w) :=
      performNonTransactionalMoveWith NoOpReporter sources dstRoot
        dryRun overwrite stdout NewNoOpReporter w in
    (err, stdout, stderr, w).

Section Collect.
Context (path : PathResolver W)
        (fsReadDirectory : string -> W -> (list string + error) * W)
        {R : Type} (reporter : ProgressReporter R).

(** The loop of [collectSourcesWithProgress]:
    [for i, e := range entries], storing into [out[i]]. *)
Fixpoint collectLoop (abs : string) (entries : list string) (i : nat)
    (out : list string) (r : R) : list string * R :=
  match entries with
  | [] => (out, r)
  | e :: rest =>
      let r := rSetMessage reporter ("Collecting " +:+ e) r in
      let out := <[i := prJoin path [abs; e]]> out in
      let r := rSetCurrent reporter (Z.of_nat i + 1) r in
      collectLoop abs rest (S i) out r
  end.

(** [collectSourcesWithProgress]; [path] stands for the package
    [path/filepath] and [fsReadDirectory] for the [ReadDirectory] method
    of the service. *)
Definition collectSourcesWithProgress (userPath : string) (r : R) (w : W) :
    (list string + error) * R * W :=
  match prAbs path userPath w with
  | inr err => (inr (Errorf "resolve %q: %w" [OpQ userPath; OpW err]), r, w)
  | inl abs =>
      match svcIsFile fs abs w with
      | (true, w) =>
          let r := rSetMessage reporter "Collecting single file" r in
          let r := rSetTotal reporter 1 r in
          let r := rSetCurrent reporter 1 r in
          let r := rFinish reporter r in
          (inl [abs], r, w)
      | (false, w) =>
          match svcIsDirectory fs abs w with
          | (true, w) =>
              let r := rSetMessage reporter "Reading directory" r in
              match fsReadDirectory abs w with
              | (inr err, w) => (inr err, r, w)
              | (inl entries, w) =>
                  let r :=
                    rSetMessage reporter "Collecting files from directory" r in
                  let r := rSetTotal reporter (Z.of_nat (length entries)) r in
                  let '(out, r) :=
                    collectLoop abs entries 0 (replicate (length entries) "") r in
                  let r := rFinish reporter r in
                  (inl out, r, w)
              end
          | (false, w) => (inr (Errorf "unknown src argument" []), r, w)
          end
      end
  end.

End Collect.

(** [collectSources]: the same with the no-op reporter. *)
Definition collectSources (path : PathResolver W)
    (fsReadDirectory : string -> W -> (list string + error) * W)
    (userPath : string) (w : W) : (list string + error) * W :=
  let '(res, _, w) :=
    collectSourcesWithProgress path fsReadDirectory NoOpReporter userPath
      NewNoOpReporter w in
  (res, w).

End WithServices.
End Cmd.

(** A metadata service that reads nothing: every file has an entry without
    tags, and the destination is a function of the path and the root (the
    test double of the repository's command tests, for any such
    function). *)
Definition pureMetadata {W : Type} (dest : string -> string -> string + error) :
    MetadataService W := {|
  svcGetFileTags := fun paths w =>
    (map (fun p => {| Filepath := p; Tags := ∅ |}) paths, w);
  svcDestinationFromMetadata := fun m base w => (dest (Filepath m) base, w)
|}.

(** A planning call: [AddCopy] or [AddMove], by the kind of the
    operation to add, with its source and destination. *)
Definition addOperation (ft : FileTransaction)
    (item : OperationType * string * string) : option error * FileTransaction :=
  match item with
  | (OperationCopy, src, dst) => AddCopy src dst ft
  | (OperationMove, src, dst) => AddMove src dst ft
  end.

(** A sequence of planning calls, made one after the other; an error
    ends it, as it makes the planning loops of the commands return. *)
Fixpoint addOperations (items : list (OperationType * string * string))
    (ft : FileTransaction) : option error * FileTransaction :=
  match items with
  | [] => (None, ft)
  | item :: rest =>
      match addOperation ft item with
      | (Some err, ft) => (Some err, ft)
      | (None, ft) => addOperations rest ft
      end
  end.

(** The operation an item of planning stands for. *)
Definition operationOf (item : OperationType * string * string) : Operation :=
  match item with
  | (OperationCopy, src, dst) => CopyOperation src dst
  | (OperationMove, src, dst) => MoveOperation src dst
  end.

(** ** An in-memory operating system

    The test double the concrete runs below execute on: a table from
    paths to regular files and directories, and a table of open files.
    A file can be created or renamed only into an existing directory;
    the root and the working directory are nodes like the others, so a
    world has to hold them.  There are no permissions. *)

Module MemFS.

Inductive node : Type :=
| RegularFile (data : string) (mode : Z)
| Directory (mode : Z).

Record World : Type := {
  nodes : gmap string node;
  fds : gmap Z string;
  nextFd : Z
}.

Definition set_nodes (f : gmap string node -> gmap string node) (w : World) :
    World :=
  {| nodes := f (nodes w); fds := fds w; nextFd := nextFd w |}.

Definition info (n : node) : FileInfo :=
  match n with
  | RegularFile _ mode => {| IsDir := false; Mode := mode |}
  | Directory mode => {| IsDir := true; Mode := mode |}
  end.

(** *** [path/filepath] on a slash-separated path *)

(** The elements of a path, split at every slash. *)
Fixpoint splitSlash (s : string) (cur : string) : list string :=
  match s with
  | EmptyString => [cur]
  | String c rest =>
      if Ascii.eqb c "/"%char then cur :: splitSlash rest ""
      else splitSlash rest (cur +:+ String c EmptyString)
  end.

(** [Clean] on the elements, the stack kept in reverse. *)
Fixpoint cleanElems (rooted : bool) (elems : list string)
    (stack : list string) : list string :=
  match elems with
  | [] => rev stack
  | e :: rest =>
      if String.eqb e "" || String.eqb e "." then cleanElems rooted rest stack
      else if String.eqb e ".." then
        match stack with
        | top :: below =>
            if String.eqb top ".." then cleanElems rooted rest (e :: stack)
            else cleanElems rooted rest below
        | [] =>
            if rooted then cleanElems rooted rest stack
            else cleanElems rooted rest [e]
        end
      else cleanElems rooted rest (e :: stack)
  end.

Fixpoint joinSlash (elems : list string) : string :=
  match elems with
  | [] => ""
  | [e] => e
  | e :: rest => e +:+ "/" +:+ joinSlash rest
  end.

Definition Clean (path : string) : string :=
  let rooted := String.prefix "/" path in
  let body := joinSlash (cleanElems rooted (splitSlash path "") []) in
  if rooted then "/" +:+ body
  else if String.eqb body "" then "." else body.

(** [filepath.Dir]: all but the last element, cleaned. *)
Definition Dir (path : string) : string :=
  match rev (splitSlash path "") with
  | [] | [_] => "."
  | _ :: front => Clean (joinSlash (rev front) +:+ "/")
  end.

(** [filepath.Join]: the elements from the first that is not empty on,
    joined by slashes and cleaned. *)
Fixpoint Join (elem : list string) : string :=
  match elem with
  | [] => ""
  | e :: rest =>
      if String.eqb e "" then Join rest else Clean (joinSlash (e :: rest))
  end.

Definition IsAbs (path : string) : bool := String.prefix "/" path.

(** [filepath.Abs], given what [os.Getwd] returns. *)
Definition Abs (wd : string + error) (path : string) : string + error :=
  if IsAbs path then inl (Clean path)
  else
    match wd with
    | inr err => inr err
    | inl wd => inl (Join [wd; path])
    end.

(** *** [os] *)

Definition Stat (path : string) (w : World) : FileInfo + error :=
  match nodes w !! path with
  | Some n => inl (info n)
  | None => inr (PathError "stat" path (SyscallErrno ENOENT))
  end.

Definition hasChild (path : string) (w : World) : bool :=
  existsb (fun kv => String.prefix (path +:+ "/") (fst kv))
          (map_to_list (nodes w)).

Definition Remove (path : string) (w : World) : option error * World :=
  match nodes w !! path with
  | None => (Some (PathError "remove" path (SyscallErrno ENOENT)), w)
  | Some (RegularFile _ _) => (None, set_nodes (delete path) w)
  | Some (Directory _) =>
      if hasChild path w
      then (Some (PathError "remove" path (SyscallErrno ENOTEMPTY)), w)
      else (None, set_nodes (delete path) w)
  end.

(** The new key of [k] when [old] and all below it move to [new]. *)
Definition rekey (old new : string) (k : string) : string :=
  if String.eqb k old then new
  else if String.prefix (old +:+ "/") k
  then new +:+ String.substring (String.length old)
                 (String.length k - String.length old) k
  else k.

Definition moveTree (old new : string) (m : gmap string node) :
    gmap string node :=
  list_to_map (map (fun kv => (rekey old new (fst kv), snd kv)) (map_to_list m)).

(** [os.Rename]: a destination that is a directory is refused with EEXIST
    before the system call is made. *)
Definition Rename (old new : string) (w : World) : option error * World :=
  let fail (e : Errno) := (Some (LinkError "rename" old new (SyscallErrno e)), w) in
  match nodes w !! new, nodes w !! old with
  | Some (Directory _), None => fail ENOENT
  | Some (Directory _), Some _ => fail EEXIST
  | _, None => fail ENOENT
  | tgt, Some src =>
      if String.eqb old new then (None, w)
      else
        match nodes w !! Dir new with
        | None => fail ENOENT
        | Some (RegularFile _ _) => fail ENOTDIR
        | Some (Directory _) =>
            match src, tgt with
            | Directory _, Some _ => fail ENOTDIR
            | Directory _, None =>
                if String.prefix (old +:+ "/") new then fail EINVAL
                else (None, set_nodes (moveTree old new) w)
            | RegularFile _ _, _ =>
                (None, set_nodes (fun m => <[new := src]> (delete old m)) w)
            end
        end
  end.

(** [os.MkdirAll]; [fuel] bounds the walk towards the root. *)
Fixpoint mkdirAll (fuel : nat) (path : string) (perm : Z)
    (m : gmap string node) : option error * gmap string node :=
  match m !! path with
  | Some (Directory _) => (None, m)
  | Some (RegularFile _ _) =>
      (Some (PathError "mkdir" path (SyscallErrno ENOTDIR)), m)
  | None =>
      match fuel with
      | O => (Some (PathError "mkdir" path (SyscallErrno ENOENT)), m)
      | S fuel =>
          match mkdirAll fuel (Dir path) perm m with
          | (Some err, m) => (Some err, m)
          | (None, m) => (None, <[path := Directory perm]> m)
          end
      end
  end.

Definition MkdirAll (path : string) (perm : Z) (w : World) :
    option error * World :=
  let '(err, m) := mkdirAll (String.length path) path perm (nodes w) in
  (err, set_nodes (fun _ => m) w).

Definition newFd (path : string) (w : World) : Z * World :=
  (nextFd w,
   {| nodes := nodes w; fds := <[nextFd w := path]> (fds w);
      nextFd := nextFd w + 1 |}).

Definition Open (path : string) (w : World) : (Z + error) * World :=
  match nodes w !! path with
  | None => (inr (PathError "open" path (SyscallErrno ENOENT)), w)
  | Some _ => let '(fd, w) := newFd path w in (inl fd, w)
  end.

(** [os.OpenFile(path, O_CREATE|O_WRONLY|O_EXCL, mode)]. *)
Definition OpenFile_excl (path : string) (mode : Z) (w : World) :
    (Z + error) * World :=
  match nodes w !! path with
  | Some _ => (inr (PathError "open" path (SyscallErrno EEXIST)), w)
  | None =>
      match nodes w !! Dir path with
      | None => (inr (PathError "open" path (SyscallErrno ENOENT)), w)
      | Some (RegularFile _ _) =>
          (inr (PathError "open" path (SyscallErrno ENOTDIR)), w)
      | Some (Directory _) =>
          let '(fd, w) :=
            newFd path (set_nodes (insert path (RegularFile "" mode)) w) in
          (inl fd, w)
      end
  end.

Definition fdNode (fd : Z) (w : World) : option (string * node) :=
  match fds w !! fd with
  | None => None
  | Some path =>
      match nodes w !! path with
      | None => None
      | Some n => Some (path, n)
      end
  end.

Definition FStat (fd : Z) (w : World) : FileInfo + error :=
  match fdNode fd w with
  | Some (_, n) => inl (info n)
  | None => inr (PathError "stat" "" (SyscallErrno EBADF))
  end.

Definition Sync (fd : Z) (w : World) : option error * World :=
  match fds w !! fd with
  | Some path => (None, w)
  | None => (Some (PathError "sync" "" (SyscallErrno EBADF)), w)
  end.

Definition Close (fd : Z) (w : World) : option error * World :=
  match fds w !! fd with
  | Some path =>
      (None, {| nodes := nodes w; fds := delete fd (fds w); nextFd := nextFd w |})
  | None => (Some (PathError "close" "" (SyscallErrno EBADF)), w)
  end.

(** [io.Copy(out, in)]: the bytes of [in] are appended to [out]. *)
Definition IoCopy (fout fin : Z) (w : World) : option error * World :=
  match fdNode fin w, fdNode fout w with
  | Some (pin, RegularFile data _), Some (pout, RegularFile old mode) =>
      (None, set_nodes (insert pout (RegularFile (old +:+ data) mode)) w)
  | Some (pin, Directory _), _ =>
      (Some (PathError "read" pin (SyscallErrno EISDIR)), w)
  | _, _ => (Some (PathError "write" "" (SyscallErrno EBADF)), w)
  end.

Definition os : OS World := {|
  os_Stat := Stat;
  os_Remove := Remove;
  os_Rename := Rename;
  os_MkdirAll := MkdirAll;
  os_Open := Open;
  os_OpenFile_excl := OpenFile_excl;
  File_Stat := FStat;
  File_Sync := Sync;
  File_Close := Close;
  io_Copy := IoCopy;
  filepath_Dir := Dir
|}.

(** The [*Files] service on the in-memory system. *)
Definition files : FilesService World := Files.service os.

(** A world holding the given nodes and no open file. *)
Definition world (l : list (string * node)) : World :=
  {| nodes := list_to_map l; fds := ∅; nextFd := 3 |}.

(** What a path names in a world. *)
Definition lookup (path : string) (w : World) : option node := nodes w !! path.

End MemFS.

(** ** Predicates the properties are stated with *)

(** The clamping bound of the progress state: once the total is positive
    the current value does not exceed it. *)
Definition clamped (p : ProgressState.t) : Prop :=
  0 < ProgressState.total p -> ProgressState.current p <= ProgressState.total p.

(** Neither counter of the progress state is negative. *)
Definition nonNegative (p : ProgressState.t) : Prop :=
  0 <= ProgressState.current p /\ 0 <= ProgressState.total p.

(** The mutating calls of [*ProgressState], applied to it. *)
Definition stateCall (c : ReporterCall) (p : ProgressState.t) : ProgressState.t :=
  match c with
  | CallSetTotal n => ProgressState.SetTotal n p
  | CallIncrement => ProgressState.Increment p
  | CallIncrementBy n => ProgressState.IncrementBy n p
  | CallSetCurrent n => ProgressState.SetCurrent n p
  | CallSetMessage m => ProgressState.SetMessage m p
  | CallFinish | CallSetError _ => p
  end.

(** The five mutators of the progress bar return the bar as it is: its
    state, its flags and the output written so far. *)
Definition frozen (n : Z) (m : string) (pb : ProgressBar.t) : Prop :=
  ProgressBar.SetTotal n pb = pb /\
  ProgressBar.SetCurrent n pb = pb /\
  ProgressBar.Increment pb = pb /\
  ProgressBar.IncrementBy n pb = pb /\
  ProgressBar.SetMessage m pb = pb.

(** Every [SetTotal(n)] of a call sequence is made with [n <= 0] or with
    [n] at least the current value the bar shows at that moment. *)
Fixpoint totalsKeepBound (calls : list ReporterCall) (pb : ProgressBar.t) : bool :=
  match calls with
  | [] => true
  | c :: rest =>
      match c with
      | CallSetTotal n => (n <=? 0) || (ProgressBar.Current pb <=? n)
      | _ => true
      end
      && totalsKeepBound rest (applyCall ProgressBarReporter pb c)
  end.

(** What [Rollback] returns for the results of the rollback steps: nil
    when no step failed, and otherwise the rollback-phase error that
    carries the failures in the order the steps were made. *)
Definition rollbackResult (steps : list (Operation * option error)) :
    option error :=
  match omap rollbackFailure steps with
  | [] => None
  | errs =>
      Some (TransactionError "rollback" None
              (Errorf "rollback errors: %v" [OpVs errs]))
  end.

(** The [Err] of the execution-phase error, from the execution error and
    the result of the rollback. *)
Definition executionErr (err : error) (rollbackErr : option error) : error :=
  match rollbackErr with
  | Some rbErr =>
      Errorf "execution failed: %v; rollback also failed: %v"
        [OpV err; OpV rbErr]
  | None => err
  end.

(** The progress message of an operation. *)
Definition progressMessage (op : Operation) : string :=
  OperationType_String (Type_ op) +:+ " " +:+ Source op.

(** An operation has been undone in a world of the in-memory system: the
    destination of a copy is gone; the destination of a move is gone and
    its source is there again. *)
Definition undone (op : Operation) (w : MemFS.World) : Prop :=
  match op with
  | CopyOperation _ dst => MemFS.lookup dst w = None
  | MoveOperation src dst =>
      MemFS.lookup dst w = None /\ MemFS.lookup src w <> None
  end.

(** All-or-nothing execution on the in-memory system, as the
    specification words it: a run in which every operation succeeds
    returns nil and leaves the planned operations as the completed ones;
    a run in which an operation fails returns an error, has undone the
    operations that had succeeded, and leaves no completed operation. *)
Definition allOrNothing (ft : FileTransaction) (w : MemFS.World) : Prop :=
  match runOperations MemFS.os MemFS.files (operations ft) w with
  | (_, None, _) =>
      fst (fst (Execute MemFS.os MemFS.files ft w)) = None /\
      Completed (snd (fst (Execute MemFS.os MemFS.files ft w))) = operations ft
  | (done, Some _, _) =>
      fst (fst (Execute MemFS.os MemFS.files ft w)) <> None /\
      Forall (fun op => undone op (snd (Execute MemFS.os MemFS.files ft w))) done /\
      Completed (snd (fst (Execute MemFS.os MemFS.files ft w))) = []
  end.

(** One table of nodes extends another by new directories only: every
    path has the node it had, or had none and now has a directory. *)
Definition growsDirs (m m' : gmap string MemFS.node) : Prop :=
  forall p, m' !! p = m !! p \/
            (m !! p = None /\ exists mode, m' !! p = Some (MemFS.Directory mode)).

(** The operation is a copy. *)
Definition isCopy (op : Operation) : Prop :=
  match op with CopyOperation _ _ => True | MoveOperation _ _ => False end.

(** The methods of [*ProgressBar] that change it: the four setters of its
    configuration, [Display] and [Update], and the calls of the reporter
    interface. *)
Inductive BarMethod : Type :=
| MSetBarChar (c : Z)
| MSetEmptyChar (c : Z)
| MSetShowMessage (show : bool)
| MSetWidth (w : Z)
| MDisplay
| MUpdate
| MReporter (c : ReporterCall).

Definition callMethod (pb : ProgressBar.t) (m : BarMethod) : ProgressBar.t :=
  match m with
  | MSetBarChar c => ProgressBar.SetBarChar c pb
  | MSetEmptyChar c => ProgressBar.SetEmptyChar c pb
  | MSetShowMessage show => ProgressBar.SetShowMessage show pb
  | MSetWidth w => ProgressBar.SetWidth w pb
  | MDisplay => ProgressBar.Display pb
  | MUpdate => ProgressBar.Update pb
  | MReporter c => applyCall ProgressBarReporter pb c
  end.

(** The bar after a sequence of method calls, first call first. *)
Definition callMethods (ms : list BarMethod) (pb : ProgressBar.t) : ProgressBar.t :=
  fold_left callMethod ms pb.

(** What holds of a progress bar however it is used: the width is
    positive, an errored bar is finished, the current value is not
    negative and not above the value before clamping, and the total is
    not negative. *)
Definition barInvariant (pb : ProgressBar.t) : Prop :=
  0 < ProgressBar.width pb /\
  implb (ProgressBar.errored pb) (ProgressBar.finished pb) = true /\
  0 <= ProgressState.current (ProgressBar.state pb)
    <= ProgressState.actualCurrent (ProgressBar.state pb) /\
  0 <= ProgressState.total (ProgressBar.state pb).

(** A bar that is neither finished nor errored, showing [cur] of [tot],
    after [n] writes. *)
Definition shows (pb : ProgressBar.t) (cur tot : Z) (n : nat) : Prop :=
  ProgressBar.finished pb = false /\ ProgressBar.errored pb = false /\
  ProgressState.current (ProgressBar.state pb) = cur /\
  ProgressState.total (ProgressBar.state pb) = tot /\
  length (ProgressBar.output pb) = n.


(** [path/filepath] on a Unix system as a [PathResolver]; [getwd] is
    [os.Getwd]. *)
Definition unixPath {W : Type} (getwd : W -> string + error) : PathResolver W := {|
  prAbs := fun path w => MemFS.Abs (getwd w) path;
  prJoin := MemFS.Join
|}.

(** The string has no slash. *)
Fixpoint noSlash (s : string) : bool :=
  match s with
  | EmptyString => true
  | String c rest => negb (Ascii.eqb c "/"%char) && noSlash rest
  end.

(** A name of a file or directory: not empty, without a slash, and
    neither [.] nor [..]. *)
Definition plainName (s : string) : bool :=
  noSlash s && negb (String.eqb s "") && negb (String.eqb s ".")
  && negb (String.eqb s "..").

(** The absolute path with the given elements. *)
Definition absPath (elems : list string) : string :=
  "/" +:+ MemFS.joinSlash elems.

(** The reporter calls of the loop of [collectSourcesWithProgress] over
    the entries, starting at index [i]. *)
Fixpoint collectCalls (entries : list string) (i : nat) : list ReporterCall :=
  match entries with
  | [] => []
  | e :: rest =>
      CallSetMessage ("Collecting " +:+ e) :: CallSetCurrent (Z.of_nat i + 1)
        :: collectCalls rest (S i)
  end.

(** *** Worlds and transactions of the concrete runs *)

(** A directory [/t] with the regular files [/t/a] and [/t/x]. *)
Definition twoFiles : MemFS.World :=
  MemFS.world [("/", MemFS.Directory 493); ("/t", MemFS.Directory 493);
               ("/t/a", MemFS.RegularFile "A" 420);
               ("/t/x", MemFS.RegularFile "X" 420)].

(** The same with a third regular file, [/t/q]. *)
Definition threeFiles : MemFS.World :=
  MemFS.world [("/", MemFS.Directory 493); ("/t", MemFS.Directory 493);
               ("/t/a", MemFS.RegularFile "A" 420);
               ("/t/x", MemFS.RegularFile "X" 420);
               ("/t/q", MemFS.RegularFile "Q" 420)].

(** Three moves, planned with overwrite allowed: [/t/a] to [/t/b]; [/t/x]
    to [/t/a/y], which makes the path [/t/a] a directory; [/t/q] to
    [/t/b/z], which cannot succeed because [/t/b] is a regular file by
    then. *)
Definition sourceBecomesDirectory : FileTransaction :=
  {| operations := [MoveOperation "/t/a" "/t/b";
                    MoveOperation "/t/x" "/t/a/y";
                    MoveOperation "/t/q" "/t/b/z"];
     completed := []; overwrite := true |}.

(** A copy and a move that succeed, then a copy of a file that does not
    exist. *)
Definition thirdFails : FileTransaction :=
  {| operations := [CopyOperation "/t/a" "/t/d/b";
                    MoveOperation "/t/x" "/t/y";
                    CopyOperation "/t/missing" "/t/z"];
     completed := []; overwrite := false |}.

(** A copy and a move that succeed. *)
Definition bothSucceed : FileTransaction :=
  {| operations := [CopyOperation "/t/a" "/t/d/b"; MoveOperation "/t/x" "/t/y"];
     completed := []; overwrite := false |}.

(** The operations of [bothSucceed], completed, in the world their
    execution leaves. *)
Definition bothDone : FileTransaction :=
  snd (fst (Execute MemFS.os MemFS.files bothSucceed twoFiles)).
Definition afterBoth : MemFS.World :=
  snd (Execute MemFS.os MemFS.files bothSucceed twoFiles).

(** A plan whose second operation has a source that does not exist and
    whose third has a destination that exists. *)
Definition secondInvalid : FileTransaction :=
  {| operations := [CopyOperation "/t/a" "/t/n1";
                    CopyOperation "/t/missing" "/t/n2";
                    CopyOperation "/t/x" "/t/a"];
     completed := []; overwrite := false |}.

(** The scenario of the repository's rollback test: a directory [/s] with
    three files, and a directory [/d] in which [file2.txt] exists. *)
Definition existingDestination : MemFS.World :=
  MemFS.world [("/", MemFS.Directory 493); ("/s", MemFS.Directory 493);
               ("/d", MemFS.Directory 493);
               ("/s/file1.txt", MemFS.RegularFile "content1" 420);
               ("/s/file2.txt", MemFS.RegularFile "content2" 420);
               ("/s/file3.txt", MemFS.RegularFile "content3" 420);
               ("/d/file2.txt", MemFS.RegularFile "existing" 420)].

(** Three copies, the second onto the destination that exists. *)
Definition copiesSecondExists : FileTransaction :=
  {| operations := [CopyOperation "/s/file1.txt" "/d/file1.txt";
                    CopyOperation "/s/file2.txt" "/d/file2.txt";
                    CopyOperation "/s/file3.txt" "/d/file3.txt"];
     completed := []; overwrite := false |}.

(** Two moves that succeed. *)
Definition twoMoves : FileTransaction :=
  {| operations := [MoveOperation "/s/file1.txt" "/d/file1.txt";
                    MoveOperation "/s/file3.txt" "/d/file3.txt"];
     completed := []; overwrite := false |}.

(** A copy and a move completed, in a world where a directory has since
    taken the place of the source of the move. *)
Definition copyAndMoveDone : FileTransaction :=
  {| operations := [CopyOperation "/t/a" "/t/c"; MoveOperation "/t/q" "/t/zz"];
     completed := [CopyOperation "/t/a" "/t/c"; MoveOperation "/t/q" "/t/zz"];
     overwrite := false |}.
Definition sourceTaken : MemFS.World :=
  MemFS.world [("/", MemFS.Directory 493); ("/t", MemFS.Directory 493);
               ("/t/a", MemFS.RegularFile "A" 420);
               ("/t/c", MemFS.RegularFile "A" 420);
               ("/t/zz", MemFS.RegularFile "Q" 420);
               ("/t/q", MemFS.Directory 493)].

(** Two copies that succeed in [existingDestination], the second into a
    directory that does not exist yet. *)
Definition twoCopies : FileTransaction :=
  {| operations := [CopyOperation "/s/file1.txt" "/d/file1.txt";
                    CopyOperation "/s/file3.txt" "/d/new/file3.txt"];
     completed := []; overwrite := false |}.

(** The destination of a source below [/s]: the same name below the root
    (the rule of the test double of the command tests). *)
Definition belowRoot (src dstRoot : string) : string :=
  dstRoot +:+ String.substring 2 (String.length src - 2) src.

(** The three files of [/s] in [existingDestination]. *)
Definition threeSources : list string :=
  ["/s/file1.txt"; "/s/file2.txt"; "/s/file3.txt"].

(** What [os.ReadDir] returns for [/s]: its three files and a
    directory. *)
Definition entriesOfS : list DirEntry :=
  [{| Name := "file1.txt"; entryIsDir := false |};
   {| Name := "file2.txt"; entryIsDir := false |};
   {| Name := "file3.txt"; entryIsDir := false |};
   {| Name := "sub"; entryIsDir := true |}].

(** * Properties *)

Local Close Scope string_scope.

(** ** The repository's test tables, run on the embedding *)

(** [TestProgressState_SetCurrent]: within bounds, at the total, above the
    total, negative, and with a zero total. *)
Example test_SetCurrent_table :
  map (fun tc : Z * Z =>
         ProgressState.Current
           (ProgressState.SetCurrent (snd tc)
              (ProgressState.SetTotal (fst tc)
                 (ProgressState.NewProgressState []))))
      [(10, 5); (10, 10); (10, 15); (10, -3); (0, 5)]
  = [5; 10; 10; 0; 5].
Proof. reflexivity. Qed.

(** [TestProgressState_IncrementBy]. *)
Example test_IncrementBy_table :
  map (fun tc : Z * Z * Z =>
         ProgressState.Current
           (ProgressState.IncrementBy (snd tc)
              (ProgressState.SetCurrent (snd (fst tc))
                 (ProgressState.SetTotal (fst (fst tc))
                    (ProgressState.NewProgressState [])))))
      [(10, 2, 3); (10, 7, 3); (10, 8, 5); (10, 5, 0); (10, 5, -2)]
  = [5; 10; 10; 5; 5].
Proof. vm_compute. reflexivity. Qed.

(** [TestProgressState_Percentage], and 29 of 100, which binary64
    arithmetic turns into 28. *)
Example test_Percentage_table :
  map (fun tc : Z * Z =>
         ProgressState.Percentage
           (ProgressState.SetCurrent (snd tc)
              (ProgressState.SetTotal (fst tc)
                 (ProgressState.NewProgressState []))))
      [(10, 0); (10, 5); (10, 10); (10, 12); (0, 5); (3, 1); (3, 2); (100, 29)]
  = [0; 50; 100; 120; 0; 33; 66; 28].
Proof. vm_compute. reflexivity. Qed.

(** [TestProgressState_String]. *)
Example test_String_table :
  map (fun tc : Z * Z =>
         ProgressState.String
           (ProgressState.SetCurrent (snd tc)
              (ProgressState.SetTotal (fst tc)
                 (ProgressState.NewProgressState []))))
      [(10, 3); (10, 10); (10, 12); (0, 5)]
  = (["3/10 (30%)"; "10/10 (100%)"; "10/10 (120%)"; "5 items processed"])%string.
Proof. vm_compute. reflexivity. Qed.

(** [TestProgressBar_ErrorWithUpdate_NoEffect]: what a bar of width 20
    has written after [SetTotal(10)], [SetCurrent(5)], [SetError] and
    three more calls. *)
Example test_bar_error_output :
  ProgressBar.output
    (ProgressBar.Update
       (ProgressBar.SetMessage "new message"
          (ProgressBar.SetCurrent 7
             (ProgressBar.SetError (Some "test error"%string)
                (ProgressBar.SetCurrent 5
                   (ProgressBar.SetTotal 10
                      (ProgressBar.SetEmptyChar 45
                         (ProgressBar.SetBarChar 61
                            (ProgressBar.NewProgressBar [] 20)))))))))
  = ([Go.CR +:+ "[--------------------] 0/10 (0%)";
      Go.CR +:+ "[==========----------] 5/10 (50%)";
      Go.CR +:+ "[==========----------] 5/10 (50%) " +:+ Go.encodeRune 10007
        +:+ " - Error: test error" +:+ Go.LF])%string.
Proof. vm_compute. reflexivity. Qed.

(** [TestTransaction_Rollback], the first concrete scenario of the
    specification: of three copies the second finds its destination
    present.  [Execute] returns the execution-phase error of the second
    copy, the destination of the first does not exist afterwards, the
    file that was in the way is untouched, and nothing is completed. *)
Example test_second_copy_fails :
  fst (Execute MemFS.os MemFS.files copiesSecondExists existingDestination)
  = (Some (TransactionError "execution"
             (Some (CopyOperation "/s/file2.txt" "/d/file2.txt"))
             (Errorf "destination %q already exists" [OpQ "/d/file2.txt"])),
     set_completed [] copiesSecondExists) /\
  MemFS.lookup "/d/file1.txt"
    (snd (Execute MemFS.os MemFS.files copiesSecondExists existingDestination))
  = None /\
  MemFS.lookup "/d/file2.txt"
    (snd (Execute MemFS.os MemFS.files copiesSecondExists existingDestination))
  = Some (MemFS.RegularFile "existing" 420).
Proof. vm_compute. repeat split. Qed.

(** [TestTransaction_MoveOperations], the second concrete scenario: two
    moves succeed, the files are at their destinations with their
    content, the sources are gone, and both operations are completed in
    the planned order. *)
Example test_two_moves_succeed :
  fst (Execute MemFS.os MemFS.files twoMoves existingDestination)
  = (None, set_completed (operations twoMoves) twoMoves) /\
  map (fun p => MemFS.lookup p
                  (snd (Execute MemFS.os MemFS.files twoMoves existingDestination)))
      (["/d/file1.txt"; "/d/file3.txt"; "/s/file1.txt"; "/s/file3.txt"])%string
  = [Some (MemFS.RegularFile "content1" 420);
     Some (MemFS.RegularFile "content3" 420); None; None].
Proof. vm_compute. repeat split. Qed.

(** [TestTransaction_CopyOperations]: a copy creates the missing
    directory of its destination and the destination has the content of
    the source. *)
Example test_copy_creates_directory :
  map (fun p => MemFS.lookup p
                  (snd (Execute MemFS.os MemFS.files bothSucceed twoFiles)))
      (["/t/d"; "/t/d/b"; "/t/a"; "/t/y"; "/t/x"])%string
  = [Some (MemFS.Directory 493); Some (MemFS.RegularFile "A" 420);
     Some (MemFS.RegularFile "A" 420); Some (MemFS.RegularFile "X" 420); None].
Proof. vm_compute. reflexivity. Qed.

(** [TestFileTransaction_ExecuteWithProgress_IntegrationWithProgressBar]:
    what a bar of width 20 with the characters [=] and [-] writes during a
    run of two operations that succeed. *)
Example test_run_with_progress_bar :
  ProgressBar.output
    (snd (fst (ExecuteWithProgress MemFS.os MemFS.files ProgressBarReporter
                 bothSucceed
                 (ProgressBar.SetEmptyChar 45
                    (ProgressBar.SetBarChar 61 (ProgressBar.NewProgressBar [] 20)))
                 twoFiles)))
  = map (fun line => Go.CR +:+ line)
      (["[--------------------] 0/2 (0%)";
        "[--------------------] 0/2 (0%)";
        "[--------------------] 0/2 (0%) - copy /t/a";
        "[==========----------] 1/2 (50%) - copy /t/a";
        "[==========----------] 1/2 (50%) - move /t/x";
        "[====================] 2/2 (100%) - move /t/x";
        "[====================] 2/2 (100%) - move /t/x " +:+ Go.encodeRune 10003
          +:+ Go.LF])%string.
Proof. vm_compute. reflexivity. Qed.

(** The same bar during a run whose third operation fails: the last line
    is the message of the failing operation, and the bar is left neither
    finished nor errored. *)
Example test_failed_run_with_progress_bar :
  ProgressBar.output
    (snd (fst (ExecuteWithProgress MemFS.os MemFS.files ProgressBarReporter
                 thirdFails
                 (ProgressBar.SetEmptyChar 45
                    (ProgressBar.SetBarChar 61 (ProgressBar.NewProgressBar [] 20)))
                 twoFiles)))
  = map (fun line => Go.CR +:+ line)
      (["[--------------------] 0/3 (0%)";
        "[--------------------] 0/3 (0%)";
        "[--------------------] 0/3 (0%) - copy /t/a";
        "[======--------------] 1/3 (33%) - copy /t/a";
        "[======--------------] 1/3 (33%) - move /t/x";
        "[=============-------] 2/3 (66%) - move /t/x";
        "[=============-------] 2/3 (66%) - copy /t/missing"])%string /\
  ProgressBar.finished
    (snd (fst (ExecuteWithProgress MemFS.os MemFS.files ProgressBarReporter
                 thirdFails (ProgressBar.NewProgressBar [] 20) twoFiles)))
  = false /\
  ProgressBar.IsErrored
    (snd (fst (ExecuteWithProgress MemFS.os MemFS.files ProgressBarReporter
                 thirdFails (ProgressBar.NewProgressBar [] 20) twoFiles)))
  = false.
Proof. vm_compute. repeat split. Qed.

(** ** The progress state and the progress bar *)

Section ProgressFacts.
Import ProgressState.

Lemma SetCurrent_clamped (c : Z) (p : t) : clamped (SetCurrent c p).
Proof.
  unfold clamped, SetCurrent; simpl.
  destruct (c <? 0) eqn:Hc; simpl;
    destruct (total p <? _) eqn:Ht; destruct (0 <? total p) eqn:Hp; simpl; lia.
Qed.

Lemma IncrementBy_clamped (a : Z) (p : t) : clamped p -> clamped (IncrementBy a p).
Proof.
  unfold IncrementBy. destruct (a <? 0); [tauto | intros _; apply SetCurrent_clamped].
Qed.

Lemma SetTotal_clamped (n : Z) (p : t) :
  n <= 0 \/ current p <= n -> clamped (SetTotal n p).
Proof.
  unfold clamped, SetTotal; simpl. destruct (n <? 0) eqn:Hn; lia.
Qed.

Lemma SetCurrent_nonNegative (c : Z) (p : t) :
  nonNegative p -> nonNegative (SetCurrent c p).
Proof.
  unfold nonNegative, SetCurrent; simpl.
  destruct (c <? 0) eqn:Hc; simpl;
    destruct (total p <? _) eqn:Ht; destruct (0 <? total p) eqn:Hp; simpl; lia.
Qed.

Lemma stateCall_nonNegative (c : ReporterCall) (p : t) :
  nonNegative p -> nonNegative (stateCall c p).
Proof.
  destruct c; simpl; trivial.
  - unfold nonNegative, SetTotal; simpl. destruct (n <? 0) eqn:Hn; lia.
  - unfold Increment, IncrementBy; simpl. apply SetCurrent_nonNegative.
  - unfold IncrementBy. destruct (n <? 0); [tauto | apply SetCurrent_nonNegative].
  - apply SetCurrent_nonNegative.
Qed.

End ProgressFacts.

Section BarFacts.
Import ProgressBar.

Lemma Display_counters (pb : t) :
  ProgressState.current (state (Display pb)) = ProgressState.current (state pb) /\
  ProgressState.total (state (Display pb)) = ProgressState.total (state pb).
Proof.
  unfold Display. destruct (finished pb || errored pb); [tauto |].
  destruct (negb _); simpl; tauto.
Qed.

Lemma Display_clamped (pb : t) : clamped (state pb) -> clamped (state (Display pb)).
Proof.
  unfold clamped. destruct (Display_counters pb) as [-> ->]. trivial.
Qed.

Lemma Finish_clamped (pb : t) : clamped (state pb) -> clamped (state (Finish pb)).
Proof. unfold Finish. destruct (finished pb); simpl; trivial. Qed.

Lemma SetError_clamped (e : option string) (pb : t) :
  clamped (state pb) -> clamped (state (SetError e pb)).
Proof. unfold SetError. destruct (finished pb); simpl; trivial. Qed.

(** A call keeps the clamping bound, provided a [SetTotal] does not put
    the total below the current value. *)
Lemma applyCall_clamped (c : ReporterCall) (pb : t) :
  clamped (state pb) ->
  (forall n, c = CallSetTotal n -> n <= 0 \/ Current pb <= n) ->
  clamped (state (applyCall ProgressBarReporter pb c)).
Proof.
  intros Hc Hn. destruct c; simpl.
  - unfold SetTotal. destruct (errored pb || finished pb); [assumption |].
    apply Display_clamped; simpl. apply SetTotal_clamped.
    apply Hn; reflexivity.
  - unfold Increment. destruct (errored pb || finished pb); [assumption |].
    apply Display_clamped; simpl. apply IncrementBy_clamped; assumption.
  - unfold IncrementBy. destruct (errored pb || finished pb); [assumption |].
    apply Display_clamped; simpl. apply IncrementBy_clamped; assumption.
  - unfold SetCurrent. destruct (errored pb || finished pb); [assumption |].
    apply Display_clamped; simpl. apply SetCurrent_clamped.
  - unfold SetMessage. destruct (errored pb || finished pb); [assumption |].
    apply Display_clamped; simpl. assumption.
  - apply Finish_clamped; assumption.
  - apply SetError_clamped; assumption.
Qed.

(** Once [finished] is set, the five mutators change nothing. *)
Lemma finished_freezes (pb : t) (n : Z) (m : string) :
  finished pb = true -> frozen n m pb.
Proof.
  intros H.
  unfold frozen, SetTotal, SetCurrent, Increment, IncrementBy, SetMessage.
  rewrite H, orb_true_r. repeat split.
Qed.

Lemma Finish_finished (pb : t) : finished (Finish pb) = true.
Proof. unfold Finish. destruct (finished pb) eqn:E; simpl; trivial. Qed.

Lemma SetError_finished (e : option string) (pb : t) :
  finished (SetError e pb) = true.
Proof. unfold SetError. destruct (finished pb) eqn:E; simpl; trivial. Qed.

Lemma applyCall_nonNegative (c : ReporterCall) (pb : t) :
  nonNegative (state pb) ->
  nonNegative (state (applyCall ProgressBarReporter pb c)).
Proof.
  intros H.
  assert (HD : forall pb', nonNegative (state pb') ->
                           nonNegative (state (Display pb'))).
  { intros pb'. unfold nonNegative.
    destruct (Display_counters pb') as [-> ->]. trivial. }
  destruct c; simpl.
  - unfold SetTotal. destruct (errored pb || finished pb); [assumption |].
    apply HD; simpl. apply (stateCall_nonNegative (CallSetTotal n)), H.
  - unfold Increment. destruct (errored pb || finished pb); [assumption |].
    apply HD; simpl. apply (stateCall_nonNegative CallIncrement), H.
  - unfold IncrementBy. destruct (errored pb || finished pb); [assumption |].
    apply HD; simpl. apply (stateCall_nonNegative (CallIncrementBy n)), H.
  - unfold SetCurrent. destruct (errored pb || finished pb); [assumption |].
    apply HD; simpl. apply (stateCall_nonNegative (CallSetCurrent n)), H.
  - unfold SetMessage. destruct (errored pb || finished pb); [assumption |].
    apply HD; simpl. apply (stateCall_nonNegative (CallSetMessage m)), H.
  - unfold Finish. destruct (finished pb); simpl; assumption.
  - unfold SetError. destruct (finished pb); simpl; assumption.
Qed.

End BarFacts.

(** C10. The progress state rejects negative inputs: [SetTotal] and
    [SetCurrent] store 0 for a negative argument, [IncrementBy] with a
    negative amount changes nothing.  So a fresh state has non-negative
    [current] and [total], every operation of the state keeps them
    non-negative, and so does every call on a progress bar. *)
Theorem progress_state_rejects_negative_inputs :
  (forall n p, n < 0 -> ProgressState.Total (ProgressState.SetTotal n p) = 0) /\
  (forall n p, n < 0 -> ProgressState.Current (ProgressState.SetCurrent n p) = 0) /\
  (forall n p, n < 0 -> ProgressState.IncrementBy n p = p) /\
  (forall w, nonNegative (ProgressState.NewProgressState w)) /\
  (forall c p, nonNegative p -> nonNegative (stateCall c p)) /\
  (forall c pb, nonNegative (ProgressBar.state pb) ->
     nonNegative (ProgressBar.state (applyCall ProgressBarReporter pb c))).
Proof.
  split; [| split; [| split; [| split; [| split]]]].
  - intros n p Hn. unfold ProgressState.Total, ProgressState.SetTotal; simpl.
    destruct (n <? 0) eqn:E; [reflexivity | lia].
  - intros n p Hn. unfold ProgressState.Current, ProgressState.SetCurrent; simpl.
    destruct (n <? 0) eqn:E; [| lia].
    destruct (ProgressState.total p <? 0) eqn:E1;
      destruct (0 <? ProgressState.total p) eqn:E2; simpl; lia.
  - intros n p Hn. unfold ProgressState.IncrementBy.
    destruct (n <? 0) eqn:E; [reflexivity | lia].
  - intros w. unfold nonNegative; simpl; lia.
  - intros c p. apply stateCall_nonNegative.
  - intros c pb. apply applyCall_nonNegative.
Qed.

Lemma progress_state_rejects_negative_inputs_witness :
  ProgressState.Total
    (ProgressState.SetTotal (-5)
       (ProgressState.SetCurrent 5 (ProgressState.NewProgressState []))) = 0 /\
  ProgressState.Current
    (ProgressState.SetCurrent (-3)
       (ProgressState.SetTotal 10 (ProgressState.NewProgressState []))) = 0 /\
  ProgressState.IncrementBy (-2)
    (ProgressState.SetCurrent 5 (ProgressState.NewProgressState []))
  = ProgressState.SetCurrent 5 (ProgressState.NewProgressState []) /\
  nonNegative
    (stateCall (CallIncrementBy Go.maxInt)
       (ProgressState.SetCurrent 5
          (ProgressState.SetTotal 10 (ProgressState.NewProgressState [])))) /\
  nonNegative
    (ProgressBar.state
       (applyCall ProgressBarReporter (ProgressBar.NewProgressBar [] 20)
          (CallSetCurrent (-7)))).
Proof.
  destruct progress_state_rejects_negative_inputs
    as (H1 & H2 & H3 & H4 & H5 & H6).
  split; [apply H1; reflexivity |].
  split; [apply H2; reflexivity |].
  split; [apply H3; reflexivity |].
  split.
  - apply H5. unfold nonNegative; simpl. split; discriminate.
  - apply H6. unfold nonNegative; simpl. split; discriminate.
Defined.

(** C9. The finished and errored states of the progress bar are terminal.
    After [Finish], and after [SetError], each of [SetTotal],
    [SetCurrent], [Increment], [IncrementBy] and [SetMessage] returns the
    bar as it is, output included; a second [Finish] changes and writes
    nothing; and [SetError] after [Finish] changes and writes nothing, so
    the bar is not marked as errored by it. *)
Theorem progress_bar_terminal_states (pb : ProgressBar.t) (e e' : option string)
    (n : Z) (m : string) :
  frozen n m (ProgressBar.Finish pb) /\
  frozen n m (ProgressBar.SetError e pb) /\
  ProgressBar.Finish (ProgressBar.Finish pb) = ProgressBar.Finish pb /\
  ProgressBar.output (ProgressBar.Finish (ProgressBar.Finish pb))
  = ProgressBar.output (ProgressBar.Finish pb) /\
  ProgressBar.SetError e' (ProgressBar.Finish pb) = ProgressBar.Finish pb /\
  ProgressBar.IsErrored (ProgressBar.SetError e' (ProgressBar.Finish pb))
  = ProgressBar.IsErrored pb.
Proof.
  assert (HF : ProgressBar.Finish (ProgressBar.Finish pb) = ProgressBar.Finish pb).
  { unfold ProgressBar.Finish at 1. now rewrite Finish_finished. }
  assert (HE : ProgressBar.SetError e' (ProgressBar.Finish pb)
               = ProgressBar.Finish pb).
  { unfold ProgressBar.SetError. now rewrite Finish_finished. }
  split; [apply finished_freezes, Finish_finished |].
  split; [apply finished_freezes, SetError_finished |].
  split; [exact HF | split; [now rewrite HF | split; [exact HE |]]].
  rewrite HE. unfold ProgressBar.IsErrored, ProgressBar.Finish.
  destruct (ProgressBar.finished pb); reflexivity.
Qed.

(** C8, as the specification states it, fails: [SetTotal] stores the new
    total and leaves the current value alone.  Setting the current value
    first and the total afterwards leaves 5 of 3; and with a positive
    total throughout, lowering the total from 10 to 5 leaves 8 of 5. *)
Lemma clamp_fails_when_total_set_after_current :
  ProgressBar.Total
    (applyCalls ProgressBarReporter [CallSetCurrent 5; CallSetTotal 3]
       (ProgressBar.NewProgressBar [] 40)) = 3 /\
  ProgressBar.Current
    (applyCalls ProgressBarReporter [CallSetCurrent 5; CallSetTotal 3]
       (ProgressBar.NewProgressBar [] 40)) = 5 /\
  ~ clamped
      (ProgressBar.state
         (applyCalls ProgressBarReporter [CallSetCurrent 5; CallSetTotal 3]
            (ProgressBar.NewProgressBar [] 40))) /\
  ~ clamped
      (ProgressBar.state
         (applyCalls ProgressBarReporter
            [CallSetTotal 10; CallSetCurrent 8; CallSetTotal 5]
            (ProgressBar.NewProgressBar [] 40))) /\
  ~ clamped
      (ProgressState.SetTotal 3
         (ProgressState.SetCurrent 5 (ProgressState.NewProgressState []))).
Proof.
  split; [vm_compute; reflexivity |].
  split; [vm_compute; reflexivity |].
  split; [| split]; unfold clamped; intros H.
  - assert (Hlt : 0 < 3) by reflexivity.
    apply H in Hlt. vm_compute in Hlt. apply Hlt. reflexivity.
  - assert (Hlt : 0 < 5) by reflexivity.
    apply H in Hlt. vm_compute in Hlt. apply Hlt. reflexivity.
  - assert (Hlt : 0 < 3) by reflexivity.
    apply H in Hlt. vm_compute in Hlt. apply Hlt. reflexivity.
Qed.

(** C8, amended.  [SetCurrent], [Increment] and [IncrementBy] clamp the
    current value to a positive total; [SetTotal] does not re-clamp.  So
    from a bar within the bound, any sequence of reporter calls in which
    no [SetTotal] puts a positive total below the current value ends
    within the bound: if the total is positive, the current value does
    not exceed it. *)
Theorem progress_clamped_while_total_not_lowered
    (calls : list ReporterCall) (pb : ProgressBar.t)
    (Hstart : clamped (ProgressBar.state pb))
    (Htotals : totalsKeepBound calls pb = true) :
  clamped (ProgressBar.state (applyCalls ProgressBarReporter calls pb)).
Proof.
  revert pb Hstart Htotals.
  induction calls as [| c rest IH]; intros pb Hstart Htotals; [exact Hstart |].
  simpl in Htotals. apply andb_prop in Htotals as [Hc Hrest].
  unfold applyCalls; simpl. apply IH; [| exact Hrest].
  apply applyCall_clamped; [exact Hstart |].
  intros n ->. apply orb_prop in Hc as [Hc | Hc]; [left | right]; lia.
Qed.

Lemma progress_clamped_while_total_not_lowered_witness :
  clamped
    (ProgressBar.state
       (applyCalls ProgressBarReporter
          [CallSetTotal 10; CallSetCurrent 15; CallIncrement;
           CallIncrementBy 3; CallSetTotal 12; CallIncrementBy (-1)]
          (ProgressBar.NewProgressBar [] 40))).
Proof.
  apply progress_clamped_while_total_not_lowered.
  - unfold clamped; simpl; intros H; discriminate H.
  - vm_compute; reflexivity.
Defined.

(** ** The transaction engine *)

Section EngineFacts.
Context {W : Type} (os : OS W) (fs : FilesService W).

Lemma set_completed_twice (a b : list Operation) (ft : FileTransaction) :
  set_completed a (set_completed b ft) = set_completed a ft.
Proof. reflexivity. Qed.

Lemma rollbackEach_ops (ops : list Operation) (w : W) :
  map fst (fst (rollbackEach os ops w)) = ops.
Proof.
  revert w. induction ops as [| op rest IH]; intros w; simpl; [reflexivity |].
  destruct (Operation_Rollback os op w) as [res w1].
  specialize (IH w1). destruct (rollbackEach os rest w1) as [results w2].
  simpl in *. now rewrite IH.
Qed.

(** The counting loop of [Rollback] visits the first [n] completed
    operations last to first. *)
Lemma rollbackLoop_each (n : nat) (ft : FileTransaction) (errs : list error)
    (w : W) :
  (n <= length (completed ft))%nat ->
  rollbackLoop os n ft errs w
  = (errs ++ omap rollbackFailure
               (fst (rollbackEach os (rev (take n (completed ft))) w)),
     snd (rollbackEach os (rev (take n (completed ft))) w)).
Proof.
  revert errs w. induction n as [| i IH]; intros errs w Hn.
  - simpl. now rewrite app_nil_r.
  - destruct (lookup_lt_is_Some_2 (completed ft) i) as [op Hop]; [lia |].
    simpl. rewrite Hop, (take_S_r _ _ _ Hop), rev_unit. simpl.
    destruct (Operation_Rollback os op w) as [[err |] w1].
    + rewrite IH by lia.
      destruct (rollbackEach os (rev (take i (completed ft))) w1) as [steps w2].
      simpl. now rewrite <- app_assoc.
    + rewrite IH by lia.
      destruct (rollbackEach os (rev (take i (completed ft))) w1) as [steps w2].
      reflexivity.
Qed.

Lemma Rollback_each (ft : FileTransaction) (w : W) :
  Rollback os ft w
  = (rollbackResult (fst (rollbackEach os (rev (completed ft)) w)),
     set_completed [] ft,
     snd (rollbackEach os (rev (completed ft)) w)).
Proof.
  unfold Rollback. rewrite rollbackLoop_each by lia.
  rewrite firstn_all. simpl.
  destruct (rollbackEach os (rev (completed ft)) w) as [steps w1]. simpl.
  unfold rollbackResult. destruct (omap rollbackFailure steps); reflexivity.
Qed.

Lemma rollbackFailures_nil (steps : list (Operation * option error)) :
  omap rollbackFailure steps = [] <-> Forall (fun s => snd s = None) steps.
Proof.
  induction steps as [| [op [e |]] rest IH].
  - split; [constructor | reflexivity].
  - split; [discriminate |]. intros H. inversion H; subst. discriminate.
  - change (omap rollbackFailure ((op, None) :: rest))
      with (omap rollbackFailure rest).
    rewrite IH. split; intros H.
    + constructor; [reflexivity | exact H].
    + now inversion H.
Qed.

Lemma rollbackResult_None (steps : list (Operation * option error)) :
  rollbackResult steps = None <-> Forall (fun s => snd s = None) steps.
Proof.
  rewrite <- rollbackFailures_nil. unfold rollbackResult.
  destruct (omap rollbackFailure steps); split; intros H;
    (reflexivity || discriminate).
Qed.

Lemma runOperations_done (ops : list Operation) (w : W) :
  snd (fst (runOperations os fs ops w)) = None ->
  fst (fst (runOperations os fs ops w)) = ops.
Proof.
  revert w. induction ops as [| op rest IH]; intros w; simpl; [reflexivity |].
  destruct (Operation_Execute os fs op w) as [[err |] w1]; simpl; [discriminate |].
  specialize (IH w1). destruct (runOperations os fs rest w1) as [[done f] w2].
  simpl in *. intros H. now rewrite IH.
Qed.

(** The operations that succeeded are a prefix of the planned ones, and
    a failing operation is the one that follows them. *)
Lemma runOperations_prefix (ops : list Operation) (w : W) :
  match runOperations os fs ops w with
  | (done, None, _) => done = ops
  | (done, Some (op, _), _) => exists rest, ops = done ++ op :: rest
  end.
Proof.
  revert w. induction ops as [| op rest IH]; intros w; simpl; [reflexivity |].
  destruct (Operation_Execute os fs op w) as [[err |] w1].
  - now exists rest.
  - specialize (IH w1). destruct (runOperations os fs rest w1) as [[done [[op' e] |]] w2].
    + destruct IH as [rest' ->]. now exists rest'.
    + now subst.
Qed.

Section ReporterFacts.
Context {R : Type} (rep : ProgressReporter R).

Lemma applyCalls_app (a b : list ReporterCall) (r : R) :
  applyCalls rep (a ++ b) r = applyCalls rep b (applyCalls rep a r).
Proof. apply fold_left_app. Qed.

(** The loop of [ExecuteWithProgress], along the reference run. *)
Lemma executeLoop_run (ops : list Operation) (i : Z) (ft : FileTransaction)
    (r : R) (w : W) :
  executeLoop os fs rep ops i ft r w
  = match runOperations os fs ops w with
    | (done, None, w1) =>
        (None, set_completed (completed ft ++ done) ft,
         applyCalls rep (progressCalls done i ++ [CallFinish]) r, w1)
    | (done, Some (op, err), w1) =>
        (Some (TransactionError "execution" (Some op)
                 (executionErr err
                    (fst (fst (Rollback os
                                 (set_completed (completed ft ++ done) ft) w1))))),
         snd (fst (Rollback os (set_completed (completed ft ++ done) ft) w1)),
         applyCalls rep (progressCalls done i ++ [CallSetMessage (progressMessage op)]) r,
         snd (Rollback os (set_completed (completed ft ++ done) ft) w1))
    end.
Proof.
  revert i ft r w. induction ops as [| op rest IH]; intros i ft r w; simpl.
  - rewrite app_nil_r. now destruct ft.
  - destruct (Operation_Execute os fs op w) as [[err |] w1].
    + rewrite app_nil_r.
      replace (set_completed (completed ft) ft) with ft by now destruct ft.
      destruct (Rollback os ft w1) as [[[rbErr |] ft'] w2]; reflexivity.
    + rewrite IH. simpl.
      destruct (runOperations os fs rest w1) as [[done [[op' e] |]] w2];
        simpl; rewrite <- app_assoc; reflexivity.
Qed.

Lemma ExecuteWithProgress_run (ft : FileTransaction) (r : R) (w : W) :
  ExecuteWithProgress os fs rep ft r w
  = match runOperations os fs (operations ft) w with
    | (done, None, w1) =>
        (None, set_completed done ft,
         applyCalls rep
           (CallSetTotal (Z.of_nat (length (operations ft))) :: CallSetCurrent 0
              :: progressCalls done 0 ++ [CallFinish]) r,
         w1)
    | (done, Some (op, err), w1) =>
        (Some (TransactionError "execution" (Some op)
                 (executionErr err
                    (fst (fst (Rollback os (set_completed done ft) w1))))),
         snd (fst (Rollback os (set_completed done ft) w1)),
         applyCalls rep
           (CallSetTotal (Z.of_nat (length (operations ft))) :: CallSetCurrent 0
              :: progressCalls done 0 ++ [CallSetMessage (progressMessage op)]) r,
         snd (Rollback os (set_completed done ft) w1))
    end.
Proof.
  unfold ExecuteWithProgress. rewrite executeLoop_run. simpl.
  destruct (runOperations os fs (operations ft) w) as [[done [[op e] |]] w1];
    reflexivity.
Qed.

End ReporterFacts.

Lemma Execute_run (ft : FileTransaction) (w : W) :
  Execute os fs ft w
  = match runOperations os fs (operations ft) w with
    | (done, None, w1) => (None, set_completed done ft, w1)
    | (done, Some (op, err), w1) =>
        (Some (TransactionError "execution" (Some op)
                 (executionErr err
                    (fst (fst (Rollback os (set_completed done ft) w1))))),
         snd (fst (Rollback os (set_completed done ft) w1)),
         snd (Rollback os (set_completed done ft) w1))
    end.
Proof.
  unfold Execute. rewrite ExecuteWithProgress_run.
  destruct (runOperations os fs (operations ft) w) as [[done [[op e] |]] w1];
    reflexivity.
Qed.

End EngineFacts.

Section ValidateFacts.
Context {W : Type} (fs : FilesService W).




End ValidateFacts.

Lemma progressCalls_no_terminal (done : list Operation) (i : Z) :
  Forall (fun c => isFinish c = false /\ isSetError c = false) (progressCalls done i).
Proof.
  revert i. induction done as [| op rest IH]; intros i; simpl.
  - constructor.
  - constructor; [split; reflexivity |]. constructor; [split; reflexivity |].
    apply IH.
Qed.

Lemma progressCalls_SetCurrent (done : list Operation) (k : nat) :
  omap isSetCurrent (progressCalls done (Z.of_nat k))
  = map Z.of_nat (seq (S k) (length done)).
Proof.
  revert k. induction done as [| op rest IH]; intros k; [reflexivity |].
  change (omap isSetCurrent (progressCalls (op :: rest) (Z.of_nat k)))
    with (Z.of_nat k + 1 :: omap isSetCurrent (progressCalls rest (Z.of_nat k + 1))).
  replace (Z.of_nat k + 1) with (Z.of_nat (S k)) by lia.
  rewrite IH. reflexivity.
Qed.

Lemma progressCalls_no_Finish (done : list Operation) (i : Z) :
  filter (fun c => isFinish c = true) (progressCalls done i) = [].
Proof.
  revert i. induction done as [| op rest IH]; intros i; [reflexivity |].
  simpl. rewrite !filter_cons. simpl.
  destruct (decide (false = true)) as [H | _]; [discriminate |].
  apply IH.
Qed.

Lemma applyCalls_Recorder (calls log : list ReporterCall) :
  applyCalls Recorder calls log = log ++ calls.
Proof.
  revert log. induction calls as [| c rest IH]; intros log; simpl.
  - now rewrite app_nil_r.
  - unfold applyCalls in *; simpl. rewrite IH.
    destruct c; simpl; now rewrite <- app_assoc.
Qed.

Section EngineClaims.
Context {W : Type} (os : OS W) (fs : FilesService W).

(** C2. [Rollback] runs the rollback of every completed operation, last
    completed first, and goes on after a step that fails; it leaves the
    completed list empty whatever the outcome; it returns nil exactly
    when no step failed, and otherwise the rollback-phase
    [TransactionError], without an operation, whose [Err] carries the
    failures of the steps in the order they were made.  With [A] and [B]
    completed, the rollback of [B] acts on the world first and the
    rollback of [A] on the world it leaves. *)
Theorem rollback_reverse_order_collects_all (ft : FileTransaction) (w : W) :
  Rollback os ft w
  = (rollbackResult (fst (rollbackEach os (rev (completed ft)) w)),
     set_completed [] ft,
     snd (rollbackEach os (rev (completed ft)) w)) /\
  map fst (fst (rollbackEach os (rev (completed ft)) w)) = rev (completed ft) /\
  Completed (snd (fst (Rollback os ft w))) = [] /\
  (fst (fst (Rollback os ft w)) = None <->
   Forall (fun step => snd step = None)
          (fst (rollbackEach os (rev (completed ft)) w))) /\
  (forall e, fst (fst (Rollback os ft w)) = Some e ->
     e = TransactionError "rollback" None
           (Errorf "rollback errors: %v"
              [OpVs (omap rollbackFailure
                       (fst (rollbackEach os (rev (completed ft)) w)))])) /\
  (forall A B, completed ft = [A; B] ->
     snd (Rollback os ft w)
     = snd (Operation_Rollback os A (snd (Operation_Rollback os B w)))).
Proof.
  rewrite Rollback_each. simpl.
  split; [reflexivity |].
  split; [apply rollbackEach_ops |].
  split; [reflexivity |].
  split; [apply rollbackResult_None |].
  split.
  - intros e. unfold rollbackResult.
    destruct (omap rollbackFailure _); [discriminate | now intros [= <-]].
  - intros A B ->. simpl.
    destruct (Operation_Rollback os B w) as [rb w1]. simpl.
    destruct (Operation_Rollback os A w1) as [ra w2]. reflexivity.
Qed.

(** C3. When an operation fails during [ExecuteWithProgress], [Rollback]
    is run at once, on the operations completed so far and the world the
    failed attempt left.  The result is an execution-phase
    [TransactionError] for the failing operation: its [Err] is the
    execution error itself when the rollback returns nil, and the error
    built from the execution error and the rollback error when it does
    not.  The reporter has received [SetTotal], [SetCurrent(0)], the
    calls of the operations that succeeded and the message of the failing
    one: neither [Finish] nor [SetError]. *)
Theorem execution_failure_reports_and_rolls_back
    {R : Type} (rep : ProgressReporter R) (ft : FileTransaction) (r : R) (w : W)
    (done : list Operation) (op : Operation) (err : error) (w1 : W)
    (Hfail : runOperations os fs (operations ft) w = (done, Some (op, err), w1)) :
  exists (Err : error) (calls : list ReporterCall),
    ExecuteWithProgress os fs rep ft r w
    = (Some (TransactionError "execution" (Some op) Err),
       snd (fst (Rollback os (set_completed done ft) w1)),
       applyCalls rep calls r,
       snd (Rollback os (set_completed done ft) w1)) /\
    (fst (fst (Rollback os (set_completed done ft) w1)) = None -> Err = err) /\
    (forall rbErr,
       fst (fst (Rollback os (set_completed done ft) w1)) = Some rbErr ->
       Err = Errorf "execution failed: %v; rollback also failed: %v"
               [OpV err; OpV rbErr]) /\
    calls = CallSetTotal (Z.of_nat (length (operations ft))) :: CallSetCurrent 0
              :: progressCalls done 0 ++ [CallSetMessage (progressMessage op)] /\
    Forall (fun c => isFinish c = false /\ isSetError c = false) calls /\
    ExecuteWithProgress os fs Recorder ft [] w
    = (Some (TransactionError "execution" (Some op) Err),
       snd (fst (Rollback os (set_completed done ft) w1)),
       calls,
       snd (Rollback os (set_completed done ft) w1)).
Proof.
  eexists. eexists.
  rewrite !ExecuteWithProgress_run, Hfail.
  split; [reflexivity |].
  split; [now intros -> |].
  split; [now intros rbErr -> |].
  split; [reflexivity |].
  split.
  - constructor; [split; reflexivity |]. constructor; [split; reflexivity |].
    apply Forall_app. split; [apply progressCalls_no_terminal |].
    constructor; [split; reflexivity | constructor].
  - now rewrite applyCalls_Recorder.
Qed.

(** C7. When every operation of a transaction of [N] operations
    succeeds, [ExecuteWithProgress] returns nil, and the calls it makes
    on the reporter, whatever the reporter, are [SetTotal(N)],
    [SetCurrent(0)], then for each operation its message and
    [SetCurrent] of the number of operations done, and [Finish] last.
    So the [SetCurrent] values are 0, 1, ..., [N] in this order and
    [Finish] is called once, after them.  With no operation the calls
    are [SetTotal(0)], [SetCurrent(0)], [Finish]. *)
Theorem successful_run_progress_calls
    {R : Type} (rep : ProgressReporter R) (ft : FileTransaction) (r : R) (w : W)
    (Hok : snd (fst (runOperations os fs (operations ft) w)) = None) :
  exists calls : list ReporterCall,
    fst (fst (fst (ExecuteWithProgress os fs rep ft r w))) = None /\
    snd (fst (ExecuteWithProgress os fs rep ft r w)) = applyCalls rep calls r /\
    snd (fst (ExecuteWithProgress os fs Recorder ft [] w)) = calls /\
    calls = CallSetTotal (Z.of_nat (length (operations ft))) :: CallSetCurrent 0
              :: progressCalls (operations ft) 0 ++ [CallFinish] /\
    omap isSetCurrent calls
    = map Z.of_nat (seq 0 (S (length (operations ft)))) /\
    filter (fun c => isFinish c = true) calls = [CallFinish] /\
    last calls = Some CallFinish /\
    (operations ft = [] ->
     calls = [CallSetTotal 0; CallSetCurrent 0; CallFinish]).
Proof.
  exists (CallSetTotal (Z.of_nat (length (operations ft))) :: CallSetCurrent 0
            :: progressCalls (operations ft) 0 ++ [CallFinish]).
  rewrite !ExecuteWithProgress_run.
  pose proof (runOperations_done os fs (operations ft) w Hok) as Hdone.
  destruct (runOperations os fs (operations ft) w) as [[done f] w1].
  simpl in Hok, Hdone. subst f done. cbn [fst snd].
  split; [reflexivity |].
  split; [reflexivity |].
  split; [now rewrite applyCalls_Recorder |].
  split; [reflexivity |].
  split.
  - change (omap isSetCurrent
              (CallSetTotal (Z.of_nat (length (operations ft))) :: CallSetCurrent 0
                 :: progressCalls (operations ft) 0 ++ [CallFinish]))
      with (0 :: omap isSetCurrent (progressCalls (operations ft) 0 ++ [CallFinish])).
    rewrite omap_app.
    change (progressCalls (operations ft) 0)
      with (progressCalls (operations ft) (Z.of_nat 0)).
    rewrite progressCalls_SetCurrent. simpl. now rewrite app_nil_r.
  - split.
    + rewrite !filter_cons. simpl.
      destruct (decide (false = true)) as [H | _]; [discriminate |].
      rewrite filter_app, progressCalls_no_Finish. reflexivity.
    + split.
      * rewrite !last_cons, last_snoc. reflexivity.
      * now intros ->.
Qed.


End EngineClaims.

(** C1, as the specification states it, fails on the in-memory system,
    and for a plan that [Validate] accepts.  [/t/a] is moved to [/t/b],
    [/t/x] is moved to [/t/a/y], which makes [/t/a] a directory, and the
    third move fails.  The rollback moves [/t/a/y] back to [/t/x], but
    [/t/b] cannot be renamed onto the directory [/t/a]: [Execute] reports
    the failed rollback next to the execution error, and [/t/b] stays
    where the first move put it. *)
Lemma rollback_failure_leaves_destination :
  Validate MemFS.files sourceBecomesDirectory threeFiles
  = (None, sourceBecomesDirectory, threeFiles) /\
  fst (fst (Execute MemFS.os MemFS.files sourceBecomesDirectory threeFiles))
  = Some (TransactionError "execution" (Some (MoveOperation "/t/q" "/t/b/z"))
            (Errorf "execution failed: %v; rollback also failed: %v"
               [OpV (Errorf "creating directory %q: %w"
                       [OpQ "/t/b";
                        OpW (PathError "mkdir" "/t/b" (SyscallErrno ENOTDIR))]);
                OpV (TransactionError "rollback" None
                       (Errorf "rollback errors: %v"
                          [OpVs
                             [Errorf "failed to rollback %s %s->%s: %w"
                                [OpT OperationMove; OpS "/t/a"; OpS "/t/b";
                                 OpW (Errorf
                                        "failed to restore moved file %q to %q: %w"
                                        [OpQ "/t/b"; OpQ "/t/a";
                                         OpW (LinkError "rename" "/t/b" "/t/a"
                                                (SyscallErrno EEXIST))])]]]))])) /\
  MemFS.lookup "/t/b"
    (snd (Execute MemFS.os MemFS.files sourceBecomesDirectory threeFiles))
  = Some (MemFS.RegularFile "A" 420) /\
  MemFS.lookup "/t/a"
    (snd (Execute MemFS.os MemFS.files sourceBecomesDirectory threeFiles))
  = Some (MemFS.Directory 493) /\
  ~ allOrNothing sourceBecomesDirectory threeFiles.
Proof.
  split; [vm_compute; reflexivity |].
  split; [vm_compute; reflexivity |].
  split; [vm_compute; reflexivity |].
  split; [vm_compute; reflexivity |].
  unfold allOrNothing.
  replace (runOperations MemFS.os MemFS.files
             (operations sourceBecomesDirectory) threeFiles)
    with ([MoveOperation "/t/a" "/t/b"; MoveOperation "/t/x" "/t/a/y"],
          Some (MoveOperation "/t/q" "/t/b/z",
                Errorf "creating directory %q: %w"
                  [OpQ "/t/b";
                   OpW (PathError "mkdir" "/t/b" (SyscallErrno ENOTDIR))]),
          snd (runOperations MemFS.os MemFS.files
                 (operations sourceBecomesDirectory) threeFiles))
    by (vm_compute; reflexivity).
  cbv beta iota. intros H. destruct H as (_ & Hundone & _).
  inversion Hundone as [| op rest Hop _]; subst.
  cbn [undone] in Hop. destruct Hop as [Hdst _].
  vm_compute in Hdst. discriminate Hdst.
Qed.

Section OverwriteClaim.
Context {W : Type} (os : OS W).

Lemma ValidateCopyArgs_None_absent (src dst : string) (w : W) :
  Files.ValidateCopyArgs os src dst w = None ->
  forall info, os_Stat os dst w <> inl info.
Proof.
  unfold Files.ValidateCopyArgs.
  destruct (_ || _); [discriminate |].
  destruct (negb (Files.IsFile os src w)); [discriminate |].
  destruct (os_Stat os dst w); [discriminate |].
  intros _ info. discriminate.
Qed.

(** C5.  With the [*Files] service: when the destination of one of the
    planned operations exists, [Validate] without overwrite returns a
    planning-phase error; with overwrite, [Validate] of the same plan
    returns nil as soon as every operation has a non-empty source and
    destination and a source that is a regular file - whether the
    destinations exist or not.  Neither changes the transaction or the
    world. *)
Theorem validate_overwrite_semantics (ops cs : list Operation) (w : W) :
  (Exists (fun op => exists info, os_Stat os (Destination op) w = inl info) ops ->
   exists te,
     Validate (Files.service os)
       {| operations := ops; completed := cs; overwrite := false |} w
     = (Some te, {| operations := ops; completed := cs; overwrite := false |}, w)
     /\ Phase_of te = Some "planning"%string) /\
  (Forall (fun op => Source op <> ""%string /\ Destination op <> ""%string /\
                     Files.IsFile os (Source op) w = true) ops ->
   Validate (Files.service os)
     {| operations := ops; completed := cs; overwrite := true |} w
   = (None, {| operations := ops; completed := cs; overwrite := true |}, w)).
Proof.
  unfold Validate; cbn [operations overwrite]. split.
  - intros Hex.
    enough (exists te, validateLoop (Files.service os) false ops w = (Some te, w)
                       /\ Phase_of te = Some "planning"%string) as (te & -> & Hp)
      by (exists te; split; [reflexivity | exact Hp]).
    induction ops as [| op rest IH]; [inversion Hex |].
    cbn [validateLoop negb svcValidateCopyArgs Files.service].
    destruct (Files.ValidateCopyArgs os (Source op) (Destination op) w)
      as [e |] eqn:Hv.
    + eexists; split; reflexivity.
    + apply IH. inversion Hex as [? ? [info Hinfo] | ? ? Hrest]; subst;
        [| exact Hrest].
      exfalso. exact (ValidateCopyArgs_None_absent _ _ _ Hv info Hinfo).
  - intros Hall.
    enough (validateLoop (Files.service os) true ops w = (None, w)) as ->
      by reflexivity.
    induction Hall as [| op rest (Hs & Hd & Hf) _ IH]; [reflexivity |].
    cbn [validateLoop negb svcIsFile Files.service].
    apply String.eqb_neq in Hs, Hd. rewrite Hs, Hd, Hf. exact IH.
Qed.

End OverwriteClaim.

Lemma rollbackEach_snoc {W} (o : OS W) (l : list Operation) (op : Operation) (w : W) :
  rollbackEach o (l ++ [op]) w
  = (fst (rollbackEach o l w)
       ++ [(op, fst (Operation_Rollback o op (snd (rollbackEach o l w))))],
     snd (Operation_Rollback o op (snd (rollbackEach o l w)))).
Proof.
  revert w. induction l as [| a l IH]; intros w; simpl.
  - destruct (Operation_Rollback o op w); reflexivity.
  - destruct (Operation_Rollback o a w) as [r w1]. rewrite IH.
    destruct (rollbackEach o l w1) as [steps w2]. reflexivity.
Qed.

Section MemFSFacts.
Import MemFS.

Lemma Remove_regular (path data : string) (mode : Z) (w : World) :
  lookup path w = Some (RegularFile data mode) ->
  Remove path w = (None, set_nodes (delete path) w).
Proof. unfold lookup, Remove. now intros ->. Qed.



Lemma Rename_regular (old new data : string) (mode dmode : Z) (w : World) :
  lookup old w = Some (RegularFile data mode) ->
  lookup new w = None ->
  lookup (Dir new) w = Some (Directory dmode) ->
  Rename old new w
  = (None, set_nodes (fun m => <[new := RegularFile data mode]> (delete old m)) w).
Proof.
  unfold lookup, Rename. intros Hold Hnew Hdir. rewrite Hold, Hnew, Hdir.
  destruct (String.eqb old new) eqn:E; [| reflexivity].
  apply String.eqb_eq in E. subst. congruence.
Qed.

Lemma Rename_onto_directory (old new : string) (n : node) (dmode : Z) (w : World) :
  lookup old w = Some n ->
  lookup new w = Some (Directory dmode) ->
  Rename old new w
  = (Some (LinkError "rename" old new (SyscallErrno EEXIST)), w).
Proof. unfold lookup, Rename. now intros -> ->. Qed.

Lemma growsDirs_refl m : growsDirs m m.
Proof. intros p; now left. Qed.

Lemma growsDirs_trans m1 m2 m3 : growsDirs m1 m2 -> growsDirs m2 m3 -> growsDirs m1 m3.
Proof.
  intros H12 H23 p. destruct (H23 p) as [H | [H [mode Hm]]].
  - rewrite H. apply H12.
  - destruct (H12 p) as [H' | [H' [md Hmd]]].
    + right. split; [congruence | eauto].
    + congruence.
Qed.

Lemma mkdirAll_grows fuel path perm m :
  growsDirs m (snd (mkdirAll fuel path perm m)).
Proof.
  revert path m. induction fuel as [| fuel IH]; intros path m; simpl.
  - destruct (m !! path) as [[] |]; apply growsDirs_refl.
  - destruct (m !! path) as [[] |] eqn:E; try apply growsDirs_refl.
    specialize (IH (Dir path) m).
    destruct (mkdirAll fuel (Dir path) perm m) as [[e |] m']; simpl in *; [exact IH |].
    intros p. destruct (decide (p = path)) as [-> | Hne].
    + rewrite lookup_insert_eq. right. split; [exact E | eauto].
    + rewrite lookup_insert_ne by congruence. apply IH.
Qed.


Lemma nodes_Close fd w : nodes (snd (Close fd w)) = nodes w.
Proof. unfold Close. destruct (fds w !! fd); reflexivity. Qed.

Lemma Sync_world fd w : snd (Sync fd w) = w.
Proof. unfold Sync. destruct (fds w !! fd); reflexivity. Qed.

Lemma EnsureDir_grows path perm w :
  growsDirs (nodes w) (nodes (snd (Files.EnsureDir os path perm w))) /\
  fds (snd (Files.EnsureDir os path perm w)) = fds w.
Proof.
  unfold Files.EnsureDir. destruct (String.eqb path "").
  - split; [apply growsDirs_refl | reflexivity].
  - cbn [os_MkdirAll os]. unfold MkdirAll.
    pose proof (mkdirAll_grows (String.length path) path perm (nodes w)) as H.
    destruct (mkdirAll (String.length path) path perm (nodes w)) as [[e |] m];
      split; (exact H || reflexivity).
Qed.

Lemma OpenFile_excl_nodes path mode w r w1 :
  OpenFile_excl path mode w = (r, w1) ->
  match r with
  | inl fout =>
      nodes w !! path = None /\
      nodes w1 = <[path := RegularFile "" mode]> (nodes w) /\
      fds w1 !! fout = Some path
  | inr _ => w1 = w
  end.
Proof.
  unfold OpenFile_excl.
  destruct (nodes w !! path) eqn:E; [now intros [= <- <-] |].
  destruct (nodes w !! Dir path) as [[] |]; try now intros [= <- <-].
  unfold newFd, set_nodes. cbn. intros [= <- <-]. cbn.
  split; [reflexivity |]. split; [reflexivity |]. apply lookup_insert_eq.
Qed.

Lemma IoCopy_nodes fout fin w r w1 :
  IoCopy fout fin w = (r, w1) ->
  match r with
  | None =>
      exists pout old data mode,
        fds w !! fout = Some pout /\ fds w1 = fds w /\
        nodes w1 = <[pout := RegularFile (old +:+ data) mode]> (nodes w)
  | Some _ => w1 = w
  end.
Proof.
  unfold IoCopy, fdNode.
  destruct (fds w !! fin) as [pin |]; [| now intros [= <- <-]].
  destruct (nodes w !! pin) as [[data m |] |]; try now intros [= <- <-].
  destruct (fds w !! fout) as [pout |]; [| now intros [= <- <-]].
  destruct (nodes w !! pout) as [[old mode |] |]; try now intros [= <- <-].
  intros [= <- <-]. exists pout, old, data, mode. repeat split.
Qed.

Lemma Remove_created path data mode (m : gmap string node) w :
  nodes w = <[path := RegularFile data mode]> m -> m !! path = None ->
  nodes (snd (Remove path w)) = m.
Proof.
  intros Hn Hm. unfold Remove. rewrite Hn, lookup_insert_eq. cbn.
  rewrite Hn. rewrite delete_insert_eq. now apply delete_id.
Qed.

Lemma Copy_nodes src dst w e w' :
  Files.Copy os src dst w = (e, w') ->
  match e with
  | None =>
      nodes w !! dst = None /\
      exists data mode m2,
        growsDirs (nodes w) m2 /\ m2 !! dst = None /\
        nodes w' = <[dst := RegularFile data mode]> m2
  | Some _ => growsDirs (nodes w) (nodes w')
  end.
Proof.
  unfold Files.Copy.
  destruct (Files.ValidateCopyArgs os src dst w) eqn:Hv.
  { intros [= <- <-]. apply growsDirs_refl. }
  assert (Hdst : nodes w !! dst = None).
  { unfold Files.ValidateCopyArgs in Hv. repeat case_match; try discriminate.
    cbn in *. unfold Stat in *. repeat case_match; congruence. }
  cbn [os_Open os File_Stat File_Close os_OpenFile_excl io_Copy File_Sync os_Remove filepath_Dir].
  unfold Open.
  destruct (nodes w !! src) as [nsrc |] eqn:Hsrc.
  2:{ intros [= <- <-]. apply growsDirs_refl. }
  unfold newFd. cbn [fst snd].
  set (wo := {| nodes := nodes w; fds := <[nextFd w := src]> (fds w);
                nextFd := nextFd w + 1 |}).
  destruct (FStat (nextFd w) wo) as [srcInfo | err].
  2:{ intros [= <- <-]. rewrite nodes_Close. apply growsDirs_refl. }
  destruct (EnsureDir_grows (Dir dst) 493 wo) as [Hgrow Hfds].
  destruct (Files.EnsureDir os (Dir dst) 493 wo) as [[err |] w0]; cbn [snd] in *.
  { intros [= <- <-]. rewrite nodes_Close. exact Hgrow. }
  destruct (OpenFile_excl dst (Mode srcInfo) w0) as [[fout | err] w1] eqn:Hopen;
    apply OpenFile_excl_nodes in Hopen.
  2:{ subst w1. intros [= <- <-]. rewrite nodes_Close. exact Hgrow. }
  destruct Hopen as (Hnone & Hnodes1 & Hfout).
  destruct (IoCopy fout (nextFd w) w1) as [[copyErr |] w2] eqn:Hcopy;
    apply IoCopy_nodes in Hcopy.
  { subst w2. intros [= <- <-]. rewrite nodes_Close.
    rewrite (Remove_created dst "" (Mode srcInfo) (nodes w0));
      [exact Hgrow | now rewrite nodes_Close | exact Hnone]. }
  destruct Hcopy as (pout & old & data & mode & Hpout & Hfds2 & Hnodes2).
  assert (pout = dst) by congruence. subst pout.
  rewrite Hnodes1, insert_insert_eq in Hnodes2.
  pose proof (Sync_world fout w2) as Hsync.
  destruct (Sync fout w2) as [[err |] w3]; cbn [snd] in Hsync; subst w3.
  { intros [= <- <-]. rewrite nodes_Close.
    rewrite (Remove_created dst (old +:+ data) mode (nodes w0));
      [exact Hgrow | now rewrite nodes_Close | exact Hnone]. }
  intros [= <- <-].
  assert (Hclose : fst (Close fout w2) = None).
  { unfold Close. destruct (fds w2 !! fout) eqn:E; [reflexivity |].
    rewrite Hfds2 in E. congruence. }
  rewrite Hclose. split; [exact Hdst |].
  exists (old +:+ data), mode, (nodes w0).
  split; [exact Hgrow |]. split; [exact Hnone |].
  now rewrite !nodes_Close.
Qed.

Lemma copies_roll_back (ops : list Operation) (w : World) :
  Forall isCopy ops ->
  forall done op err w1,
    runOperations os files ops w = (done, Some (op, err), w1) ->
    Forall (fun step => snd step = None) (fst (rollbackEach os (rev done) w1)) /\
    growsDirs (nodes w) (nodes (snd (rollbackEach os (rev done) w1))) /\
    Forall (fun o => nodes (snd (rollbackEach os (rev done) w1)) !! Destination o = None)
           done.
Proof.
  intros Hall. revert w.
  induction Hall as [| op0 rest Hop0 _ IH]; intros w done op err w1 Hrun;
    [discriminate |].
  destruct op0 as [src dst | ]; [| destruct Hop0].
  unfold files in *.
  cbn [runOperations Operation_Execute Files.service svcCopy] in Hrun.
  destruct (Files.Copy os src dst w) as [[e |] wa] eqn:Hcopy;
    apply Copy_nodes in Hcopy.
  - injection Hrun as <- <- <- <-. cbn.
    split; [constructor | split; [exact Hcopy | constructor]].
  - destruct (runOperations os (Files.service os) rest wa) as [[done' f] w1'] eqn:Hrest.
    injection Hrun as <- -> ->.
    destruct (IH wa done' op err w1 Hrest) as (Hnil & Hgrow & Habsent).
    destruct Hcopy as (Hdst & data & mode & m2 & Hg2 & Hm2 & Hwa).
    cbn [rev]. rewrite rollbackEach_snoc.
    set (w2' := snd (rollbackEach os (rev done') w1)) in *.
    assert (Hthere : lookup dst w2' = Some (RegularFile data mode)).
    { unfold lookup. destruct (Hgrow dst) as [-> | [Hn _]].
      - rewrite Hwa. apply lookup_insert_eq.
      - rewrite Hwa, lookup_insert_eq in Hn. discriminate. }
    cbn [Operation_Rollback os_Remove os fst snd].
    rewrite (Remove_regular _ _ _ _ Hthere). cbn [fst snd set_nodes nodes].
    split; [| split].
    + apply Forall_app. split; [exact Hnil | repeat constructor].
    + intros p. destruct (decide (p = dst)) as [-> | Hne].
      * left. rewrite lookup_delete_eq. now rewrite Hdst.
      * rewrite lookup_delete_ne by congruence.
        specialize (Hgrow p). specialize (Hg2 p).
        rewrite Hwa, lookup_insert_ne in Hgrow by congruence.
        destruct Hgrow as [-> | [Hn [md Hmd]]]; [exact Hg2 |].
        right. destruct Hg2 as [<- | [_ [md' Hmd']]]; [eauto | congruence].
    + constructor.
      * cbn. apply lookup_delete_eq.
      * eapply Forall_impl; [exact Habsent |]. cbn. intros o Ho.
        apply lookup_delete_None. now right.
Qed.

End MemFSFacts.


(** C1, amended.  For every operating system and collaborator: when
    every operation executes successfully, [Execute] returns nil and the
    completed operations are the planned ones, in insertion order; when
    an operation fails, [Execute] returns an execution-phase error for
    it, no operation is left completed, and the rollback of each
    operation that had succeeded has been run once, last first, on the
    world the failed attempt left; when each of these rollbacks returned
    nil the error carries the execution error alone, and otherwise it
    carries the rollback error as well.  On the in-memory system, a
    transaction of copies is all-or-nothing as the specification words
    it: when one of them fails, every rollback succeeds, no destination
    of a completed copy is left, and the world differs from the one
    before [Execute] by new directories at most. *)
Theorem execute_all_or_nothing_up_to_rollback :
  (forall (W : Type) (os : OS W) (fs : FilesService W)
          (ft : FileTransaction) (w : W),
     match runOperations os fs (operations ft) w with
     | (done, None, w1) =>
         Execute os fs ft w = (None, set_completed (operations ft) ft, w1) /\
         Completed (snd (fst (Execute os fs ft w))) = operations ft
     | (done, Some (op, err), w1) =>
         exists Err,
           Execute os fs ft w
           = (Some (TransactionError "execution" (Some op) Err),
              set_completed [] ft,
              snd (rollbackEach os (rev done) w1)) /\
           Completed (snd (fst (Execute os fs ft w))) = [] /\
           map fst (fst (rollbackEach os (rev done) w1)) = rev done /\
           (Forall (fun step => snd step = None)
                   (fst (rollbackEach os (rev done) w1)) -> Err = err) /\
           (forall rbErr,
              rollbackResult (fst (rollbackEach os (rev done) w1)) = Some rbErr ->
              Err = Errorf "execution failed: %v; rollback also failed: %v"
                      [OpV err; OpV rbErr])
     end) /\
  (forall (ft : FileTransaction) (w : MemFS.World),
     Forall isCopy (operations ft) ->
     allOrNothing ft w /\
     forall done op err w1,
       runOperations MemFS.os MemFS.files (operations ft) w
       = (done, Some (op, err), w1) ->
       fst (fst (Execute MemFS.os MemFS.files ft w))
       = Some (TransactionError "execution" (Some op) err) /\
       growsDirs (MemFS.nodes w)
                 (MemFS.nodes (snd (Execute MemFS.os MemFS.files ft w)))).
Proof.
  split.
  - intros W os fs ft w. rewrite Execute_run.
    pose proof (runOperations_prefix os fs (operations ft) w) as Hpre.
    destruct (runOperations os fs (operations ft) w) as [[done [[op err] |]] w1].
    + rewrite Rollback_each. cbn [fst snd completed set_completed].
      eexists. split; [reflexivity |].
      split; [reflexivity |].
      split; [apply rollbackEach_ops |].
      split.
      * intros H. apply rollbackResult_None in H. now rewrite H.
      * now intros rbErr ->.
    + subst done. split; reflexivity.
  - intros ft w Hall.
    pose proof (copies_roll_back (operations ft) w Hall) as Hback.
    split.
    + unfold allOrNothing. rewrite Execute_run.
      pose proof (runOperations_prefix MemFS.os MemFS.files (operations ft) w)
        as Hpre.
      destruct (runOperations MemFS.os MemFS.files (operations ft) w)
        as [[done [[op err] |]] w1].
      * destruct (Hback done op err w1 eq_refl) as (Hnil & Hgrow & Habsent).
        rewrite Rollback_each. cbn [fst snd completed set_completed].
        split; [discriminate |]. split; [| reflexivity].
        destruct Hpre as [rest Hops]. rewrite Hops in Hall.
        apply Forall_app in Hall as [Hdone _].
        rewrite Forall_forall in *. intros o Ho.
        specialize (Hdone o Ho). specialize (Habsent o Ho).
        destruct o; [exact Habsent | destruct Hdone].
      * subst done. split; reflexivity.
    + intros done op err w1 Hrun.
      destruct (Hback done op err w1 Hrun) as (Hnil & Hgrow & Habsent).
      rewrite Execute_run, Hrun, Rollback_each.
      cbn [fst snd completed set_completed].
      apply rollbackResult_None in Hnil. rewrite Hnil.
      split; [reflexivity | exact Hgrow].
Qed.

(** ** The properties on concrete runs *)

Lemma rollback_reverse_order_collects_all_witness :
  (snd (Rollback MemFS.os bothDone afterBoth)
   = snd (Operation_Rollback MemFS.os (CopyOperation "/t/a" "/t/d/b")
            (snd (Operation_Rollback MemFS.os (MoveOperation "/t/x" "/t/y")
                    afterBoth))) /\
   fst (fst (Rollback MemFS.os bothDone afterBoth)) = None /\
   MemFS.lookup "/t/x" (snd (Rollback MemFS.os bothDone afterBoth))
   = Some (MemFS.RegularFile "X" 420) /\
   MemFS.lookup "/t/d/b" (snd (Rollback MemFS.os bothDone afterBoth)) = None) /\
  (fst (Rollback MemFS.os copyAndMoveDone sourceTaken)
   = (Some (TransactionError "rollback" None
              (Errorf "rollback errors: %v"
                 [OpVs
                    [Errorf "failed to rollback %s %s->%s: %w"
                       [OpT OperationMove; OpS "/t/q"; OpS "/t/zz";
                        OpW (Errorf "failed to restore moved file %q to %q: %w"
                               [OpQ "/t/zz"; OpQ "/t/q";
                                OpW (LinkError "rename" "/t/zz" "/t/q"
                                       (SyscallErrno EEXIST))])]]])),
      set_completed [] copyAndMoveDone) /\
   MemFS.lookup "/t/c" (snd (Rollback MemFS.os copyAndMoveDone sourceTaken))
   = None).
Proof.
  split.
  - destruct (rollback_reverse_order_collects_all MemFS.os bothDone afterBoth)
      as (H1 & H2 & H3 & H4 & H5 & H6).
    split; [apply H6; vm_compute; reflexivity |].
    split; [apply H4; vm_compute; repeat constructor |].
    split; vm_compute; reflexivity.
  - destruct (rollback_reverse_order_collects_all MemFS.os copyAndMoveDone
                sourceTaken) as (H1 & H2 & H3 & H4 & H5 & H6).
    split; [| vm_compute; reflexivity].
    rewrite H1. vm_compute. reflexivity.
Defined.

Lemma execution_failure_reports_and_rolls_back_witness :
  ExecuteWithProgress MemFS.os MemFS.files Recorder thirdFails [] twoFiles
  = (Some (TransactionError "execution"
             (Some (CopyOperation "/t/missing" "/t/z"))
             (Errorf "source %q is not a regular file" [OpQ "/t/missing"])),
     set_completed [] thirdFails,
     [CallSetTotal 3; CallSetCurrent 0; CallSetMessage "copy /t/a";
      CallSetCurrent 1; CallSetMessage "move /t/x"; CallSetCurrent 2;
      CallSetMessage "copy /t/missing"],
     snd (ExecuteWithProgress MemFS.os MemFS.files Recorder thirdFails [] twoFiles))
  /\
  fst (ExecuteWithProgress MemFS.os MemFS.files Recorder
         sourceBecomesDirectory [] threeFiles)
  = (Some (TransactionError "execution"
             (Some (MoveOperation "/t/q" "/t/b/z"))
             (Errorf "execution failed: %v; rollback also failed: %v"
                [OpV (Errorf "creating directory %q: %w"
                        [OpQ "/t/b";
                         OpW (PathError "mkdir" "/t/b" (SyscallErrno ENOTDIR))]);
                 OpV (TransactionError "rollback" None
                        (Errorf "rollback errors: %v"
                           [OpVs
                              [Errorf "failed to rollback %s %s->%s: %w"
                                 [OpT OperationMove; OpS "/t/a"; OpS "/t/b";
                                  OpW (Errorf
                                         "failed to restore moved file %q to %q: %w"
                                         [OpQ "/t/b"; OpQ "/t/a";
                                          OpW (LinkError "rename" "/t/b" "/t/a"
                                                 (SyscallErrno EEXIST))])]]]))])),
     set_completed [] sourceBecomesDirectory,
     [CallSetTotal 3; CallSetCurrent 0; CallSetMessage "move /t/a";
      CallSetCurrent 1; CallSetMessage "move /t/x"; CallSetCurrent 2;
      CallSetMessage "move /t/q"]).
Proof.
  split.
  - destruct (execution_failure_reports_and_rolls_back MemFS.os MemFS.files
                Recorder thirdFails [] twoFiles
                [CopyOperation "/t/a" "/t/d/b"; MoveOperation "/t/x" "/t/y"]
                (CopyOperation "/t/missing" "/t/z")
                (Errorf "source %q is not a regular file" [OpQ "/t/missing"])
                (snd (runOperations MemFS.os MemFS.files (operations thirdFails)
                        twoFiles)))
      as (Err & calls & Hrun & Hclean & Hdirty & Hcalls & Hterm & Hrec).
    + vm_compute; reflexivity.
    + rewrite Hrec. cbn [snd]. rewrite Hclean by (vm_compute; reflexivity).
      rewrite Hcalls. vm_compute; reflexivity.
  - destruct (execution_failure_reports_and_rolls_back MemFS.os MemFS.files
                Recorder sourceBecomesDirectory [] threeFiles
                [MoveOperation "/t/a" "/t/b"; MoveOperation "/t/x" "/t/a/y"]
                (MoveOperation "/t/q" "/t/b/z")
                (Errorf "creating directory %q: %w"
                   [OpQ "/t/b";
                    OpW (PathError "mkdir" "/t/b" (SyscallErrno ENOTDIR))])
                (snd (runOperations MemFS.os MemFS.files
                        (operations sourceBecomesDirectory) threeFiles)))
      as (Err & calls & Hrun & Hclean & Hdirty & Hcalls & Hterm & Hrec).
    + vm_compute; reflexivity.
    + rewrite Hrec. cbn [fst].
      rewrite (Hdirty
                 (TransactionError "rollback" None
                    (Errorf "rollback errors: %v"
                       [OpVs
                          [Errorf "failed to rollback %s %s->%s: %w"
                             [OpT OperationMove; OpS "/t/a"; OpS "/t/b";
                              OpW (Errorf
                                     "failed to restore moved file %q to %q: %w"
                                     [OpQ "/t/b"; OpQ "/t/a";
                                      OpW (LinkError "rename" "/t/b" "/t/a"
                                             (SyscallErrno EEXIST))])]]])))
        by (vm_compute; reflexivity).
      rewrite Hcalls. vm_compute; reflexivity.
Defined.

Lemma successful_run_progress_calls_witness :
  snd (fst (ExecuteWithProgress MemFS.os MemFS.files Recorder bothSucceed []
              twoFiles))
  = [CallSetTotal 2; CallSetCurrent 0; CallSetMessage "copy /t/a";
     CallSetCurrent 1; CallSetMessage "move /t/x"; CallSetCurrent 2;
     CallFinish].
Proof.
  destruct (successful_run_progress_calls MemFS.os MemFS.files Recorder
              bothSucceed [] twoFiles)
    as (calls & Hnil & Hany & Hrec & Hcalls & Hcur & Hfin & Hlast & Hempty).
  - vm_compute; reflexivity.
  - rewrite Hrec, Hcalls. reflexivity.
Defined.


Lemma validate_overwrite_semantics_witness :
  (exists te,
     Validate MemFS.files
       {| operations := [CopyOperation "/t/a" "/t/x"]; completed := [];
          overwrite := false |} twoFiles
     = (Some te,
        {| operations := [CopyOperation "/t/a" "/t/x"]; completed := [];
           overwrite := false |}, twoFiles)
     /\ Phase_of te = Some "planning"%string) /\
  Validate MemFS.files
    {| operations := [CopyOperation "/t/a" "/t/x"]; completed := [];
       overwrite := true |} twoFiles
  = (None,
     {| operations := [CopyOperation "/t/a" "/t/x"]; completed := [];
        overwrite := true |}, twoFiles).
Proof.
  destruct (validate_overwrite_semantics MemFS.os
              [CopyOperation "/t/a" "/t/x"] [] twoFiles) as (Hno & Hyes).
  split.
  - apply Hno. constructor.
    exists {| IsDir := false; Mode := 420 |}. vm_compute; reflexivity.
  - apply Hyes. constructor; [| constructor].
    split; [discriminate |]. split; [discriminate |]. vm_compute; reflexivity.
Defined.


Lemma execute_all_or_nothing_up_to_rollback_witness :
  fst (Execute MemFS.os MemFS.files thirdFails twoFiles)
  = (Some (TransactionError "execution"
             (Some (CopyOperation "/t/missing" "/t/z"))
             (Errorf "source %q is not a regular file" [OpQ "/t/missing"])),
     set_completed [] thirdFails) /\
  Execute MemFS.os MemFS.files bothSucceed twoFiles
  = (None, set_completed (operations bothSucceed) bothSucceed, afterBoth) /\
  allOrNothing copiesSecondExists existingDestination.
Proof.
  destruct execute_all_or_nothing_up_to_rollback as [Hany Hcopies].
  pose proof (Hany MemFS.World MemFS.os MemFS.files thirdFails twoFiles) as Hfail.
  pose proof (Hany MemFS.World MemFS.os MemFS.files bothSucceed twoFiles) as Hok.
  replace (runOperations MemFS.os MemFS.files (operations thirdFails) twoFiles)
    with ([CopyOperation "/t/a" "/t/d/b"; MoveOperation "/t/x" "/t/y"],
          Some (CopyOperation "/t/missing" "/t/z",
                Errorf "source %q is not a regular file" [OpQ "/t/missing"]),
          snd (runOperations MemFS.os MemFS.files (operations thirdFails)
                 twoFiles)) in Hfail by (vm_compute; reflexivity).
  replace (runOperations MemFS.os MemFS.files (operations bothSucceed) twoFiles)
    with (operations bothSucceed, @None (Operation * error), afterBoth) in Hok
    by (vm_compute; reflexivity).
  cbv beta iota in Hfail, Hok.
  destruct Hfail as (Err & Heq & _ & _ & Hclean & _).
  destruct Hok as (Heq' & _).
  split; [| split; [exact Heq' |]].
  - rewrite Heq. cbn [fst].
    rewrite Hclean by (vm_compute; repeat constructor). reflexivity.
  - apply Hcopies. repeat constructor.
Defined.

(** * Further properties of the code *)

(** ** The progress state *)

Lemma wrap_fits (z : Z) : Go.minInt <= z <= Go.maxInt -> Go.wrap z = z.
Proof.
  unfold Go.wrap, Go.minInt, Go.maxInt, Go.intSize. intros H.
  rewrite Z.mod_small; lia.
Qed.

Lemma wrap_over (z : Z) : Go.maxInt < z <= 2 * Go.maxInt -> Go.wrap z < 0.
Proof.
  unfold Go.wrap, Go.minInt, Go.maxInt, Go.intSize. intros H.
  change (2 ^ (64 - 1)) with 9223372036854775808 in *.
  change (2 ^ 64) with 18446744073709551616 in *.
  replace (z + 9223372036854775808) with ((z - 9223372036854775808) + 1 * 18446744073709551616) by lia.
  rewrite Z.mod_add by lia. rewrite Z.mod_small; lia.
Qed.

(** X1. Increments add up in the value kept before clamping.  For a
    state whose unclamped value is not negative, and amounts [a] and [b]
    that are not negative and with it fit an [int]: [IncrementBy(a)]
    followed by [IncrementBy(b)] leaves the state that [IncrementBy(a + b)]
    leaves; the unclamped value grows by [a], also beyond the total; and
    [Current] is the total when the total is positive and below the new
    value, and the new value otherwise. *)
Theorem increments_accumulate (a b : Z) (p : ProgressState.t)
    (Ha : 0 <= a) (Hb : 0 <= b) (Hp : 0 <= ProgressState.actualCurrent p)
    (Hfit : ProgressState.actualCurrent p + a + b <= Go.maxInt) :
  ProgressState.IncrementBy b (ProgressState.IncrementBy a p)
  = ProgressState.IncrementBy (a + b) p /\
  ProgressState.actualCurrent (ProgressState.IncrementBy a p)
  = ProgressState.actualCurrent p + a /\
  ProgressState.Current (ProgressState.IncrementBy a p)
  = if (0 <? ProgressState.total p)
       && (ProgressState.total p <? ProgressState.actualCurrent p + a)
    then ProgressState.total p
    else ProgressState.actualCurrent p + a.
Proof.
  assert (Hmin : Go.minInt <= 0) by (vm_compute; discriminate).
  destruct p as [cur tot act msg wr]. cbn [ProgressState.actualCurrent] in *.
  unfold ProgressState.IncrementBy, ProgressState.Current, Go.add.
  cbn [ProgressState.actualCurrent].
  destruct (a <? 0) eqn:Ea; [lia |].
  destruct (b <? 0) eqn:Eb; [lia |].
  destruct (a + b <? 0) eqn:Eab; [lia |].
  rewrite (wrap_fits (act + a)) by lia.
  rewrite (wrap_fits (act + (a + b))) by lia.
  unfold ProgressState.SetCurrent.
  cbn [ProgressState.actualCurrent ProgressState.total ProgressState.current
       ProgressState.message ProgressState.writer].
  destruct (act + a <? 0) eqn:E1; [lia |].
  rewrite (wrap_fits (act + a + b)) by lia.
  replace (act + a + b) with (act + (a + b)) by lia.
  split; [reflexivity | split; [reflexivity |]].
  rewrite andb_comm. reflexivity.
Qed.

(** X2. An increment that overflows [int] starts the count again: when
    the unclamped value and the amount are not negative and their sum is
    above the largest [int], the sum wraps to a negative number, which
    [SetCurrent] replaces by 0; [Current] is 0 afterwards and the state is
    not complete, whatever it was before. *)
Theorem increment_overflow_resets (a : Z) (p : ProgressState.t)
    (Hp : 0 <= ProgressState.actualCurrent p <= Go.maxInt)
    (Ha : 0 <= a <= Go.maxInt)
    (Hover : Go.maxInt < ProgressState.actualCurrent p + a) :
  ProgressState.Current (ProgressState.IncrementBy a p) = 0 /\
  ProgressState.actualCurrent (ProgressState.IncrementBy a p) = 0 /\
  ProgressState.IsComplete (ProgressState.IncrementBy a p) = false.
Proof.
  pose proof (wrap_over (ProgressState.actualCurrent p + a)) as Hw.
  unfold ProgressState.IncrementBy, ProgressState.Current,
    ProgressState.IsComplete, Go.add.
  destruct (a <? 0) eqn:Ea; [lia |].
  unfold ProgressState.SetCurrent.
  cbn [ProgressState.actualCurrent ProgressState.total ProgressState.current].
  destruct (Go.wrap (ProgressState.actualCurrent p + a) <? 0) eqn:E; [| lia].
  destruct (0 <? ProgressState.total p) eqn:Et; rewrite ?andb_false_r, ?andb_true_r.
  - destruct (ProgressState.total p <? 0) eqn:E2; [lia |].
    repeat split. cbn. lia.
  - repeat split.
Qed.

Lemma increment_overflow_resets_witness :
  ProgressState.Current
    (ProgressState.IncrementBy 1
       (ProgressState.SetCurrent Go.maxInt
          (ProgressState.SetTotal 10 (ProgressState.NewProgressState [])))) = 0.
Proof.
  apply (increment_overflow_resets 1
           (ProgressState.SetCurrent Go.maxInt
              (ProgressState.SetTotal 10 (ProgressState.NewProgressState []))));
    vm_compute; (split; discriminate) || reflexivity.
Defined.

(** X3. [IsComplete] after the operations that can change it.  After
    [SetCurrent(c)] the state is complete exactly when the total is
    positive and [c] has reached it; after [SetTotal(n)] exactly when [n]
    is positive and the current value has reached it (so raising the total
    takes completion back, and a total of 0 is never complete); and a
    complete state whose current value is not above the value before
    clamping stays complete under [IncrementBy], as long as the sum fits
    an [int]. *)
Theorem completion_follows_the_total (p : ProgressState.t) :
  (forall c,
     ProgressState.IsComplete (ProgressState.SetCurrent c p)
     = (0 <? ProgressState.total p) && (ProgressState.total p <=? c)) /\
  (forall n,
     ProgressState.IsComplete (ProgressState.SetTotal n p)
     = (0 <? n) && (n <=? ProgressState.current p)) /\
  (forall a,
     ProgressState.IsComplete p = true ->
     ProgressState.current p <= ProgressState.actualCurrent p ->
     ProgressState.actualCurrent p + a <= Go.maxInt ->
     ProgressState.IsComplete (ProgressState.IncrementBy a p) = true).
Proof.
  assert (Hmin : Go.minInt <= 0) by (vm_compute; discriminate).
  destruct p as [cur tot act msg wr].
  unfold ProgressState.IsComplete, ProgressState.SetCurrent, ProgressState.SetTotal,
    ProgressState.IncrementBy, Go.add.
  cbn [ProgressState.actualCurrent ProgressState.total ProgressState.current].
  split; [| split].
  - intros c.
    destruct (c <? 0) eqn:E1; destruct (0 <? tot) eqn:E2;
      rewrite ?andb_true_r, ?andb_false_r; cbn [andb]; try reflexivity.
    + destruct (tot <? 0) eqn:E3; lia.
    + destruct (tot <? c) eqn:E3; lia.
  - intros n. destruct (n <? 0) eqn:E1; [| reflexivity].
    destruct (0 <? n) eqn:E2; [lia | reflexivity].
  - intros a Hc Hca Hfit. apply andb_prop in Hc as [Ht Hc].
    destruct (a <? 0) eqn:Ea.
    + cbn. rewrite Ht. exact Hc.
    + rewrite wrap_fits by lia.
      cbn [ProgressState.actualCurrent ProgressState.total ProgressState.current].
      unfold ProgressState.SetCurrent.
      cbn [ProgressState.actualCurrent ProgressState.total ProgressState.current].
      rewrite Ht.
      destruct (act + a <? 0) eqn:E1; [lia |].
      rewrite andb_true_r. destruct (tot <? act + a) eqn:E3; cbn [andb]; lia.
Qed.

Lemma completion_follows_the_total_witness :
  ProgressState.IsComplete
    (ProgressState.IncrementBy 5
       (ProgressState.SetCurrent 12
          (ProgressState.SetTotal 10 (ProgressState.NewProgressState [])))) = true.
Proof.
  destruct (completion_follows_the_total
              (ProgressState.SetCurrent 12
                 (ProgressState.SetTotal 10 (ProgressState.NewProgressState []))))
    as (_ & _ & H).
  apply H; vm_compute; (reflexivity || discriminate).
Defined.

(** ** The progress bar *)

Section BarOutput.
Import ProgressBar.

Lemma Render_live (pb : t) :
  finished pb = false -> errored pb = false ->
  String.eqb (Render pb) "" = false.
Proof. unfold Render. intros -> ->. reflexivity. Qed.

Lemma Display_live (pb : t) :
  finished pb = false -> errored pb = false ->
  output (Display pb) = output pb ++ [(Go.CR +:+ Render pb)%string].
Proof.
  intros Hf He. unfold Display. rewrite (Render_live pb Hf He), Hf, He. reflexivity.
Qed.

Lemma Update_with_state (f : ProgressState.t -> ProgressState.t) (pb : t) :
  finished pb = false -> errored pb = false ->
  ProgressState.writer (f (state pb)) = ProgressState.writer (state pb) ->
  output (Update (with_state f pb))
  = output pb ++ [(Go.CR +:+ Render (with_state f pb))%string].
Proof.
  intros Hf He Hw. unfold Update. rewrite Display_live by assumption.
  unfold output at 1. cbn [with_state state]. now rewrite Hw.
Qed.

Lemma stateCall_writer (c : ReporterCall) (p : ProgressState.t) :
  ProgressState.writer (stateCall c p) = ProgressState.writer p.
Proof.
  destruct c; cbn [stateCall]; try reflexivity;
    unfold ProgressState.Increment, ProgressState.IncrementBy;
    repeat case_match; reflexivity.
Qed.

Lemma applyCall_live (c : ReporterCall) (pb : t) :
  finished pb = false -> errored pb = false ->
  exists line,
    output (applyCall ProgressBarReporter pb c)
    = output pb ++ [(Go.CR +:+ line)%string].
Proof.
  intros Hf He.
  destruct c; cbn [applyCall ProgressBarReporter rSetTotal rIncrement rIncrementBy
                   rSetCurrent rSetMessage rFinish rSetError];
    unfold SetTotal, Increment, IncrementBy, SetCurrent, SetMessage, Finish,
      SetError; rewrite ?Hf, ?He; cbn [orb].
  - eexists. apply Update_with_state; try assumption.
    apply (stateCall_writer (CallSetTotal n)).
  - eexists. apply Update_with_state; try assumption.
    apply (stateCall_writer CallIncrement).
  - eexists. apply Update_with_state; try assumption.
    apply (stateCall_writer (CallIncrementBy n)).
  - eexists. apply Update_with_state; try assumption.
    apply (stateCall_writer (CallSetCurrent n)).
  - eexists. apply Update_with_state; try assumption.
    apply (stateCall_writer (CallSetMessage m)).
  - eexists. reflexivity.
  - eexists. reflexivity.
Qed.

Lemma CR_prefix (line : string) : String.prefix Go.CR (Go.CR +:+ line) = true.
Proof.
  unfold Go.CR, Go.byte. generalize (ascii_of_N (Z.to_N (13 mod 256))).
  intros c. simpl. destruct (ascii_dec c c) as [_ | H]; [| now destruct H].
  now destruct line.
Qed.

Lemma applyCall_appends (c : ReporterCall) (pb : t) :
  exists written,
    output (applyCall ProgressBarReporter pb c) = output pb ++ written /\
    (length written <= 1)%nat /\
    Forall (fun s => String.prefix Go.CR s = true) written.
Proof.
  destruct (finished pb) eqn:Hf.
  - exists []. rewrite app_nil_r. split; [| split; [simpl; lia | constructor]].
    destruct c; cbn [applyCall ProgressBarReporter rSetTotal rIncrement rIncrementBy
                   rSetCurrent rSetMessage rFinish rSetError];
    unfold SetTotal, Increment, IncrementBy, SetCurrent, SetMessage, Finish,
      SetError; rewrite ?Hf, ?orb_true_r; reflexivity.
  - destruct (errored pb) eqn:He.
    + destruct c; cbn [applyCall ProgressBarReporter rSetTotal rIncrement rIncrementBy
                   rSetCurrent rSetMessage rFinish rSetError];
      unfold SetTotal, Increment, IncrementBy, SetCurrent, SetMessage, Finish,
        SetError; rewrite ?Hf, ?He; cbn [orb].
      1-5: exists []; rewrite app_nil_r; split; [reflexivity | split; [simpl; lia | constructor]].
      all: eexists [_]; split; [reflexivity | split; [simpl; lia |]];
        constructor; [apply CR_prefix | constructor].
    + destruct (applyCall_live c pb Hf He) as [line Hline].
      exists [(Go.CR +:+ line)%string].
      split; [exact Hline | split; [simpl; lia |]].
      constructor; [apply CR_prefix | constructor].
Qed.

End BarOutput.

(** X4. The progress bar only ever appends to its writer.  On a bar that
    is neither finished nor errored every call of the reporter interface
    writes exactly one text, which starts with a carriage return - also
    [IncrementBy] with a negative amount, which changes no counter.  On
    any bar a sequence of calls leaves what was written before in place
    and adds at most one text per call, each starting with a carriage
    return. *)
Theorem bar_output_append_only :
  (forall c pb,
     ProgressBar.finished pb = false -> ProgressBar.errored pb = false ->
     exists line,
       ProgressBar.output (applyCall ProgressBarReporter pb c)
       = ProgressBar.output pb ++ [(Go.CR +:+ line)%string]) /\
  (forall calls pb,
     exists written,
       ProgressBar.output (applyCalls ProgressBarReporter calls pb)
       = ProgressBar.output pb ++ written /\
       (length written <= length calls)%nat /\
       Forall (fun s => String.prefix Go.CR s = true) written).
Proof.
  split; [exact applyCall_live |].
  induction calls as [| c rest IH]; intros pb.
  - exists []. rewrite app_nil_r. repeat split; [simpl; lia | constructor].
  - destruct (applyCall_appends c pb) as (w1 & H1 & L1 & P1).
    destruct (IH (applyCall ProgressBarReporter pb c)) as (w2 & H2 & L2 & P2).
    exists (w1 ++ w2). unfold applyCalls in *. cbn [fold_left].
    rewrite H2, H1, <- app_assoc. split; [reflexivity |].
    split; [rewrite length_app; simpl; lia | now apply Forall_app].
Qed.

Lemma bar_output_append_only_witness :
  exists line,
    ProgressBar.output
      (applyCall ProgressBarReporter (ProgressBar.NewProgressBar [] 10)
         (CallIncrementBy (-1)))
    = ProgressBar.output (ProgressBar.NewProgressBar [] 10)
      ++ [(Go.CR +:+ line)%string].
Proof.
  destruct bar_output_append_only as [H _].
  apply (H (CallIncrementBy (-1)) (ProgressBar.NewProgressBar [] 10)); reflexivity.
Defined.

Section BarInvariant.
Import ProgressBar.

Lemma stateCall_tracks (c : ReporterCall) (p : ProgressState.t) :
  0 <= ProgressState.current p <= ProgressState.actualCurrent p ->
  0 <= ProgressState.total p ->
  0 <= ProgressState.current (stateCall c p)
    <= ProgressState.actualCurrent (stateCall c p) /\
  0 <= ProgressState.total (stateCall c p).
Proof.
  intros Hc Ht.
  assert (HS : forall n,
    0 <= ProgressState.current (ProgressState.SetCurrent n p)
      <= ProgressState.actualCurrent (ProgressState.SetCurrent n p) /\
    0 <= ProgressState.total (ProgressState.SetCurrent n p)).
  { intros n. unfold ProgressState.SetCurrent. cbn.
    destruct (n <? 0) eqn:E1.
    - destruct ((ProgressState.total p <? 0) && (0 <? ProgressState.total p)) eqn:E2; lia.
    - destruct ((ProgressState.total p <? n) && (0 <? ProgressState.total p)) eqn:E2;
        [apply andb_prop in E2 as [E2 E3] |]; lia. }
  destruct c; cbn [stateCall]; try (split; assumption); try apply HS.
  - unfold ProgressState.SetTotal. cbn. destruct (n <? 0) eqn:E; lia.
  - unfold ProgressState.IncrementBy.
    destruct (n <? 0); [split; assumption | apply HS].
Qed.

Lemma Display_fields (pb : t) :
  width (Display pb) = width pb /\ finished (Display pb) = finished pb /\
  errored (Display pb) = errored pb /\
  ProgressState.current (state (Display pb)) = ProgressState.current (state pb) /\
  ProgressState.actualCurrent (state (Display pb))
  = ProgressState.actualCurrent (state pb) /\
  ProgressState.total (state (Display pb)) = ProgressState.total (state pb).
Proof.
  unfold Display. destruct (finished pb || errored pb); [repeat split |].
  destruct (negb _); repeat split.
Qed.

Lemma Display_invariant (pb : t) : barInvariant pb -> barInvariant (Display pb).
Proof.
  unfold barInvariant.
  destruct (Display_fields pb) as (-> & -> & -> & -> & -> & ->). tauto.
Qed.

Lemma with_state_invariant (c : ReporterCall) (pb : t) :
  barInvariant pb -> barInvariant (with_state (stateCall c) pb).
Proof.
  unfold barInvariant. cbn [with_state width finished errored state].
  intros (Hw & Hf & Hc & Ht).
  destruct (stateCall_tracks c (state pb) Hc Ht). tauto.
Qed.

Lemma applyCall_invariant (c : ReporterCall) (pb : t) :
  barInvariant pb -> barInvariant (applyCall ProgressBarReporter pb c).
Proof.
  intros H.
  destruct c; cbn [applyCall ProgressBarReporter rSetTotal rIncrement rIncrementBy
                   rSetCurrent rSetMessage rFinish rSetError].
  - unfold SetTotal. destruct (_ || _); [exact H |].
    apply Display_invariant, (with_state_invariant (CallSetTotal n)), H.
  - unfold Increment. destruct (_ || _); [exact H |].
    apply Display_invariant, (with_state_invariant CallIncrement), H.
  - unfold IncrementBy. destruct (_ || _); [exact H |].
    apply Display_invariant, (with_state_invariant (CallIncrementBy n)), H.
  - unfold SetCurrent. destruct (_ || _); [exact H |].
    apply Display_invariant, (with_state_invariant (CallSetCurrent n)), H.
  - unfold SetMessage. destruct (_ || _); [exact H |].
    apply Display_invariant, (with_state_invariant (CallSetMessage m)), H.
  - unfold Finish. destruct (finished pb) eqn:E; [exact H |].
    destruct H as (Hw & Hf & Hc & Ht). unfold barInvariant; cbn.
    rewrite implb_true_r. tauto.
  - unfold SetError. destruct (finished pb) eqn:E; [exact H |].
    destruct H as (Hw & Hf & Hc & Ht). unfold barInvariant; cbn. tauto.
Qed.

Lemma callMethod_invariant (m : BarMethod) (pb : t) :
  barInvariant pb -> barInvariant (callMethod pb m).
Proof.
  intros H. destruct m; cbn [callMethod]; try exact H.
  - unfold SetWidth. destruct (0 <? w) eqn:E; [| exact H].
    destruct H as (Hw & Hf & Hc & Ht). unfold barInvariant; cbn.
    repeat split; try tauto; lia.
  - now apply Display_invariant.
  - now apply Display_invariant.
  - now apply applyCall_invariant.
Qed.

End BarInvariant.

(** X5. What holds of every progress bar made by [NewProgressBar],
    whatever width was asked for and whatever methods were called on it
    since: the width is positive; an errored bar is finished; the current
    value is between 0 and the value before clamping; the total is not
    negative; and the number of filled cells of the drawing is at most the
    width. *)
Theorem bar_invariants (w : list string) (n : Z) (ms : list BarMethod) :
  barInvariant (callMethods ms (ProgressBar.NewProgressBar w n)) /\
  ProgressBar.filledWidth (callMethods ms (ProgressBar.NewProgressBar w n))
  <= ProgressBar.width (callMethods ms (ProgressBar.NewProgressBar w n)).
Proof.
  split.
  - assert (H0 : barInvariant (ProgressBar.NewProgressBar w n)).
    { unfold barInvariant, ProgressBar.NewProgressBar; cbn.
      destruct (n <=? 0) eqn:E; repeat split; lia. }
    revert H0. generalize (ProgressBar.NewProgressBar w n).
    unfold callMethods. induction ms as [| m rest IH]; intros pb H; [exact H |].
    cbn [fold_left]. apply IH, callMethod_invariant, H.
  - generalize (callMethods ms (ProgressBar.NewProgressBar w n)). intros pb.
    unfold ProgressBar.filledWidth.
    destruct (ProgressBar.width pb <? _) eqn:E; lia.
Qed.

(** ** The progress bar as the reporter of a run *)

Section BarRun.
Import ProgressBar.


Lemma Display_shows (pb : t) (cur tot : Z) (n : nat) :
  shows pb cur tot n -> shows (Display pb) cur tot (S n).
Proof.
  intros (Hf & He & Hc & Ht & Hn). unfold shows.
  destruct (Display_fields pb) as (_ & -> & -> & -> & _ & ->).
  rewrite (Display_live pb Hf He), length_app. cbn. repeat split; try assumption. lia.
Qed.

Lemma SetMessage_shows (m : string) (pb : t) (cur tot : Z) (n : nat) :
  shows pb cur tot n ->
  shows (SetMessage m pb) cur tot (S n) /\
  ProgressState.message (state (SetMessage m pb)) = m.
Proof.
  intros H. pose proof H as (Hf & He & Hc & Ht & Hn).
  unfold SetMessage, Update. rewrite Hf, He. cbn [orb]. split.
  - apply Display_shows. unfold shows. cbn. tauto.
  - unfold Display. cbn [with_state finished errored]. rewrite Hf, He. cbn [orb].
    destruct (negb _); reflexivity.
Qed.

Lemma SetCurrent_shows (c : Z) (pb : t) (cur tot : Z) (n : nat) :
  shows pb cur tot n -> 0 <= c <= tot ->
  shows (SetCurrent c pb) c tot (S n).
Proof.
  intros (Hf & He & Hc & Ht & Hn) Hb.
  unfold SetCurrent, Update. rewrite Hf, He. cbn [orb].
  apply Display_shows. unfold shows. cbn. rewrite Ht.
  repeat split; try assumption.
  destruct (c <? 0) eqn:E1; [lia |].
  destruct (tot <? c) eqn:E2; [lia | reflexivity].
Qed.

Lemma SetTotal_shows (t0 : Z) (pb : t) (cur tot : Z) (n : nat) :
  shows pb cur tot n -> 0 <= t0 ->
  shows (SetTotal t0 pb) cur t0 (S n).
Proof.
  intros (Hf & He & Hc & Ht & Hn) Hb.
  unfold SetTotal, Update. rewrite Hf, He. cbn [orb].
  apply Display_shows. unfold shows. cbn.
  repeat split; try assumption.
  destruct (t0 <? 0) eqn:E1; [lia | reflexivity].
Qed.

Lemma SetCurrent_zero_shows (pb : t) (cur tot : Z) (n : nat) :
  shows pb cur tot n -> shows (SetCurrent 0 pb) 0 tot (S n).
Proof.
  intros (Hf & He & Hc & Ht & Hn).
  unfold SetCurrent, Update. rewrite Hf, He. cbn [orb].
  apply Display_shows. unfold shows. cbn. rewrite Ht.
  repeat split; try assumption.
  destruct (tot <? 0) eqn:E2; [| reflexivity].
  destruct (0 <? tot) eqn:E3; [lia | reflexivity].
Qed.

Lemma progressCalls_shows (done : list Operation) (k : nat) (pb : t) (tot : Z)
    (n : nat) :
  shows pb (Z.of_nat k) tot n ->
  Z.of_nat (k + length done) <= tot ->
  shows (applyCalls ProgressBarReporter (progressCalls done (Z.of_nat k)) pb)
        (Z.of_nat (k + length done)) tot (n + 2 * length done).
Proof.
  revert k pb n. induction done as [| op rest IH]; intros k pb n H Hb.
  - cbn. replace (k + 0)%nat with k by lia. replace (n + 0)%nat with n by lia.
    exact H.
  - cbn [progressCalls applyCalls fold_left applyCall ProgressBarReporter
         rSetMessage rSetCurrent].
    cbn [length] in *.
    apply (SetMessage_shows
             (OperationType_String (Type_ op) +:+ " " +:+ Source op)) in H
      as [H _].
    apply (SetCurrent_shows (Z.of_nat k + 1)) in H; [| lia].
    replace (Z.of_nat k + 1) with (Z.of_nat (S k)) in * by lia.
    specialize (IH (S k) _ _ H).
    replace (S k + length rest)%nat with (k + S (length rest))%nat in IH by lia.
    replace (S (S n) + 2 * length rest)%nat
      with (n + 2 * S (length rest))%nat in IH by lia.
    apply IH. lia.
Qed.

Lemma run_start_shows (N : nat) (done : list Operation) (pb : t) :
  finished pb = false -> errored pb = false ->
  (length done <= N)%nat ->
  shows (applyCalls ProgressBarReporter
           (CallSetTotal (Z.of_nat N) :: CallSetCurrent 0 :: progressCalls done 0) pb)
        (Z.of_nat (length done)) (Z.of_nat N)
        (length (output pb) + 2 + 2 * length done).
Proof.
  intros Hf He Hle.
  assert (H0 : shows pb (ProgressState.current (state pb))
                 (ProgressState.total (state pb)) (length (output pb)))
    by (unfold shows; tauto).
  apply (SetTotal_shows (Z.of_nat N)) in H0; [| lia].
  apply SetCurrent_zero_shows in H0.
  cbn [applyCalls fold_left applyCall ProgressBarReporter rSetTotal rSetCurrent].
  change 0 with (Z.of_nat 0) in H0 |- * at 1.
  pose proof (progressCalls_shows done 0 _ _ _ H0) as H.
  cbn [Nat.add] in H.
  replace (length (output pb) + 2 + 2 * length done)%nat
    with (S (S (length (output pb) + 2 * length done))) by lia.
  apply H. lia.
Qed.

End BarRun.

Lemma Finish_shows (pb : ProgressBar.t) (cur tot : Z) (n : nat) :
  shows pb cur tot n ->
  ProgressBar.finished (ProgressBar.Finish pb) = true /\
  ProgressBar.errored (ProgressBar.Finish pb) = false /\
  ProgressState.current (ProgressBar.state (ProgressBar.Finish pb)) = cur /\
  ProgressState.total (ProgressBar.state (ProgressBar.Finish pb)) = tot /\
  length (ProgressBar.output (ProgressBar.Finish pb)) = S n.
Proof.
  intros (Hf & He & Hc & Ht & Hn). unfold ProgressBar.Finish. rewrite Hf.
  unfold ProgressBar.output. cbn. rewrite length_app. cbn.
  unfold ProgressBar.output in Hn. repeat split; try assumption. lia.
Qed.

(** X6. [ExecuteWithProgress] with a progress bar as reporter, when
    every one of the [N] operations succeeds: whatever the bar showed
    before (as long as it was neither finished nor errored), it ends
    finished and not errored, showing [N] of [N]; it is complete exactly
    when [N] is not 0; and it has written [2 N + 3] texts. *)
Theorem successful_run_completes_bar {W : Type} (os : OS W) (fs : FilesService W)
    (ft : FileTransaction) (pb : ProgressBar.t) (w : W)
    (Hf : ProgressBar.finished pb = false) (He : ProgressBar.errored pb = false)
    (Hok : snd (fst (runOperations os fs (operations ft) w)) = None) :
  match ExecuteWithProgress os fs ProgressBarReporter ft pb w with
  | (_, _, pb', _) =>
      ProgressBar.finished pb' = true /\ ProgressBar.IsErrored pb' = false /\
      ProgressBar.Current pb' = Z.of_nat (length (operations ft)) /\
      ProgressBar.Total pb' = Z.of_nat (length (operations ft)) /\
      ProgressBar.IsComplete pb' = negb (Nat.eqb (length (operations ft)) 0) /\
      length (ProgressBar.output pb')
      = (length (ProgressBar.output pb) + 2 * length (operations ft) + 3)%nat
  end.
Proof.
  rewrite ExecuteWithProgress_run.
  pose proof (runOperations_done os fs (operations ft) w Hok) as Hdone.
  destruct (runOperations os fs (operations ft) w) as [[done f] w1].
  cbn [fst snd] in *. subst f done.
  rewrite 2 app_comm_cons, applyCalls_app.
  pose proof (run_start_shows (length (operations ft)) (operations ft) pb Hf He
                (Nat.le_refl _)) as H.
  apply Finish_shows in H as (H1 & H2 & H3 & H4 & H5).
  set (pb1 := applyCalls ProgressBarReporter _ pb) in *.
  change (applyCalls ProgressBarReporter [CallFinish] pb1)
    with (ProgressBar.Finish pb1).
  unfold ProgressBar.IsErrored, ProgressBar.Current, ProgressBar.Total,
    ProgressBar.IsComplete, ProgressState.Current, ProgressState.Total,
    ProgressState.IsComplete.
  rewrite H1, H2, H3, H4, H5.
  repeat split; [| lia].
  destruct (length (operations ft)) as [| k]; [reflexivity |].
  cbn [Nat.eqb negb]. rewrite Z.leb_refl, andb_true_r. apply Z.ltb_lt. lia.
Qed.

(** X7. [ExecuteWithProgress] with a progress bar as reporter, when an
    operation fails after [k] operations succeeded: the bar is left
    neither finished nor errored, showing [k] of the [N] planned
    operations with the message of the failing one, not complete, after
    [2 k + 3] writes.  Marking the failure on the bar is left to the
    caller. *)
Theorem failed_run_leaves_bar_unfinished {W : Type} (os : OS W)
    (fs : FilesService W) (ft : FileTransaction) (pb : ProgressBar.t) (w : W)
    (done : list Operation) (op : Operation) (err : error) (w1 : W)
    (Hf : ProgressBar.finished pb = false) (He : ProgressBar.errored pb = false)
    (Hfail : runOperations os fs (operations ft) w = (done, Some (op, err), w1)) :
  match ExecuteWithProgress os fs ProgressBarReporter ft pb w with
  | (_, _, pb', _) =>
      ProgressBar.finished pb' = false /\ ProgressBar.IsErrored pb' = false /\
      ProgressBar.Current pb' = Z.of_nat (length done) /\
      ProgressBar.Total pb' = Z.of_nat (length (operations ft)) /\
      ProgressBar.IsComplete pb' = false /\
      ProgressState.Message (ProgressBar.state pb') = progressMessage op /\
      length (ProgressBar.output pb')
      = (length (ProgressBar.output pb) + 2 * length done + 3)%nat
  end.
Proof.
  rewrite ExecuteWithProgress_run.
  pose proof (runOperations_prefix os fs (operations ft) w) as Hpre.
  rewrite Hfail in *. destruct Hpre as [rest Hops].
  assert (Hlt : (length done < length (operations ft))%nat).
  { rewrite Hops, length_app. cbn. lia. }
  rewrite 2 app_comm_cons, applyCalls_app.
  pose proof (run_start_shows (length (operations ft)) done pb Hf He
                ltac:(lia)) as H.
  apply (SetMessage_shows (progressMessage op)) in H as [(H1 & H2 & H3 & H4 & H5) H6].
  set (pb1 := applyCalls ProgressBarReporter _ pb) in *.
  change (applyCalls ProgressBarReporter [CallSetMessage (progressMessage op)] pb1)
    with (ProgressBar.SetMessage (progressMessage op) pb1).
  unfold ProgressBar.IsErrored, ProgressBar.Current, ProgressBar.Total,
    ProgressBar.IsComplete, ProgressState.Current, ProgressState.Total,
    ProgressState.IsComplete, ProgressState.Message.
  rewrite H1, H2, H3, H4, H5, H6.
  repeat split; [| lia].
  apply andb_false_iff. right. apply Z.leb_gt. lia.
Qed.

Lemma successful_run_completes_bar_witness :
  match ExecuteWithProgress MemFS.os MemFS.files ProgressBarReporter bothSucceed
          (ProgressBar.NewSimpleProgressBar []) twoFiles with
  | (_, _, pb', _) =>
      ProgressBar.finished pb' = true /\ ProgressBar.IsErrored pb' = false /\
      ProgressBar.Current pb' = Z.of_nat (length (operations bothSucceed)) /\
      ProgressBar.Total pb' = Z.of_nat (length (operations bothSucceed)) /\
      ProgressBar.IsComplete pb' = negb (Nat.eqb (length (operations bothSucceed)) 0) /\
      length (ProgressBar.output pb')
      = (length (ProgressBar.output (ProgressBar.NewSimpleProgressBar []))
         + 2 * length (operations bothSucceed) + 3)%nat
  end.
Proof.
  apply successful_run_completes_bar; vm_compute; reflexivity.
Defined.

Lemma failed_run_leaves_bar_unfinished_witness :
  match ExecuteWithProgress MemFS.os MemFS.files ProgressBarReporter thirdFails
          (ProgressBar.NewSimpleProgressBar []) twoFiles with
  | (_, _, pb', _) =>
      ProgressBar.finished pb' = false /\ ProgressBar.IsErrored pb' = false /\
      ProgressBar.Current pb' = 2 /\ ProgressBar.Total pb' = 3 /\
      ProgressBar.IsComplete pb' = false /\
      ProgressState.Message (ProgressBar.state pb') = "copy /t/missing"%string /\
      length (ProgressBar.output pb') = 7%nat
  end.
Proof.
  destruct (runOperations MemFS.os MemFS.files (operations thirdFails) twoFiles)
    as [[done [[op err] |]] w1] eqn:Hrun; [| vm_compute in Hrun; discriminate].
  pose proof (failed_run_leaves_bar_unfinished MemFS.os MemFS.files thirdFails
                (ProgressBar.NewSimpleProgressBar []) twoFiles done op err w1
                eq_refl eq_refl Hrun) as H.
  vm_compute in Hrun. injection Hrun as <- <- <- <-.
  exact H.
Defined.

(** ** The transaction engine, for every operating system and collaborator *)

Section EngineRuns.
Context {W : Type} (os : OS W) (fs : FilesService W).

(** X8. The reporter plays no part in what [ExecuteWithProgress] does and
    returns: for every reporter and every state of it, the error, the
    transaction and the world are those of [Execute]. *)
Theorem reporter_does_not_change_outcome {R : Type} (rep : ProgressReporter R)
    (ft : FileTransaction) (r : R) (w : W) :
  (fst (fst (fst (ExecuteWithProgress os fs rep ft r w))),
   snd (fst (fst (ExecuteWithProgress os fs rep ft r w))),
   snd (ExecuteWithProgress os fs rep ft r w))
  = Execute os fs ft w.
Proof.
  rewrite ExecuteWithProgress_run, Execute_run.
  destruct (runOperations os fs (operations ft) w) as [[done [[op e] |]] w1];
    reflexivity.
Qed.

Lemma Rollback_nothing (ft : FileTransaction) (w : W) :
  completed ft = [] -> Rollback os ft w = (None, ft, w).
Proof.
  intros H. unfold Rollback. rewrite H. cbn. destruct ft; cbn in *. now subst.
Qed.

(** X9. [Rollback] with no completed operation returns nil and leaves
    the transaction and the world as they are.  So a second [Rollback]
    does nothing, in whatever world it is made, and neither does a
    [Rollback] after an [Execute] that failed (which has rolled back
    already). *)
Theorem rollback_with_nothing_completed (ft : FileTransaction) (w w' : W) :
  (completed ft = [] -> Rollback os ft w' = (None, ft, w')) /\
  Rollback os (snd (fst (Rollback os ft w))) w'
  = (None, snd (fst (Rollback os ft w)), w') /\
  (fst (fst (Execute os fs ft w)) <> None ->
   Rollback os (snd (fst (Execute os fs ft w))) w'
   = (None, snd (fst (Execute os fs ft w)), w')).
Proof.
  split; [apply Rollback_nothing |]. split.
  - apply Rollback_nothing. rewrite Rollback_each. reflexivity.
  - intros Hfail. apply Rollback_nothing. revert Hfail. rewrite Execute_run.
    destruct (runOperations os fs (operations ft) w) as [[done [[op e] |]] w1];
      cbn [fst snd]; [| congruence].
    intros _. rewrite Rollback_each. reflexivity.
Qed.

(** X10. [Execute] starts from scratch: what it does and returns does not
    depend on the completed operations the transaction holds, so an
    [Execute] on the transaction an earlier [Execute] left - successful or
    not - runs all the planned operations again, from the first.  The
    planned operations and the overwrite flag are the same after
    [Execute]. *)
Theorem execute_starts_from_scratch (ft : FileTransaction) (cs : list Operation)
    (w w' : W) :
  Execute os fs (set_completed cs ft) w = Execute os fs ft w /\
  Execute os fs (snd (fst (Execute os fs ft w))) w' = Execute os fs ft w' /\
  operations (snd (fst (Execute os fs ft w))) = operations ft /\
  overwrite (snd (fst (Execute os fs ft w))) = overwrite ft.
Proof.
  assert (H1 : forall cs' w0,
            Execute os fs (set_completed cs' ft) w0 = Execute os fs ft w0).
  { intros cs' w0. reflexivity. }
  assert (H2 : exists cs', snd (fst (Execute os fs ft w)) = set_completed cs' ft).
  { rewrite Execute_run.
    destruct (runOperations os fs (operations ft) w) as [[done [[op e] |]] w1];
      cbn [fst snd]; [| now eexists].
    rewrite Rollback_each. cbn [fst snd]. now eexists. }
  destruct H2 as [cs' ->].
  split; [apply H1 | split; [apply H1 | split; reflexivity]].
Qed.

(** X11. The error chain of a failed [Execute].  The [Err] of the
    execution-phase error is the error of the failing operation when the
    rollback returned nil, and then [errors.Is(err, os.ErrNotExist)] on
    the result says what it says on that error ([Unwrap] leads to it).
    When the rollback failed too, the two errors are formatted with [%v]
    into a new one, and [errors.Is(err, os.ErrNotExist)] is false on the
    result whatever the causes; it is false as well on every error
    [Rollback] returns. *)
Theorem execution_error_chain (ft : FileTransaction) (w : W)
    (done : list Operation) (op : Operation) (err : error) (w1 : W)
    (Hfail : runOperations os fs (operations ft) w = (done, Some (op, err), w1)) :
  exists e,
    fst (fst (Execute os fs ft w)) = Some e /\
    Err_of e = Some (executionErr err
                       (fst (fst (Rollback os (set_completed done ft) w1)))) /\
    (fst (fst (Rollback os (set_completed done ft) w1)) = None ->
     errors_Is_ErrNotExist e = errors_Is_ErrNotExist err) /\
    (fst (fst (Rollback os (set_completed done ft) w1)) <> None ->
     errors_Is_ErrNotExist e = false) /\
    (forall rbErr,
       fst (fst (Rollback os (set_completed done ft) w1)) = Some rbErr ->
       errors_Is_ErrNotExist rbErr = false).
Proof.
  rewrite Execute_run, Hfail. cbn [fst snd]. eexists. split; [reflexivity |].
  split; [reflexivity |].
  rewrite Rollback_each. cbn [fst snd].
  destruct (rollbackResult _) as [rb |] eqn:Hrb; cbn.
  - split; [discriminate |]. split; [reflexivity |].
    intros rbErr [= <-]. unfold rollbackResult in Hrb.
    destruct (omap rollbackFailure _); [discriminate |].
    injection Hrb as <-. reflexivity.
  - split; [reflexivity |]. split; [congruence | discriminate].
Qed.

End EngineRuns.

(** ** Validation with the [*Files] service *)

Section ValidateChecks.
Context {W : Type} (os : OS W).

Lemma validateLoop_strict_None (ops : list Operation) (w : W) :
  fst (validateLoop (Files.service os) false ops w) = None <->
  Forall (fun op => Files.ValidateCopyArgs os (Source op) (Destination op) w = None)
         ops.
Proof.
  induction ops as [| op rest IH]; [split; [constructor | reflexivity] |].
  cbn [validateLoop negb Files.service svcValidateCopyArgs].
  destruct (Files.ValidateCopyArgs os (Source op) (Destination op) w) as [e |] eqn:E.
  - split; [discriminate |]. intros H. inversion H; subst. congruence.
  - rewrite IH. split; intros H; [now constructor | now inversion H].
Qed.

Lemma validateLoop_relaxed_None (ops : list Operation) (w : W) :
  fst (validateLoop (Files.service os) true ops w) = None <->
  Forall (fun op => Source op <> ""%string /\ Destination op <> ""%string /\
                    Files.IsFile os (Source op) w = true) ops.
Proof.
  induction ops as [| op rest IH]; [split; [constructor | reflexivity] |].
  cbn [validateLoop negb Files.service svcIsFile].
  destruct (String.eqb (Source op) "") eqn:Es; cbn [orb].
  { apply String.eqb_eq in Es. split; [discriminate |].
    intros H. inversion H; subst. tauto. }
  destruct (String.eqb (Destination op) "") eqn:Ed.
  { apply String.eqb_eq in Ed. split; [discriminate |].
    intros H. inversion H; subst. tauto. }
  apply String.eqb_neq in Es, Ed.
  destruct (Files.IsFile os (Source op) w) eqn:Ef.
  - rewrite IH. split; intros H; [now constructor | now inversion H].
  - split; [discriminate |]. intros H. inversion H; subst.
    destruct H2 as (_ & _ & H2). congruence.
Qed.

Lemma ValidateCopyArgs_None (src dst : string) (w : W) :
  Files.ValidateCopyArgs os src dst w = None <->
  src <> ""%string /\ dst <> ""%string /\ Files.IsFile os src w = true /\
  exists err, os_Stat os dst w = inr err /\ errors_Is_ErrNotExist err = true.
Proof.
  unfold Files.ValidateCopyArgs.
  destruct (String.eqb src "") eqn:Es; cbn [orb].
  { apply String.eqb_eq in Es. split; [discriminate | tauto]. }
  destruct (String.eqb dst "") eqn:Ed.
  { apply String.eqb_eq in Ed. split; [discriminate | tauto]. }
  apply String.eqb_neq in Es, Ed.
  destruct (Files.IsFile os src w); cbn [negb].
  2:{ split; [discriminate |]. intros (_ & _ & H & _). discriminate. }
  destruct (os_Stat os dst w) as [i | err].
  { split; [discriminate |]. intros (_ & _ & _ & e & H & _). discriminate. }
  destruct (errors_Is_ErrNotExist err) eqn:E; cbn [negb].
  - split; [| reflexivity]. intros _. repeat split; try assumption. now exists err.
  - split; [discriminate |]. intros (_ & _ & _ & e & [= <-] & H). congruence.
Qed.

(** X12. With the [*Files] service [Validate] returns nil exactly when
    every planned operation passes its check in the world as it is.
    Without overwrite: source and destination are not empty, the source
    is a regular file, and [os.Stat] of the destination fails with a
    not-exist error.  With overwrite: the first three alone.  So a plan
    that passes without overwrite passes with it. *)
Theorem validate_passes_exactly_when_every_check_does
    (ops cs : list Operation) (w : W) :
  (fst (fst (Validate (Files.service os)
               {| operations := ops; completed := cs; overwrite := false |} w))
   = None <->
   Forall (fun op =>
             Source op <> ""%string /\ Destination op <> ""%string /\
             Files.IsFile os (Source op) w = true /\
             exists err, os_Stat os (Destination op) w = inr err /\
                         errors_Is_ErrNotExist err = true) ops) /\
  (fst (fst (Validate (Files.service os)
               {| operations := ops; completed := cs; overwrite := true |} w))
   = None <->
   Forall (fun op =>
             Source op <> ""%string /\ Destination op <> ""%string /\
             Files.IsFile os (Source op) w = true) ops) /\
  (fst (fst (Validate (Files.service os)
               {| operations := ops; completed := cs; overwrite := false |} w))
   = None ->
   fst (fst (Validate (Files.service os)
               {| operations := ops; completed := cs; overwrite := true |} w))
   = None).
Proof.
  assert (HV : forall ov,
    fst (fst (Validate (Files.service os)
                {| operations := ops; completed := cs; overwrite := ov |} w))
    = fst (validateLoop (Files.service os) ov ops w)).
  { intros ov. unfold Validate. cbn [operations overwrite].
    destruct (validateLoop _ ov ops w). reflexivity. }
  rewrite !HV, validateLoop_strict_None, validateLoop_relaxed_None.
  assert (H1 : Forall (fun op => Files.ValidateCopyArgs os (Source op) (Destination op) w = None) ops
               <-> Forall (fun op =>
             Source op <> ""%string /\ Destination op <> ""%string /\
             Files.IsFile os (Source op) w = true /\
             exists err, os_Stat os (Destination op) w = inr err /\
                         errors_Is_ErrNotExist err = true) ops).
  { split; intros H; (eapply Forall_impl; [exact H |]); intros op;
      apply ValidateCopyArgs_None. }
  split; [exact H1 | split; [reflexivity |]].
  rewrite H1. intros H. eapply Forall_impl; [exact H |]. intros op. cbn. tauto.
Qed.

End ValidateChecks.

(** ** [*Files] and the operations on the in-memory system *)

Section CopyFacts.
Import MemFS.

Lemma EnsureDir_fds path perm w :
  fds (snd (Files.EnsureDir os path perm w)) = fds w /\
  nextFd (snd (Files.EnsureDir os path perm w)) = nextFd w.
Proof.
  unfold Files.EnsureDir. destruct (String.eqb path ""); [now split |].
  cbn [os_MkdirAll os]. unfold MkdirAll.
  destruct (mkdirAll (String.length path) path perm (nodes w)) as [[e |] m];
    now split.
Qed.

Lemma OpenFile_excl_world path mode w fout w1 :
  OpenFile_excl path mode w = (inl fout, w1) ->
  fout = nextFd w /\ nodes w !! path = None /\
  nodes w1 = <[path := RegularFile "" mode]> (nodes w) /\
  fds w1 = <[nextFd w := path]> (fds w) /\ nextFd w1 = nextFd w + 1.
Proof.
  unfold OpenFile_excl.
  destruct (nodes w !! path) eqn:E; [discriminate |].
  destruct (nodes w !! Dir path) as [[] |]; try discriminate.
  unfold newFd, set_nodes. cbn. intros [= <- <-]. cbn. repeat split.
Qed.

Lemma IoCopy_regular fout fin pin pout data old m1 m2 w :
  fds w !! fin = Some pin -> nodes w !! pin = Some (RegularFile data m1) ->
  fds w !! fout = Some pout -> nodes w !! pout = Some (RegularFile old m2) ->
  IoCopy fout fin w
  = (None, set_nodes (insert pout (RegularFile (old +:+ data) m2)) w).
Proof. unfold IoCopy, fdNode. now intros -> -> -> ->. Qed.







(** A successful [Copy]: the source is a regular file, the destination
    was absent and now holds the bytes and the mode of the source. *)
Lemma Copy_content src dst w w' :
  Files.Copy os src dst w = (None, w') ->
  exists data mode m2,
    nodes w !! src = Some (RegularFile data mode) /\
    nodes w !! dst = None /\
    growsDirs (nodes w) m2 /\ m2 !! dst = None /\
    nodes w' = <[dst := RegularFile data mode]> m2.
Proof.
  unfold Files.Copy.
  destruct (Files.ValidateCopyArgs os src dst w) eqn:Hv; [discriminate |].
  assert (Hdst : nodes w !! dst = None).
  { unfold Files.ValidateCopyArgs in Hv. repeat case_match; try discriminate.
    cbn in *. unfold Stat in *. repeat case_match; congruence. }
  assert (Hreg : exists data mode, nodes w !! src = Some (RegularFile data mode)).
  { unfold Files.ValidateCopyArgs, Files.IsFile in Hv. cbn in Hv. unfold Stat in Hv.
    destruct (String.eqb src "" || String.eqb dst ""); [discriminate |].
    destruct (nodes w !! src) as [[data mode | mode] |]; cbn in Hv;
      try discriminate. eauto. }
  destruct Hreg as (data & mode & Hsrc).
  cbn [os_Open os File_Stat File_Close os_OpenFile_excl io_Copy File_Sync os_Remove
       filepath_Dir].
  unfold Open. rewrite Hsrc. unfold newFd. cbn [fst snd].
  set (wo := {| nodes := nodes w; fds := <[nextFd w := src]> (fds w);
                nextFd := nextFd w + 1 |}).
  assert (Hstat : FStat (nextFd w) wo = inl (info (RegularFile data mode))).
  { unfold FStat, fdNode. cbn [fds nodes wo]. now rewrite lookup_insert_eq, Hsrc. }
  rewrite Hstat. cbn [info Mode].
  destruct (EnsureDir_grows (Dir dst) 493 wo) as [Hgrow _].
  destruct (EnsureDir_fds (Dir dst) 493 wo) as [Hfds0 Hnext0].
  destruct (Files.EnsureDir os (Dir dst) 493 wo) as [[err |] w0]; cbn [fst snd] in *;
    [discriminate |].
  destruct (OpenFile_excl dst mode w0) as [[fout | err] w1] eqn:Hopen;
    [| discriminate].
  apply OpenFile_excl_world in Hopen as (-> & Hnone & Hnodes1 & Hfds1 & Hnext1).
  rewrite Hfds0, Hnext0 in *. cbn [nextFd wo fds nodes] in *.
  assert (Hsrc0 : nodes w0 !! src = Some (RegularFile data mode)).
  { destruct (Hgrow src) as [-> | [Hn _]]; congruence. }
  assert (Hne : src <> dst) by congruence.
  rewrite (IoCopy_regular (nextFd w + 1) (nextFd w) src dst data "" mode mode).
  2:{ rewrite Hfds1, lookup_insert_ne by lia. apply lookup_insert_eq. }
  2:{ rewrite Hnodes1, lookup_insert_ne by congruence. exact Hsrc0. }
  2:{ rewrite Hfds1. apply lookup_insert_eq. }
  2:{ rewrite Hnodes1. apply lookup_insert_eq. }
  unfold Sync. cbn [set_nodes fds]. rewrite Hfds1, lookup_insert_eq.
  intros [= _ <-]. rewrite !nodes_Close. cbn [set_nodes nodes].
  exists data, mode, (nodes w0).
  rewrite Hnodes1, insert_insert_eq.
  repeat split; assumption.
Qed.

End CopyFacts.

Section CopyRuns.
Import MemFS.

Lemma growsDirs_keeps (m m' : gmap string node) (p : string) (n : node) :
  growsDirs m m' -> m !! p = Some n -> m' !! p = Some n.
Proof. intros H Hp. destruct (H p) as [-> | [Hn _]]; congruence. Qed.

Lemma Copy_keeps src dst w e w' p n :
  Files.Copy os src dst w = (e, w') ->
  nodes w !! p = Some n -> nodes w' !! p = Some n.
Proof.
  intros Hcopy Hp. destruct e as [err |].
  - apply Copy_nodes in Hcopy. eapply growsDirs_keeps; eassumption.
  - apply Copy_content in Hcopy
      as (data & mode & m2 & Hsrc & Hdst & Hgrow & Hm2 & ->).
    rewrite lookup_insert_ne by congruence.
    eapply growsDirs_keeps; eassumption.
Qed.

(** A run of copies: nothing that was there is changed or removed, every
    destination of a copy that succeeded was absent and is a regular file,
    and no two of them are the same path. *)
Lemma copies_run (ops : list Operation) (w : World) :
  Forall isCopy ops ->
  forall done f w1,
    runOperations os files ops w = (done, f, w1) ->
    (forall p n, nodes w !! p = Some n -> nodes w1 !! p = Some n) /\
    Forall (fun o => nodes w !! Destination o = None) done /\
    Forall (fun o => exists data mode,
              nodes w1 !! Destination o = Some (RegularFile data mode)) done /\
    NoDup (map Destination done).
Proof.
  intros Hall. revert w.
  induction Hall as [| op0 rest Hop0 _ IH]; intros w done f w1 Hrun.
  { injection Hrun as <- <- <-. split; [auto |]. repeat split; constructor. }
  destruct op0 as [src dst | ]; [| destruct Hop0].
  unfold files in *.
  cbn [runOperations Operation_Execute Files.service svcCopy] in Hrun.
  destruct (Files.Copy os src dst w) as [[e |] wa] eqn:Hcopy.
  - injection Hrun as <- <- <-.
    split; [| repeat split; constructor].
    intros p n. eapply Copy_keeps; eassumption.
  - destruct (runOperations os (Files.service os) rest wa) as [[done' f'] w1'] eqn:Hrest.
    injection Hrun as <- <- <-.
    destruct (IH wa done' f' w1' Hrest) as (Hkeep & Habsent & Hthere & Hnodup).
    pose proof (Copy_content _ _ _ _ Hcopy)
      as (data & mode & m2 & Hsrc & Hdst & Hgrow & Hm2 & Hwa).
    assert (Hnew : nodes wa !! dst = Some (RegularFile data mode)).
    { rewrite Hwa. apply lookup_insert_eq. }
    split; [| split; [| split]].
    + intros p n Hp. apply Hkeep. eapply Copy_keeps; eassumption.
    + constructor; [exact Hdst |].
      eapply Forall_impl; [exact Habsent |]. cbn. intros o Ho.
      destruct (nodes w !! Destination o) as [n |] eqn:E; [| reflexivity].
      rewrite (Copy_keeps _ _ _ _ _ _ _ Hcopy E) in Ho. discriminate.
    + constructor; [| exact Hthere]. cbn. exists data, mode. now apply Hkeep.
    + cbn. constructor; [| exact Hnodup].
      intros Hin. apply list_elem_of_fmap in Hin as (o & Ho & Hino).
      rewrite Forall_forall in Habsent. specialize (Habsent o Hino).
      cbn in Ho. rewrite <- Ho in Habsent. congruence.
Qed.

(** The rollbacks of the copies that succeeded, last first, in the world
    the run left: each returns nil, and what is left differs from the
    world before the run by new directories at most. *)
Lemma copies_undo (ops : list Operation) (w : World) :
  Forall isCopy ops ->
  forall done f w1,
    runOperations os files ops w = (done, f, w1) ->
    Forall (fun step => snd step = None) (fst (rollbackEach os (rev done) w1)) /\
    growsDirs (nodes w) (nodes (snd (rollbackEach os (rev done) w1))) /\
    Forall (fun o => nodes (snd (rollbackEach os (rev done) w1)) !! Destination o = None)
           done.
Proof.
  intros Hall. revert w.
  induction Hall as [| op0 rest Hop0 _ IH]; intros w done f w1 Hrun.
  { injection Hrun as <- <- <-. cbn.
    split; [constructor | split; [apply growsDirs_refl | constructor]]. }
  destruct op0 as [src dst | ]; [| destruct Hop0].
  unfold files in *.
  cbn [runOperations Operation_Execute Files.service svcCopy] in Hrun.
  destruct (Files.Copy os src dst w) as [[e |] wa] eqn:Hcopy;
    apply Copy_nodes in Hcopy.
  { injection Hrun as <- <- <-. cbn.
    split; [constructor | split; [exact Hcopy | constructor]]. }
  destruct (runOperations os (Files.service os) rest wa) as [[done' f'] w1'] eqn:Hrest.
  injection Hrun as <- <- <-.
  destruct (IH wa done' f' w1' Hrest) as (Hnil & Hgrow & Habsent).
  destruct Hcopy as (Hdst & data & mode & m2 & Hg2 & Hm2 & Hwa).
  cbn [rev]. rewrite rollbackEach_snoc.
  set (w2' := snd (rollbackEach os (rev done') w1')) in *.
  assert (Hthere : lookup dst w2' = Some (RegularFile data mode)).
  { unfold lookup. destruct (Hgrow dst) as [-> | [Hn _]].
    - rewrite Hwa. apply lookup_insert_eq.
    - rewrite Hwa, lookup_insert_eq in Hn. discriminate. }
  cbn [Operation_Rollback os_Remove os fst snd].
  rewrite (Remove_regular _ _ _ _ Hthere). cbn [fst snd set_nodes nodes].
  split; [| split].
  + apply Forall_app. split; [exact Hnil | repeat constructor].
  + intros p. destruct (decide (p = dst)) as [-> | Hne].
    * left. rewrite lookup_delete_eq. now rewrite Hdst.
    * rewrite lookup_delete_ne by congruence.
      specialize (Hgrow p). specialize (Hg2 p).
      rewrite Hwa, lookup_insert_ne in Hgrow by congruence.
      destruct Hgrow as [-> | [Hn [md Hmd]]]; [exact Hg2 |].
      right. destruct Hg2 as [<- | [_ [md' Hmd']]]; [eauto | congruence].
  + constructor.
    * cbn. apply lookup_delete_eq.
    * eapply Forall_impl; [exact Habsent |]. cbn. intros o Ho.
      apply lookup_delete_None. now right.
Qed.

End CopyRuns.

Section MoveFacts.
Import MemFS.

Lemma World_eta (w : World) :
  {| nodes := nodes w; fds := fds w; nextFd := nextFd w |} = w.
Proof. now destruct w. Qed.



Lemma mkdirAll_creates fuel path perm m m' :
  mkdirAll fuel path perm m = (None, m') ->
  exists mode, m' !! path = Some (Directory mode).
Proof.
  destruct fuel as [| fuel]; cbn.
  - destruct (m !! path) as [[] |] eqn:E; try discriminate.
    intros [= <-]. eauto.
  - destruct (m !! path) as [[] |] eqn:E; try discriminate.
    + intros [= <-]. eauto.
    + destruct (mkdirAll fuel (Dir path) perm m) as [[e |] m0]; [discriminate |].
      intros [= <-]. rewrite lookup_insert_eq. eauto.
Qed.

Lemma mkdirAll_present fuel path perm m mode :
  m !! path = Some (Directory mode) -> mkdirAll fuel path perm m = (None, m).
Proof. intros H. destruct fuel; cbn; now rewrite H. Qed.

Lemma EnsureDir_present path perm mode w :
  path <> ""%string -> lookup path w = Some (Directory mode) ->
  Files.EnsureDir os path perm w = (None, w).
Proof.
  intros Hne Hp. unfold Files.EnsureDir.
  apply String.eqb_neq in Hne. rewrite Hne.
  cbn [os_MkdirAll os]. unfold MkdirAll.
  rewrite (mkdirAll_present _ _ _ _ _ Hp). unfold set_nodes.
  now rewrite World_eta.
Qed.

Lemma EnsureDir_creates path perm w w1 :
  Files.EnsureDir os path perm w = (None, w1) ->
  path <> ""%string /\ exists mode, lookup path w1 = Some (Directory mode).
Proof.
  intros H. unfold Files.EnsureDir in H.
  destruct (String.eqb path "") eqn:E; [discriminate |].
  apply String.eqb_neq in E. split; [exact E |].
  cbn [os_MkdirAll os] in H. unfold MkdirAll in H.
  destruct (mkdirAll (String.length path) path perm (nodes w)) as [[e |] m] eqn:Hm;
    [discriminate |].
  injection H as <-. apply mkdirAll_creates in Hm. exact Hm.
Qed.

Lemma Rename_file_done old new data mode w w' :
  lookup old w = Some (RegularFile data mode) ->
  lookup new w = None ->
  Rename old new w = (None, w') ->
  w' = set_nodes (fun m => <[new := RegularFile data mode]> (delete old m)) w.
Proof.
  unfold lookup, Rename. intros Hold Hnew. rewrite Hold, Hnew.
  destruct (String.eqb old new) eqn:E.
  { apply String.eqb_eq in E. subst. congruence. }
  destruct (nodes w !! Dir new) as [[] |]; try discriminate.
  now intros [= <-].
Qed.


End MoveFacts.

(** X13. [Copy] never replaces a file: when [os.Stat] finds the
    destination, [Copy] returns the error of [ValidateCopyArgs] and makes
    no other call, so the world is as before.  The overwrite flag of a
    transaction does not change this: a transaction of the [*Files]
    service whose first operation is a copy onto a destination that
    exists fails in [Execute] with the execution-phase error of that
    operation, the world unchanged, whatever its overwrite flag. *)
Theorem copy_refuses_existing_destination {W : Type} (os : OS W)
    (src dst : string) (rest cs : list Operation) (ov : bool) (w : W)
    (info : FileInfo) (Hdst : os_Stat os dst w = inl info) :
  exists reason,
    Files.ValidateCopyArgs os src dst w = Some reason /\
    Files.Copy os src dst w = (Some reason, w) /\
    Execute os (Files.service os)
      {| operations := CopyOperation src dst :: rest; completed := cs;
         overwrite := ov |} w
    = (Some (TransactionError "execution" (Some (CopyOperation src dst)) reason),
       {| operations := CopyOperation src dst :: rest; completed := [];
          overwrite := ov |}, w).
Proof.
  assert (Hv : exists reason, Files.ValidateCopyArgs os src dst w = Some reason).
  { unfold Files.ValidateCopyArgs. rewrite Hdst.
    destruct (_ || _); [eauto |]. destruct (negb _); eauto. }
  destruct Hv as [reason Hv]. exists reason.
  assert (Hc : Files.Copy os src dst w = (Some reason, w)).
  { unfold Files.Copy. now rewrite Hv. }
  split; [exact Hv | split; [exact Hc |]].
  rewrite Execute_run.
  cbn [operations runOperations Operation_Execute Files.service svcCopy].
  rewrite Hc. cbn [fst snd]. rewrite Rollback_each. reflexivity.
Qed.

Lemma copy_refuses_existing_destination_witness :
  exists reason,
    Files.Copy MemFS.os "/s/file2.txt" "/d/file2.txt" existingDestination
    = (Some reason, existingDestination).
Proof.
  destruct (copy_refuses_existing_destination MemFS.os "/s/file2.txt"
              "/d/file2.txt" [] [] true existingDestination
              {| IsDir := false; Mode := 420 |} eq_refl)
    as (reason & _ & H & _).
  exists reason. exact H.
Defined.


(** X15. A transaction of copies that [Execute] completes on the in-memory
    system: no two operations have the same destination, no destination
    existed before, each is a regular file afterwards, and everything
    that existed before is still there, unchanged.  So a plan with two
    copies to one destination cannot be executed, although [Validate]
    looks at each operation on its own. *)
Theorem successful_copies_have_distinct_new_destinations
    (ft : FileTransaction) (w : MemFS.World)
    (Hcopies : Forall isCopy (operations ft))
    (Hok : fst (fst (Execute MemFS.os MemFS.files ft w)) = None) :
  NoDup (map Destination (operations ft)) /\
  Forall (fun op => MemFS.lookup (Destination op) w = None) (operations ft) /\
  Forall (fun op => exists data mode,
            MemFS.lookup (Destination op) (snd (Execute MemFS.os MemFS.files ft w))
            = Some (MemFS.RegularFile data mode)) (operations ft) /\
  (forall p n, MemFS.lookup p w = Some n ->
     MemFS.lookup p (snd (Execute MemFS.os MemFS.files ft w)) = Some n).
Proof.
  revert Hok. rewrite Execute_run.
  pose proof (runOperations_prefix MemFS.os MemFS.files (operations ft) w) as Hpre.
  destruct (runOperations MemFS.os MemFS.files (operations ft) w)
    as [[done [[op e] |]] w1] eqn:Hrun; cbn [fst snd]; [discriminate |].
  intros _. subst done.
  destruct (copies_run _ _ Hcopies _ _ _ Hrun) as (Hkeep & Habs & Hthere & Hnd).
  unfold MemFS.lookup. repeat split; assumption.
Qed.

(** X16. [Rollback] after a successful [Execute] of a transaction of
    copies, on the in-memory system: it returns nil, no operation is left
    completed and the plan is kept; every destination is gone; and the
    world differs from the one before [Execute] by new directories at
    most. *)
Theorem rollback_after_successful_copies_restores
    (ft : FileTransaction) (w : MemFS.World)
    (Hcopies : Forall isCopy (operations ft))
    (Hok : fst (fst (Execute MemFS.os MemFS.files ft w)) = None) :
  match Rollback MemFS.os (snd (fst (Execute MemFS.os MemFS.files ft w)))
          (snd (Execute MemFS.os MemFS.files ft w)) with
  | (err, ft', w') =>
      err = None /\ Completed ft' = [] /\ Operations ft' = operations ft /\
      growsDirs (MemFS.nodes w) (MemFS.nodes w') /\
      Forall (fun op => MemFS.lookup (Destination op) w' = None) (operations ft)
  end.
Proof.
  revert Hok. rewrite Execute_run.
  pose proof (runOperations_prefix MemFS.os MemFS.files (operations ft) w) as Hpre.
  destruct (runOperations MemFS.os MemFS.files (operations ft) w)
    as [[done [[op e] |]] w1] eqn:Hrun; cbn [fst snd]; [discriminate |].
  intros _. subst done.
  destruct (copies_undo _ _ Hcopies _ _ _ Hrun) as (Hnil & Hgrow & Habs).
  rewrite Rollback_each. cbn [completed set_completed].
  split; [now apply rollbackResult_None |].
  repeat split; assumption.
Qed.

Lemma successful_copies_have_distinct_new_destinations_witness :
  NoDup (map Destination (operations twoCopies)) /\
  MemFS.lookup "/s/file1.txt"
    (snd (Execute MemFS.os MemFS.files twoCopies existingDestination))
  = Some (MemFS.RegularFile "content1" 420).
Proof.
  destruct (successful_copies_have_distinct_new_destinations twoCopies
              existingDestination)
    as (H1 & _ & _ & H4).
  - repeat constructor.
  - vm_compute. reflexivity.
  - split; [exact H1 |]. apply H4. vm_compute. reflexivity.
Defined.

Lemma rollback_after_successful_copies_restores_witness :
  match Rollback MemFS.os
          (snd (fst (Execute MemFS.os MemFS.files twoCopies existingDestination)))
          (snd (Execute MemFS.os MemFS.files twoCopies existingDestination)) with
  | (err, ft', w') =>
      err = None /\ Completed ft' = [] /\ Operations ft' = operations twoCopies /\
      growsDirs (MemFS.nodes existingDestination) (MemFS.nodes w') /\
      Forall (fun op => MemFS.lookup (Destination op) w' = None)
             (operations twoCopies)
  end.
Proof.
  apply rollback_after_successful_copies_restores.
  - repeat constructor.
  - vm_compute. reflexivity.
Defined.

Section MoveRuns.
Import MemFS.

(** X17. A move and its rollback, on the in-memory system.  When the
    source is a regular file in an existing directory and the destination
    does not exist, and the move succeeds: the file is at the destination
    and no longer at the source; the rollback returns nil and puts the
    file back at the source, the destination is gone again, and the world
    differs from the one before the move by new directories at most. *)
Theorem move_round_trip (src dst data : string) (mode smode : Z) (w w1 : World)
    (Hsrc : lookup src w = Some (RegularFile data mode))
    (Hdst : lookup dst w = None)
    (Hparent : lookup (Dir src) w = Some (Directory smode))
    (Hmove : Operation_Execute os files (MoveOperation src dst) w = (None, w1)) :
  lookup dst w1 = Some (RegularFile data mode) /\ lookup src w1 = None /\
  exists w2,
    Operation_Rollback os (MoveOperation src dst) w1 = (None, w2) /\
    lookup src w2 = Some (RegularFile data mode) /\ lookup dst w2 = None /\
    growsDirs (nodes w) (nodes w2) /\ fds w2 = fds w.
Proof.
  unfold files in Hmove.
  cbn [Operation_Execute Files.service svcEnsureDir filepath_Dir os os_Rename] in Hmove.
  destruct (EnsureDir_grows (Dir dst) 493 w) as [Hgrow Hfds].
  destruct (Files.EnsureDir os (Dir dst) 493 w) as [[e |] w0]; [discriminate |].
  cbn [snd] in *.
  assert (Hsrc0 : lookup src w0 = Some (RegularFile data mode))
    by (eapply growsDirs_keeps; eassumption).
  assert (Hpar0 : lookup (Dir src) w0 = Some (Directory smode))
    by (eapply growsDirs_keeps; eassumption).
  assert (Hdst0 : lookup dst w0 = None).
  { unfold lookup in *. destruct (Hgrow dst) as [-> | [_ [md Hmd]]]; [exact Hdst |].
    rewrite (Rename_onto_directory src dst _ md w0 Hsrc0 Hmd) in Hmove.
    discriminate. }
  destruct (Rename src dst w0) as [[e |] w1'] eqn:Hren; [discriminate |].
  injection Hmove as ->.
  apply (Rename_file_done _ _ _ _ _ _ Hsrc0 Hdst0) in Hren. subst w1.
  assert (Hne : src <> dst) by (intros ->; unfold lookup in *; congruence).
  assert (Hne1 : Dir src <> dst) by (intros E; unfold lookup in *; congruence).
  assert (Hne2 : Dir src <> src) by (intros E; unfold lookup in *; congruence).
  unfold lookup in *. cbn [set_nodes nodes].
  split; [apply lookup_insert_eq |].
  split; [rewrite lookup_insert_ne by congruence; apply lookup_delete_eq |].
  eexists. split.
  - cbn [Operation_Rollback os os_Rename].
    rewrite (Rename_regular dst src data mode smode).
    + reflexivity.
    + unfold lookup. cbn. apply lookup_insert_eq.
    + unfold lookup. cbn. rewrite lookup_insert_ne by congruence.
      apply lookup_delete_eq.
    + unfold lookup. cbn. rewrite lookup_insert_ne by congruence.
      rewrite lookup_delete_ne by congruence. exact Hpar0.
  - cbn [set_nodes nodes fds].
    rewrite delete_insert_eq.
    assert (Hd : delete dst (delete src (nodes w0)) = delete src (nodes w0)).
    { apply delete_id. rewrite lookup_delete_ne by congruence. exact Hdst0. }
    rewrite Hd, insert_delete_eq, insert_id by exact Hsrc0.
    repeat split; try assumption.
Qed.


(** X19. [EnsureDir].  With an empty path it returns its error without
    calling the operating system.  On the in-memory system, when it
    returns nil the path is a directory, nothing but directories is new,
    and a further call - with whatever permissions - returns nil and
    changes nothing.  When the path is a regular file it returns an error
    and leaves every path as it is. *)
Theorem ensure_dir_is_idempotent :
  (forall (W : Type) (o : OS W) (perm : Z) (w : W),
     Files.EnsureDir o "" perm w
     = (Some (Errorf "directory path is empty" []), w)) /\
  (forall (path : string) (perm : Z) (w w1 : World),
     Files.EnsureDir os path perm w = (None, w1) ->
     (exists mode, lookup path w1 = Some (Directory mode)) /\
     growsDirs (nodes w) (nodes w1) /\
     (forall perm', Files.EnsureDir os path perm' w1 = (None, w1))) /\
  (forall (path data : string) (perm mode : Z) (w : World),
     path <> ""%string ->
     lookup path w = Some (RegularFile data mode) ->
     exists e, fst (Files.EnsureDir os path perm w) = Some e /\
               nodes (snd (Files.EnsureDir os path perm w)) = nodes w).
Proof.
  split; [reflexivity |]. split.
  - intros path perm w w1 H.
    pose proof (EnsureDir_grows path perm w) as [Hgrow _]. rewrite H in Hgrow.
    apply EnsureDir_creates in H as [Hne [mode Hm]].
    split; [eauto |]. split; [exact Hgrow |].
    intros perm'. eapply EnsureDir_present; eassumption.
  - intros path data perm mode w Hne Hp. unfold Files.EnsureDir.
    apply String.eqb_neq in Hne. rewrite Hne.
    cbn [os_MkdirAll os]. unfold MkdirAll, lookup in *.
    destruct (String.length path); cbn; rewrite Hp; cbn; eauto.
Qed.

End MoveRuns.

(** ** Planning and the non-transactional transfers *)

(** X20. Planning never fails and keeps the order of insertion: after any
    sequence of [AddCopy] and [AddMove], [Operations] is the list it was
    before followed by the added operations, in the order and of the kind
    they were added; the completed operations and the overwrite flag are
    untouched. *)
Theorem planning_keeps_insertion_order
    (items : list (OperationType * string * string)) (ft : FileTransaction) :
  fst (addOperations items ft) = None /\
  Operations (snd (addOperations items ft))
  = Operations ft ++ map operationOf items /\
  Completed (snd (addOperations items ft)) = Completed ft /\
  overwrite (snd (addOperations items ft)) = overwrite ft.
Proof.
  revert ft. induction items as [| [[[] src] dst] rest IH]; intros ft;
    cbn [addOperations addOperation AddCopy AddMove map].
  - rewrite app_nil_r. repeat split.
  - destruct (IH (set_operations (operations ft ++ [NewCopyOperation src dst]) ft))
      as (H1 & H2 & H3 & H4).
    rewrite H1, H2, H3, H4. unfold Operations. cbn. rewrite <- app_assoc.
    repeat split.
  - destruct (IH (set_operations (operations ft ++ [NewMoveOperation src dst]) ft))
      as (H1 & H2 & H3 & H4).
    rewrite H1, H2, H3, H4. unfold Operations. cbn. rewrite <- app_assoc.
    repeat split.
Qed.

Section CmdFacts.
Context {W : Type} (os : OS W).

(** With the [*Files] service the check before [Copy] changes nothing:
    [Copy] makes the same check itself. *)
Lemma copyLoop_overwrite {R : Type} (rep : ProgressReporter R)
    (md : MetadataService W) (dstRoot : string) (dryRun ov : bool)
    (sources : list string) (i : Z) (stdout : list string) (r : R) (w : W) :
  Cmd.copyLoop (Files.service os) md rep dstRoot dryRun ov sources i stdout r w
  = Cmd.copyLoop (Files.service os) md rep dstRoot dryRun true sources i stdout r w.
Proof.
  revert i stdout r w. induction sources as [| src rest IH]; intros i stdout r w;
    [reflexivity |].
  cbn [Cmd.copyLoop]. destruct (Cmd.destFromMetadata md src dstRoot w) as [[dst | e] w1];
    [| reflexivity].
  destruct dryRun; [apply IH |].
  destruct ov; [reflexivity |].
  cbn [negb Files.service svcValidateCopyArgs svcCopy].
  destruct (Files.ValidateCopyArgs os src dst w1) as [e |] eqn:Hv.
  - unfold Files.Copy. rewrite Hv. reflexivity.
  - destruct (Files.Copy os src dst w1) as [[e |] w2]; [reflexivity | apply IH].
Qed.

(** X21. The overwrite flag makes no difference to the non-transactional
    copy with the [*Files] service: with it and without it the error, the
    two output streams and the world are the same.  (The flag skips a
    check that [Copy] makes itself.) *)
Theorem non_atomic_copy_ignores_overwrite (md : MetadataService W)
    (sources : list string) (dstRoot : string) (dryRun showProgress : bool)
    (stdout stderr : list string) (w : W) :
  Cmd.performNonTransactionalCopy (Files.service os) md sources dstRoot dryRun
    true showProgress stdout stderr w
  = Cmd.performNonTransactionalCopy (Files.service os) md sources dstRoot dryRun
      false showProgress stdout stderr w.
Proof.
  unfold Cmd.performNonTransactionalCopy, Cmd.performNonTransactionalCopyWith.
  now rewrite !(copyLoop_overwrite _ md dstRoot dryRun false).
Qed.

End CmdFacts.

Section DryRun.
Context {W : Type}.

Lemma copyLoop_dry_run {R : Type} (rep : ProgressReporter R)
    (fs fs' : FilesService W) (md : MetadataService W) (dstRoot : string)
    (ov ov' : bool) (sources : list string) (i : Z) (stdout : list string)
    (r : R) (w : W) :
  Cmd.copyLoop fs md rep dstRoot true ov sources i stdout r w
  = Cmd.copyLoop fs' md rep dstRoot true ov' sources i stdout r w.
Proof.
  revert i stdout r w. induction sources as [| src rest IH]; intros i stdout r w;
    [reflexivity |].
  cbn [Cmd.copyLoop]. destruct (Cmd.destFromMetadata md src dstRoot w) as [[dst | e] w1];
    [apply IH | reflexivity].
Qed.

Lemma moveLoop_dry_run {R : Type} (rep : ProgressReporter R) (os os' : OS W)
    (fs fs' : FilesService W) (md : MetadataService W) (dstRoot : string)
    (ov ov' : bool) (sources : list string) (i : Z) (stdout : list string)
    (r : R) (w : W) :
  Cmd.moveLoop os fs md rep dstRoot true ov sources i stdout r w
  = Cmd.moveLoop os' fs' md rep dstRoot true ov' sources i stdout r w.
Proof.
  revert i stdout r w. induction sources as [| src rest IH]; intros i stdout r w;
    [reflexivity |].
  cbn [Cmd.moveLoop]. destruct (Cmd.destFromMetadata md src dstRoot w) as [[dst | e] w1];
    [apply IH | reflexivity].
Qed.

Lemma copyLoop_dry_run_lines {R : Type} (rep : ProgressReporter R)
    (fs : FilesService W) (md : MetadataService W) (dstRoot : string)
    (ov : bool) (dest : string -> string) (w : W) (sources : list string) :
  (forall src, In src sources ->
     Cmd.destFromMetadata md src dstRoot w = (inl (dest src), w)) ->
  forall (i : Z) (stdout : list string) (r : R),
  exists r',
    Cmd.copyLoop fs md rep dstRoot true ov sources i stdout r w
    = (None,
       stdout ++ map (fun src => Cmd.wouldLine "copy" src (dest src)) sources,
       r', w).
Proof.
  induction sources as [| src rest IH]; intros Hd i stdout r.
  - exists r. cbn. now rewrite app_nil_r.
  - cbn [Cmd.copyLoop]. rewrite (Hd src) by now left.
    destruct (IH (fun s Hs => Hd s (or_intror Hs)) (i + 1)
                (stdout ++ [Cmd.wouldLine "copy" src (dest src)])
                (rIncrement rep (rSetMessage rep ("copy " +:+ src) r)))
      as [r' ->].
    exists r'. cbn [map]. now rewrite <- app_assoc.
Qed.

Lemma moveLoop_dry_run_lines {R : Type} (rep : ProgressReporter R) (os : OS W)
    (fs : FilesService W) (md : MetadataService W) (dstRoot : string)
    (ov : bool) (dest : string -> string) (w : W) (sources : list string) :
  (forall src, In src sources ->
     Cmd.destFromMetadata md src dstRoot w = (inl (dest src), w)) ->
  forall (i : Z) (stdout : list string) (r : R),
  exists r',
    Cmd.moveLoop os fs md rep dstRoot true ov sources i stdout r w
    = (None,
       stdout ++ map (fun src => Cmd.wouldLine "move" src (dest src)) sources,
       r', w).
Proof.
  induction sources as [| src rest IH]; intros Hd i stdout r.
  - exists r. cbn. now rewrite app_nil_r.
  - cbn [Cmd.moveLoop]. rewrite (Hd src) by now left.
    destruct (IH (fun s Hs => Hd s (or_intror Hs)) (i + 1)
                (stdout ++ [Cmd.wouldLine "move" src (dest src)])
                (rIncrement rep (rSetMessage rep ("move " +:+ src) r)))
      as [r' ->].
    exists r'. cbn [map]. now rewrite <- app_assoc.
Qed.

(** X22. A dry run of the non-transactional copy or move calls none of
    [ValidateCopyArgs], [Copy], [EnsureDir] and [os.Rename]: its result is
    the same for every service and every operating system in their
    place, and for either value of the overwrite flag.  When the
    destinations can be computed without changing the world, it returns
    nil in the same world, having written one "Would copy" (or "Would
    move") line per source, in order - and after them the line that says
    the files were copied (or moved). *)
Theorem dry_run_performs_no_file_operation
    (os os' : OS W) (fs fs' : FilesService W) (md : MetadataService W)
    (sources : list string) (dstRoot : string) (ov ov' showProgress : bool)
    (stdout stderr : list string) (w : W) :
  Cmd.performNonTransactionalCopy fs md sources dstRoot true ov showProgress
    stdout stderr w
  = Cmd.performNonTransactionalCopy fs' md sources dstRoot true ov' showProgress
      stdout stderr w /\
  Cmd.performNonTransactionalMove os fs md sources dstRoot true ov showProgress
    stdout stderr w
  = Cmd.performNonTransactionalMove os' fs' md sources dstRoot true ov'
      showProgress stdout stderr w /\
  (forall dest : string -> string,
     (forall src, In src sources ->
        Cmd.destFromMetadata md src dstRoot w = (inl (dest src), w)) ->
     (exists stderr',
        Cmd.performNonTransactionalCopy fs md sources dstRoot true ov
          showProgress stdout stderr w
        = (None,
           stdout ++ map (fun src => Cmd.wouldLine "copy" src (dest src)) sources
             ++ [Cmd.doneLine "Copied" (length sources)],
           stderr', w)) /\
     (exists stderr',
        Cmd.performNonTransactionalMove os fs md sources dstRoot true ov
          showProgress stdout stderr w
        = (None,
           stdout ++ map (fun src => Cmd.wouldLine "move" src (dest src)) sources
             ++ [Cmd.doneLine "Moved" (length sources)],
           stderr', w))).
Proof.
  split; [| split].
  - unfold Cmd.performNonTransactionalCopy, Cmd.performNonTransactionalCopyWith.
    now rewrite !(copyLoop_dry_run _ fs fs' md dstRoot ov ov').
  - unfold Cmd.performNonTransactionalMove, Cmd.performNonTransactionalMoveWith.
    now rewrite !(moveLoop_dry_run _ os os' fs fs' md dstRoot ov ov').
  - intros dest Hd. split.
    + unfold Cmd.performNonTransactionalCopy, Cmd.performNonTransactionalCopyWith.
      destruct showProgress.
      * destruct (copyLoop_dry_run_lines ProgressBarReporter fs md dstRoot ov dest w
                    sources Hd 0 stdout
                    (rSetTotal ProgressBarReporter (Z.of_nat (length sources))
                       (ProgressBar.NewSimpleProgressBar stderr))) as [r' ->].
        eexists. rewrite <- app_assoc. reflexivity.
      * destruct (copyLoop_dry_run_lines NoOpReporter fs md dstRoot ov dest w
                    sources Hd 0 stdout
                    (rSetTotal NoOpReporter (Z.of_nat (length sources))
                       NewNoOpReporter)) as [r' ->].
        eexists. rewrite <- app_assoc. reflexivity.
    + unfold Cmd.performNonTransactionalMove, Cmd.performNonTransactionalMoveWith.
      destruct showProgress.
      * destruct (moveLoop_dry_run_lines ProgressBarReporter os fs md dstRoot ov dest w
                    sources Hd 0 stdout
                    (rSetTotal ProgressBarReporter (Z.of_nat (length sources))
                       (ProgressBar.NewSimpleProgressBar stderr))) as [r' ->].
        eexists. rewrite <- app_assoc. reflexivity.
      * destruct (moveLoop_dry_run_lines NoOpReporter os fs md dstRoot ov dest w
                    sources Hd 0 stdout
                    (rSetTotal NoOpReporter (Z.of_nat (length sources))
                       NewNoOpReporter)) as [r' ->].
        eexists. rewrite <- app_assoc. reflexivity.
Qed.

End DryRun.

Section NonAtomic.
Context {W : Type} (os : OS W).

Lemma copyLoop_run {R : Type} (rep : ProgressReporter R)
    (dest : string -> string -> string) (dstRoot : string) (ov : bool)
    (sources : list string) (i : Z) (stdout : list string) (r : R) (w : W) :
  exists r',
    Cmd.copyLoop (Files.service os) (pureMetadata (fun s b => inl (dest s b)))
      rep dstRoot false ov sources i stdout r w
    = (option_map snd
         (snd (fst (runOperations os (Files.service os)
                      (map (fun s => CopyOperation s (dest s dstRoot)) sources) w))),
       stdout, r',
       snd (runOperations os (Files.service os)
              (map (fun s => CopyOperation s (dest s dstRoot)) sources) w)).
Proof.
  rewrite copyLoop_overwrite.
  revert i r w. induction sources as [| src rest IH]; intros i r w.
  - exists r. reflexivity.
  - cbn [Cmd.copyLoop Cmd.destFromMetadata pureMetadata svcGetFileTags
         svcDestinationFromMetadata map Filepath negb runOperations
         Operation_Execute Files.service svcCopy].
    destruct (Files.Copy os src (dest src dstRoot) w) as [[e |] w1].
    + eexists. reflexivity.
    + destruct (IH (i + 1) (rSetCurrent rep (i + 1)
                              (rSetMessage rep ("copy " +:+ src) r)) w1)
        as [r' Hr].
      exists r'. cbn [Files.service svcCopy] in Hr. rewrite Hr.
      destruct (runOperations os (Files.service os)
                  (map (fun s => CopyOperation s (dest s dstRoot)) rest) w1)
        as [[done f] w2].
      reflexivity.
Qed.

End NonAtomic.

(** X23. The non-transactional copy does not roll back.  With the [*Files]
    service and destinations that are a function of the source: its error
    is the error of the first copy that fails, as [Copy] returned it, and
    its world is the one in which that copy failed, the copies before it
    done.  On the in-memory system the destinations of those copies are
    regular files in that world, and everything that existed before is
    still there. *)
Theorem non_atomic_copy_keeps_partial_results :
  (forall (W : Type) (os : OS W) (dest : string -> string -> string)
          (sources : list string) (dstRoot : string) (ov showProgress : bool)
          (stdout stderr : list string) (w : W),
     fst (fst (fst (Cmd.performNonTransactionalCopy (Files.service os)
                      (pureMetadata (fun s b => inl (dest s b)))
                      sources dstRoot false ov showProgress stdout stderr w)))
     = option_map snd
         (snd (fst (runOperations os (Files.service os)
                      (map (fun s => CopyOperation s (dest s dstRoot)) sources)
                      w))) /\
     snd (Cmd.performNonTransactionalCopy (Files.service os)
            (pureMetadata (fun s b => inl (dest s b)))
            sources dstRoot false ov showProgress stdout stderr w)
     = snd (runOperations os (Files.service os)
              (map (fun s => CopyOperation s (dest s dstRoot)) sources) w)) /\
  (forall (dest : string -> string -> string) (sources : list string)
          (dstRoot : string) (w : MemFS.World),
     Forall (fun op => exists data mode,
               MemFS.lookup (Destination op)
                 (snd (runOperations MemFS.os MemFS.files
                         (map (fun s => CopyOperation s (dest s dstRoot)) sources)
                         w))
               = Some (MemFS.RegularFile data mode))
            (fst (fst (runOperations MemFS.os MemFS.files
                         (map (fun s => CopyOperation s (dest s dstRoot)) sources)
                         w))) /\
     (forall p n, MemFS.lookup p w = Some n ->
        MemFS.lookup p
          (snd (runOperations MemFS.os MemFS.files
                  (map (fun s => CopyOperation s (dest s dstRoot)) sources) w))
        = Some n)).
Proof.
  split.
  - intros W os dest sources dstRoot ov showProgress stdout stderr w.
    unfold Cmd.performNonTransactionalCopy, Cmd.performNonTransactionalCopyWith.
    destruct showProgress.
    + destruct (copyLoop_run os ProgressBarReporter dest dstRoot ov sources 0
                  stdout
                  (rSetTotal ProgressBarReporter (Z.of_nat (length sources))
                     (ProgressBar.NewSimpleProgressBar stderr)) w) as [r' ->].
      destruct (runOperations os (Files.service os) _ w) as [[done [[op e] |]] w1];
        split; reflexivity.
    + destruct (copyLoop_run os NoOpReporter dest dstRoot ov sources 0
                  stdout
                  (rSetTotal NoOpReporter (Z.of_nat (length sources))
                     NewNoOpReporter) w) as [r' ->].
      destruct (runOperations os (Files.service os) _ w) as [[done [[op e] |]] w1];
        split; reflexivity.
  - intros dest sources dstRoot w.
    destruct (runOperations MemFS.os MemFS.files
                (map (fun s => CopyOperation s (dest s dstRoot)) sources) w)
      as [[done failure] w1] eqn:Hrun.
    assert (Hcopies : Forall isCopy
                        (map (fun s => CopyOperation s (dest s dstRoot)) sources)).
    { apply Forall_forall. intros op Hop.
      apply list_elem_of_fmap in Hop as (s & -> & _). exact I. }
    destruct (copies_run _ _ Hcopies _ _ _ Hrun) as (Hkeep & _ & Hthere & _).
    cbn [fst snd]. split; assumption.
Qed.

(** ** Collecting the sources of a directory *)

Section PathFacts.
Import MemFS.

Lemma string_app_cons (x : ascii) (a b : string) :
  (String x a +:+ b = String x (a +:+ b))%string.
Proof. reflexivity. Qed.

Lemma string_app_assoc (a b c : string) : ((a +:+ b) +:+ c = a +:+ (b +:+ c))%string.
Proof.
  induction a as [| x a IH]; [reflexivity |].
  now rewrite !string_app_cons, IH.
Qed.

Lemma string_app_nil_r (a : string) : (a +:+ "" = a)%string.
Proof.
  induction a as [| x a IH]; [reflexivity |]. now rewrite string_app_cons, IH.
Qed.

Lemma splitSlash_noSlash (s cur : string) :
  noSlash s = true -> splitSlash s cur = [(cur +:+ s)%string].
Proof.
  revert cur. induction s as [| c s IH]; intros cur H.
  - cbn. now rewrite string_app_nil_r.
  - cbn in H. apply andb_prop in H as [Hc Hs].
    apply negb_true_iff in Hc. cbn [splitSlash]. rewrite Hc, (IH _ Hs), string_app_assoc.
    reflexivity.
Qed.

Lemma splitSlash_slash (s rest cur : string) :
  noSlash s = true ->
  splitSlash (s +:+ "/" +:+ rest) cur = (cur +:+ s)%string :: splitSlash rest "".
Proof.
  revert cur. induction s as [| c s IH]; intros cur H.
  - change ("" +:+ "/" +:+ rest)%string with (String "/"%char rest).
    cbn [splitSlash]. change (Ascii.eqb "/" "/") with true. cbn iota.
    now rewrite string_app_nil_r.
  - cbn in H. apply andb_prop in H as [Hc Hs].
    apply negb_true_iff in Hc. rewrite string_app_cons. cbn [splitSlash].
    rewrite Hc, (IH _ Hs), string_app_assoc.
    reflexivity.
Qed.

Lemma splitSlash_joinSlash (seg : string) (segs : list string) :
  Forall (fun s => noSlash s = true) (seg :: segs) ->
  splitSlash (joinSlash (seg :: segs)) "" = seg :: segs.
Proof.
  revert seg. induction segs as [| s segs IH]; intros seg H.
  - inversion H; subst. cbn [joinSlash]. now rewrite splitSlash_noSlash.
  - inversion H; subst.
    change (joinSlash (seg :: s :: segs))
      with (seg +:+ "/" +:+ joinSlash (s :: segs))%string.
    rewrite splitSlash_slash by assumption. now rewrite IH.
Qed.

Lemma joinSlash_app (a : string) (l1 : list string) (b : string)
    (l2 : list string) :
  joinSlash ((a :: l1) ++ b :: l2)
  = (joinSlash (a :: l1) +:+ "/" +:+ joinSlash (b :: l2))%string.
Proof.
  revert a. induction l1 as [| x l1 IH]; intros a.
  - reflexivity.
  - change (joinSlash ((a :: x :: l1) ++ b :: l2))
      with (a +:+ "/" +:+ joinSlash ((x :: l1) ++ b :: l2))%string.
    rewrite IH.
    change (joinSlash (a :: x :: l1)) with (a +:+ "/" +:+ joinSlash (x :: l1))%string.
    now rewrite !string_app_assoc.
Qed.

Lemma plainName_noSlash (s : string) : plainName s = true -> noSlash s = true.
Proof.
  unfold plainName. intros H.
  now repeat (apply andb_prop in H as [H _]).
Qed.

(** Empty elements are dropped, names are kept in order. *)
Lemma cleanElems_names (rooted : bool) (segs stack : list string) :
  Forall (fun s => s = ""%string \/ plainName s = true) segs ->
  cleanElems rooted segs stack
  = rev stack ++ filter (fun s => s <> ""%string) segs.
Proof.
  revert stack. induction segs as [| s segs IH]; intros stack H; cbn [cleanElems].
  - now rewrite app_nil_r.
  - inversion H as [| ? ? Hs Hrest]; subst. rewrite filter_cons.
    destruct Hs as [-> | Hs].
    + cbn. rewrite decide_False by tauto. now apply IH.
    + unfold plainName in Hs.
      apply andb_prop in Hs as [Hs H3]. apply andb_prop in Hs as [Hs H2].
      apply andb_prop in Hs as [_ H1].
      apply negb_true_iff in H1, H2, H3. rewrite H1, H2, H3. cbn [orb].
      rewrite decide_True by (apply String.eqb_neq; exact H1).
      rewrite IH by assumption. cbn [rev]. now rewrite <- app_assoc.
Qed.

Lemma filter_names (names : list string) :
  Forall (fun s => plainName s = true) names ->
  filter (fun s => s <> ""%string) names = names.
Proof.
  induction 1 as [| s names Hs _ IH]; [reflexivity |].
  rewrite filter_cons, IH. rewrite decide_True; [reflexivity |].
  intros ->. discriminate.
Qed.

Lemma prefix_slash (s : string) : String.prefix "/" (String "/"%char s) = true.
Proof.
  cbn. destruct (ascii_dec "/" "/") as [_ | Hne]; [| now destruct Hne].
  now destruct s.
Qed.

(** The cleaned form of a rooted path whose elements are names or
    empty. *)
Lemma Clean_rooted (seg : string) (segs : list string) :
  Forall (fun s => s = ""%string \/ plainName s = true) (seg :: segs) ->
  Clean (joinSlash ("" :: seg :: segs))%string
  = absPath (filter (fun s => s <> ""%string) (seg :: segs)).
Proof.
  intros H. unfold Clean.
  change (joinSlash ("" :: seg :: segs))
    with (String "/"%char (joinSlash (seg :: segs))).
  rewrite prefix_slash.
  change (String "/"%char (joinSlash (seg :: segs)))
    with (joinSlash ("" :: seg :: segs)).
  rewrite splitSlash_joinSlash.
  - rewrite cleanElems_names by (constructor; [now left | exact H]).
    cbn [rev app]. rewrite filter_cons. rewrite decide_False by tauto.
    reflexivity.
  - constructor; [reflexivity |].
    eapply Forall_impl; [exact H |]. cbn. intros s [-> | Hs];
      [reflexivity | now apply plainName_noSlash].
Qed.

Lemma absPath_joinSlash (e : string) (es : list string) :
  absPath (e :: es) = joinSlash ("" :: e :: es).
Proof. reflexivity. Qed.

Lemma absPath_nonempty (es : list string) : String.eqb (absPath es) "" = false.
Proof. reflexivity. Qed.

Lemma Join_absPath_name (e : string) (es : list string) (n : string) :
  Forall (fun s => plainName s = true) (e :: es) -> plainName n = true ->
  Join [absPath (e :: es); n] = absPath (e :: es ++ [n]).
Proof.
  intros Hes Hn. cbn [Join]. rewrite absPath_nonempty.
  change (joinSlash [absPath (e :: es); n])
    with (absPath (e :: es) +:+ "/" +:+ n)%string.
  rewrite absPath_joinSlash.
  change n with (joinSlash [n]) at 1.
  rewrite <- (joinSlash_app "" (e :: es) n []).
  cbn [app]. rewrite (Clean_rooted e (es ++ [n])).
  - rewrite filter_names; [reflexivity |].
    change (e :: es ++ [n]) with ((e :: es) ++ [n]).
    apply Forall_app. split; [exact Hes | now constructor].
  - change (e :: es ++ [n]) with ((e :: es) ++ [n]).
    apply Forall_app. split.
    + eapply Forall_impl; [exact Hes |]. cbn. tauto.
    + constructor; [now right | constructor].
Qed.

Lemma Clean_absPath (e : string) (es : list string) :
  Forall (fun s => plainName s = true) (e :: es) ->
  Clean (absPath (e :: es)) = absPath (e :: es).
Proof.
  intros Hes. rewrite absPath_joinSlash, (Clean_rooted e es).
  - now rewrite filter_names.
  - eapply Forall_impl; [exact Hes |]. cbn. tauto.
Qed.

Lemma Join_absPath_absPath (e : string) (es : list string) (e' : string)
    (es' : list string) :
  Forall (fun s => plainName s = true) (e :: es) ->
  Forall (fun s => plainName s = true) (e' :: es') ->
  Join [absPath (e :: es); absPath (e' :: es')]
  = absPath ((e :: es) ++ e' :: es').
Proof.
  intros Hes Hes'. cbn [Join]. rewrite absPath_nonempty.
  change (joinSlash [absPath (e :: es); absPath (e' :: es')])
    with (absPath (e :: es) +:+ "/" +:+ absPath (e' :: es'))%string.
  rewrite !absPath_joinSlash.
  rewrite <- (joinSlash_app "" (e :: es) "" (e' :: es')).
  cbn [app]. rewrite (Clean_rooted e (es ++ "" :: e' :: es')).
  - change (e :: es ++ "" :: e' :: es') with ((e :: es) ++ "" :: e' :: es').
    rewrite filter_app, (filter_cons _ ""%string), decide_False by tauto.
    now rewrite !filter_names.
  - change (e :: es ++ "" :: e' :: es') with ((e :: es) ++ "" :: e' :: es').
    apply Forall_app. split.
    + eapply Forall_impl; [exact Hes |]. cbn. tauto.
    + constructor; [now left |].
      eapply Forall_impl; [exact Hes' |]. cbn. tauto.
Qed.

Lemma Abs_absPath (wd : string + error) (e : string) (es : list string) :
  Forall (fun s => plainName s = true) (e :: es) ->
  Abs wd (absPath (e :: es)) = inl (absPath (e :: es)).
Proof.
  intros Hes. unfold Abs, IsAbs.
  change (absPath (e :: es)) with (String "/"%char (joinSlash (e :: es))) at 1.
  rewrite prefix_slash. now rewrite Clean_absPath.
Qed.

End PathFacts.

Section CollectFacts.
Context {W : Type}.

Lemma collectLoop_map {R : Type} (path : PathResolver W) (rep : ProgressReporter R)
    (abs : string) (entries : list string) (pre : list string) (r : R) :
  fst (Cmd.collectLoop path rep abs entries (length pre)
         (pre ++ replicate (length entries) ""%string) r)
  = pre ++ map (fun e => prJoin path [abs; e]) entries.
Proof.
  revert pre r. induction entries as [| e rest IH]; intros pre r; [reflexivity |].
  cbn [Cmd.collectLoop length replicate map].
  rewrite insert_app_r_alt by lia. rewrite Nat.sub_diag. cbn [insert list_insert].
  specialize (IH (pre ++ [prJoin path [abs; e]])
                (rSetCurrent rep (Z.of_nat (length pre) + 1)
                   (rSetMessage rep ("Collecting " +:+ e) r))).
  rewrite length_app in IH. cbn [length] in IH.
  replace (length pre + 1)%nat with (S (length pre)) in IH by lia.
  rewrite <- app_assoc in IH. cbn [app] in IH. rewrite IH.
  now rewrite <- app_assoc.
Qed.

Lemma readDirectoryLoop_unix (getwd : W -> string + error) (e : string)
    (es : list string) (ents : list DirEntry) (acc : list string) (w : W) :
  Forall (fun s => plainName s = true) (e :: es) ->
  Forall (fun d => plainName (Name d) = true) ents ->
  Files.readDirectoryLoop (unixPath getwd) (absPath (e :: es)) ents acc w
  = inl (acc ++ map (fun d => absPath (e :: es ++ [Name d]))
                  (filter (fun d => entryIsDir d = false) ents)).
Proof.
  intros Hdir Hnames. revert acc.
  induction Hnames as [| d ents Hd _ IH]; intros acc.
  - cbn. now rewrite app_nil_r.
  - cbn [Files.readDirectoryLoop]. rewrite filter_cons.
    destruct (entryIsDir d) eqn:Ed; cbn [negb].
    + rewrite decide_False by discriminate. apply IH.
    + rewrite decide_True by reflexivity.
      cbn [unixPath prAbs prJoin].
      rewrite (Join_absPath_name e es (Name d) Hdir Hd).
      rewrite Abs_absPath.
      * rewrite IH. cbn [map]. now rewrite <- app_assoc.
      * change (e :: es ++ [Name d]) with ((e :: es) ++ [Name d]).
        apply Forall_app. split; [exact Hdir | now constructor].
Qed.

End CollectFacts.

(** X24. [collectSources] on a directory, with the [ReadDirectory] of
    [*Files] and the path functions of a Unix system.  For a directory
    [/e1/.../ek] and its entries, [ReadDirectory] returns the absolute
    path [/e1/.../ek/n] of every entry [n] that is not a directory, and
    [collectSources] joins each of these to the directory once more: it
    returns [/e1/.../ek/e1/.../ek/n] for every such entry, in the order
    of the entries. *)
Theorem collected_directory_paths_repeat_the_directory {W : Type} (os : OS W)
    (getwd : W -> string + error)
    (readDir : string -> W -> list DirEntry + error)
    (e : string) (es : list string) (ents : list DirEntry) (w : W)
    (Hdir : Forall (fun s => plainName s = true) (e :: es))
    (Hnames : Forall (fun d => plainName (Name d) = true) ents)
    (Hisdir : Files.IsDirectory os (absPath (e :: es)) w = true)
    (Hents : readDir (absPath (e :: es)) w = inl ents) :
  Files.ReadDirectory (unixPath getwd) readDir (absPath (e :: es)) w
  = inl (map (fun d => absPath ((e :: es) ++ [Name d]))
           (filter (fun d => entryIsDir d = false) ents)) /\
  Cmd.collectSources (Files.service os) (unixPath getwd)
    (fun p w' => (Files.ReadDirectory (unixPath getwd) readDir p w', w'))
    (absPath (e :: es)) w
  = (inl (map (fun d => absPath ((e :: es) ++ (e :: es) ++ [Name d]))
            (filter (fun d => entryIsDir d = false) ents)), w).
Proof.
  assert (Hread :
    Files.ReadDirectory (unixPath getwd) readDir (absPath (e :: es)) w
    = inl (map (fun d => absPath ((e :: es) ++ [Name d]))
             (filter (fun d => entryIsDir d = false) ents))).
  { unfold Files.ReadDirectory. rewrite Hents.
    now rewrite (readDirectoryLoop_unix getwd e es ents [] w Hdir Hnames). }
  split; [exact Hread |].
  assert (Hfile : Files.IsFile os (absPath (e :: es)) w = false).
  { unfold Files.IsFile, Files.IsDirectory in *.
    destruct (os_Stat os (absPath (e :: es)) w) as [i | err]; [| reflexivity].
    now rewrite Hisdir. }
  unfold Cmd.collectSources, Cmd.collectSourcesWithProgress.
  cbn [unixPath prAbs]. rewrite (Abs_absPath (getwd w) e es Hdir).
  cbn [Files.service svcIsFile svcIsDirectory]. rewrite Hfile, Hisdir, Hread.
  set (paths := map _ (filter _ ents)).
  match goal with
  | |- context [Cmd.collectLoop ?p ?rep ?a ?l 0%nat ?o ?r] =>
      pose proof (collectLoop_map p rep a l [] r) as Hloop;
      cbn [length app] in Hloop;
      destruct (Cmd.collectLoop p rep a l 0%nat o r) as [out r']
  end.
  cbn [fst] in Hloop. subst out. f_equal. f_equal.
  unfold paths. rewrite List.map_map. apply List.map_ext_in. intros d Hd.
  assert (Hname : plainName (Name d) = true).
  { rewrite Forall_forall in Hnames. apply Hnames.
    apply list_elem_of_In in Hd. now apply list_elem_of_filter in Hd as [_ Hd]. }
  cbn [unixPath prJoin].
  change ((e :: es) ++ [Name d]) with (e :: es ++ [Name d]).
  rewrite (Join_absPath_absPath e es e (es ++ [Name d])); [reflexivity | exact Hdir |].
  change (e :: es ++ [Name d]) with ((e :: es) ++ [Name d]).
  apply Forall_app. split; [exact Hdir |]. now constructor.
Qed.

Section CollectRuns.
Context {W : Type} (fs : FilesService W) (path : PathResolver W)
        (readDirectory : string -> W -> (list string + error) * W)
        {R : Type} (rep : ProgressReporter R).

Lemma collectLoop_calls (abs : string) (entries : list string) (i : nat)
    (out : list string) (r : R) :
  snd (Cmd.collectLoop path rep abs entries i out r)
  = applyCalls rep (collectCalls entries i) r.
Proof.
  revert i out r. induction entries as [| e rest IH]; intros i out r;
    [reflexivity |].
  cbn [Cmd.collectLoop collectCalls]. rewrite IH. reflexivity.
Qed.

(** X25. [collectSourcesWithProgress], for every service, path package
    and reporter.  For a path that is a file it returns the absolute path
    alone, and the reporter sees a message, [SetTotal(1)], [SetCurrent(1)]
    and [Finish].  For a directory it returns the absolute path joined
    with each entry [ReadDirectory] returned, in their order, and the
    reporter sees two messages, [SetTotal] of the number of entries, for
    each entry its message and [SetCurrent] of its position, and [Finish]
    last.  When the path is neither, or [ReadDirectory] fails, it returns
    the error and [Finish] is not called. *)
Theorem collect_sources_reports_every_entry (userPath abs : string) (r : R)
    (w w1 : W) (Habs : prAbs path userPath w = inl abs) :
  (svcIsFile fs abs w = (true, w1) ->
   Cmd.collectSourcesWithProgress fs path readDirectory rep userPath r w
   = (inl [abs],
      applyCalls rep [CallSetMessage "Collecting single file"; CallSetTotal 1;
                      CallSetCurrent 1; CallFinish] r,
      w1)) /\
  (forall w2 w3 entries,
     svcIsFile fs abs w = (false, w1) ->
     svcIsDirectory fs abs w1 = (true, w2) ->
     readDirectory abs w2 = (inl entries, w3) ->
     Cmd.collectSourcesWithProgress fs path readDirectory rep userPath r w
     = (inl (map (fun e => prJoin path [abs; e]) entries),
        applyCalls rep
          (CallSetMessage "Reading directory"
             :: CallSetMessage "Collecting files from directory"
             :: CallSetTotal (Z.of_nat (length entries))
             :: collectCalls entries 0 ++ [CallFinish]) r,
        w3)) /\
  (forall w2 w3 err,
     svcIsFile fs abs w = (false, w1) ->
     svcIsDirectory fs abs w1 = (true, w2) ->
     readDirectory abs w2 = (inr err, w3) ->
     Cmd.collectSourcesWithProgress fs path readDirectory rep userPath r w
     = (inr err, applyCalls rep [CallSetMessage "Reading directory"] r, w3)) /\
  (forall w2,
     svcIsFile fs abs w = (false, w1) ->
     svcIsDirectory fs abs w1 = (false, w2) ->
     Cmd.collectSourcesWithProgress fs path readDirectory rep userPath r w
     = (inr (Errorf "unknown src argument" []), r, w2)).
Proof.
  unfold Cmd.collectSourcesWithProgress. rewrite Habs.
  split; [| split; [| split]].
  - now intros ->.
  - intros w2 w3 entries -> -> ->.
    set (r0 := rSetTotal rep _ _).
    pose proof (collectLoop_map path rep abs entries [] r0) as Hout.
    pose proof (collectLoop_calls abs entries 0
                  (replicate (length entries) ""%string) r0) as Hcalls.
    cbn [length app] in Hout.
    destruct (Cmd.collectLoop path rep abs entries 0
                (replicate (length entries) ""%string) r0) as [out r'].
    cbn [fst snd] in *. subst out r'.
    rewrite 3 app_comm_cons, applyCalls_app. reflexivity.
  - now intros w2 w3 err -> -> ->.
  - now intros w2 -> ->.
Qed.

End CollectRuns.

(** ** The non-transactional move, and two moves to one destination *)

Section NonAtomicMove.
Context {W : Type} (os : OS W).

Lemma moveLoop_run {R : Type} (rep : ProgressReporter R)
    (dest : string -> string -> string) (dstRoot : string)
    (sources : list string) (i : Z) (stdout : list string) (r : R) (w : W) :
  exists r' res,
    Cmd.moveLoop os (Files.service os) (pureMetadata (fun s b => inl (dest s b)))
      rep dstRoot false true sources i stdout r w
    = (res, stdout, r',
       snd (runOperations os (Files.service os)
              (map (fun s => MoveOperation s (dest s dstRoot)) sources) w)) /\
    match snd (fst (runOperations os (Files.service os)
                      (map (fun s => MoveOperation s (dest s dstRoot)) sources) w))
    with
    | None => res = None
    | Some (op, e) =>
        exists e', res = Some e' /\
          (e = e' \/
           e = Errorf "move %q to %q: %w"
                 [OpQ (Source op); OpQ (Destination op); OpW e'])
    end.
Proof.
  revert i r w. induction sources as [| src rest IH]; intros i r w.
  - exists r, None. split; reflexivity.
  - cbn [Cmd.moveLoop Cmd.destFromMetadata pureMetadata svcGetFileTags
         svcDestinationFromMetadata map Filepath negb runOperations
         Operation_Execute].
    change Cmd.dirPerm with 493.
    destruct (svcEnsureDir (Files.service os) (filepath_Dir os (dest src dstRoot))
                493 w) as [[e |] w1].
    { eexists _, _. split; [reflexivity |]. cbn. eauto. }
    destruct (os_Rename os src (dest src dstRoot) w1) as [[e |] w2].
    { eexists _, _. split; [reflexivity |]. cbn. eauto. }
    destruct (IH (i + 1) (rSetCurrent rep (i + 1)
                            (rSetMessage rep ("move " +:+ src) r)) w2)
      as (r' & res & Hr & Hres).
    exists r', res. rewrite Hr.
    destruct (runOperations os (Files.service os)
                (map (fun s => MoveOperation s (dest s dstRoot)) rest) w2)
      as [[done f] w3].
    split; [reflexivity | exact Hres].
Qed.

(** X26. The non-transactional move with overwrite does what the moves of
    a transaction do, one after the other, without rolling back: with the
    [*Files] service and destinations that are a function of the source,
    its world is the one the first failing move left, the moves before it
    done; it returns nil exactly when no move fails; and its error is the
    error of [EnsureDir] or the bare error of [os.Rename], which the move
    of a transaction wraps. *)
Theorem non_atomic_move_keeps_partial_results
    (dest : string -> string -> string) (sources : list string)
    (dstRoot : string) (showProgress : bool) (stdout stderr : list string)
    (w : W) :
  snd (Cmd.performNonTransactionalMove os (Files.service os)
         (pureMetadata (fun s b => inl (dest s b)))
         sources dstRoot false true showProgress stdout stderr w)
  = snd (runOperations os (Files.service os)
           (map (fun s => MoveOperation s (dest s dstRoot)) sources) w) /\
  match snd (fst (runOperations os (Files.service os)
                    (map (fun s => MoveOperation s (dest s dstRoot)) sources) w))
  with
  | None =>
      fst (fst (fst (Cmd.performNonTransactionalMove os (Files.service os)
                       (pureMetadata (fun s b => inl (dest s b)))
                       sources dstRoot false true showProgress stdout stderr w)))
      = None
  | Some (op, e) =>
      exists e',
        fst (fst (fst (Cmd.performNonTransactionalMove os (Files.service os)
                         (pureMetadata (fun s b => inl (dest s b)))
                         sources dstRoot false true showProgress stdout stderr w)))
        = Some e' /\
        (e = e' \/
         e = Errorf "move %q to %q: %w"
               [OpQ (Source op); OpQ (Destination op); OpW e'])
  end.
Proof.
  unfold Cmd.performNonTransactionalMove, Cmd.performNonTransactionalMoveWith.
  destruct showProgress.
  - destruct (moveLoop_run ProgressBarReporter dest dstRoot sources 0 stdout
                (rSetTotal ProgressBarReporter (Z.of_nat (length sources))
                   (ProgressBar.NewSimpleProgressBar stderr)) w)
      as (r' & res & -> & Hres).
    destruct (runOperations os (Files.service os) _ w) as [[done [[op e] |]] w1];
      cbn [fst snd] in *.
    + destruct Hres as (e' & -> & He). split; [reflexivity | eauto].
    + subst res. split; reflexivity.
  - destruct (moveLoop_run NoOpReporter dest dstRoot sources 0 stdout
                (rSetTotal NoOpReporter (Z.of_nat (length sources))
                   NewNoOpReporter) w)
      as (r' & res & -> & Hres).
    destruct (runOperations os (Files.service os) _ w) as [[done [[op e] |]] w1];
      cbn [fst snd] in *.
    + destruct Hres as (e' & -> & He). split; [reflexivity | eauto].
    + subst res. split; reflexivity.
Qed.

End NonAtomicMove.

Section SameDestination.
Import MemFS.


End SameDestination.

(** ** Plans that stop early, and plans that cannot fail *)

Section FailFast.
Context {W : Type} (os : OS W) (fs : FilesService W).

Lemma runOperations_app (pre post : list Operation) (w : W) :
  runOperations os fs (pre ++ post) w
  = match runOperations os fs pre w with
    | (done, Some failure, w1) => (done, Some failure, w1)
    | (done, None, w1) =>
        (done ++ fst (fst (runOperations os fs post w1)),
         snd (fst (runOperations os fs post w1)),
         snd (runOperations os fs post w1))
    end.
Proof.
  revert w. induction pre as [| op pre IH]; intros w.
  - cbn. now destruct (runOperations os fs post w) as [[done f] w1].
  - cbn [app runOperations].
    destruct (Operation_Execute os fs op w) as [[e |] w1]; [reflexivity |].
    rewrite IH.
    destruct (runOperations os fs pre w1) as [[done [f |]] w2]; reflexivity.
Qed.

(** X28. [Execute] stops at the first operation that fails.  When the
    operations [pre] succeed and [op] then fails, the operations planned
    after [op] play no part: the error and the world are those of the
    plan that ends with [op], and they are the execution-phase error of
    [op] and the world the rollback of [pre], last first, leaves. *)
Theorem execute_stops_at_first_failure
    (pre post cs : list Operation) (op : Operation) (ov : bool) (w w1 w2 : W)
    (err : error)
    (Hpre : runOperations os fs pre w = (pre, None, w1))
    (Hop : Operation_Execute os fs op w1 = (Some err, w2)) :
  fst (fst (Execute os fs
              {| operations := pre ++ op :: post; completed := cs;
                 overwrite := ov |} w))
  = fst (fst (Execute os fs
                {| operations := pre ++ [op]; completed := cs;
                   overwrite := ov |} w)) /\
  snd (Execute os fs
         {| operations := pre ++ op :: post; completed := cs; overwrite := ov |} w)
  = snd (Execute os fs
           {| operations := pre ++ [op]; completed := cs; overwrite := ov |} w) /\
  (exists Err,
     fst (fst (Execute os fs
                 {| operations := pre ++ op :: post; completed := cs;
                    overwrite := ov |} w))
     = Some (TransactionError "execution" (Some op) Err)) /\
  snd (Execute os fs
         {| operations := pre ++ op :: post; completed := cs; overwrite := ov |} w)
  = snd (rollbackEach os (rev pre) w2).
Proof.
  assert (Hrun : forall tail,
            runOperations os fs (pre ++ op :: tail) w = (pre, Some (op, err), w2)).
  { intros tail. rewrite runOperations_app, Hpre. cbn [runOperations fst snd].
    rewrite Hop. cbn. now rewrite app_nil_r. }
  rewrite !Execute_run. cbn [operations]. rewrite (Hrun post), (Hrun []).
  cbn [fst snd]. rewrite !Rollback_each. cbn [fst snd completed set_completed].
  repeat split. eexists. reflexivity.
Qed.

End FailFast.

Section ValidatedCopies.
Import MemFS.





End ValidatedCopies.

(** ** Concrete instances *)

Lemma increments_accumulate_witness :
  ProgressState.IncrementBy 4
    (ProgressState.IncrementBy 8
       (ProgressState.SetTotal 10 (ProgressState.NewProgressState [])))
  = ProgressState.IncrementBy 12
      (ProgressState.SetTotal 10 (ProgressState.NewProgressState [])) /\
  ProgressState.Current
    (ProgressState.IncrementBy 12
       (ProgressState.SetTotal 10 (ProgressState.NewProgressState []))) = 10.
Proof.
  destruct (increments_accumulate 8 4
              (ProgressState.SetTotal 10 (ProgressState.NewProgressState [])))
    as (H1 & _ & _); try (vm_compute; discriminate).
  split; [exact H1 |].
  destruct (increments_accumulate 12 0
              (ProgressState.SetTotal 10 (ProgressState.NewProgressState [])))
    as (_ & _ & H3); try (vm_compute; discriminate).
  exact H3.
Defined.

Lemma rollback_with_nothing_completed_witness :
  Rollback MemFS.os
    (snd (fst (Execute MemFS.os MemFS.files thirdFails twoFiles)))
    (snd (Execute MemFS.os MemFS.files thirdFails twoFiles))
  = (None, snd (fst (Execute MemFS.os MemFS.files thirdFails twoFiles)),
     snd (Execute MemFS.os MemFS.files thirdFails twoFiles)).
Proof.
  destruct (rollback_with_nothing_completed MemFS.os MemFS.files thirdFails
              twoFiles (snd (Execute MemFS.os MemFS.files thirdFails twoFiles)))
    as (_ & _ & H).
  apply H. vm_compute. discriminate.
Defined.

Lemma execution_error_chain_witness :
  exists e,
    fst (fst (Execute MemFS.os MemFS.files thirdFails twoFiles)) = Some e /\
    errors_Is_ErrNotExist e = false /\
    exists e',
      fst (fst (Execute MemFS.os MemFS.files
                  {| operations := [MoveOperation "/t/missing" "/t/z"];
                     completed := []; overwrite := true |} twoFiles)) = Some e' /\
      errors_Is_ErrNotExist e' = true.
Proof.
  destruct (runOperations MemFS.os MemFS.files (operations thirdFails) twoFiles)
    as [[done [[op err] |]] w1] eqn:Hrun; [| vm_compute in Hrun; discriminate].
  destruct (execution_error_chain MemFS.os MemFS.files thirdFails twoFiles
              done op err w1 Hrun) as (e & He & _ & Hclean & _).
  vm_compute in Hrun. injection Hrun as <- <- <- <-.
  exists e. split; [exact He |]. split; [rewrite Hclean; reflexivity |].
  destruct (runOperations MemFS.os MemFS.files
              [MoveOperation "/t/missing" "/t/z"] twoFiles)
    as [[done' [[op' err'] |]] w1'] eqn:Hrun'; [| vm_compute in Hrun'; discriminate].
  destruct (execution_error_chain MemFS.os MemFS.files
              {| operations := [MoveOperation "/t/missing" "/t/z"];
                 completed := []; overwrite := true |} twoFiles
              done' op' err' w1' Hrun') as (e' & He' & _ & Hclean' & _).
  vm_compute in Hrun'. injection Hrun' as <- <- <- <-.
  exists e'. split; [exact He' |]. rewrite Hclean'; reflexivity.
Defined.

Lemma validate_passes_exactly_when_every_check_does_witness :
  fst (fst (Validate MemFS.files
              {| operations := operations twoCopies; completed := [];
                 overwrite := true |} existingDestination)) = None.
Proof.
  destruct (validate_passes_exactly_when_every_check_does MemFS.os
              (operations twoCopies) [] existingDestination) as (_ & _ & H).
  apply H. vm_compute. reflexivity.
Defined.

Lemma move_round_trip_witness :
  exists w2,
    Operation_Rollback MemFS.os (MoveOperation "/t/x" "/t/new/y")
      (snd (Operation_Execute MemFS.os MemFS.files
              (MoveOperation "/t/x" "/t/new/y") twoFiles)) = (None, w2) /\
    MemFS.lookup "/t/x" w2 = Some (MemFS.RegularFile "X" 420) /\
    MemFS.lookup "/t/new/y" w2 = None.
Proof.
  destruct (move_round_trip "/t/x" "/t/new/y" "X" 420 493 twoFiles
              (snd (Operation_Execute MemFS.os MemFS.files
                      (MoveOperation "/t/x" "/t/new/y") twoFiles)))
    as (_ & _ & w2 & H1 & H2 & H3 & _); try (vm_compute; reflexivity).
  exists w2. repeat split; assumption.
Defined.


Lemma ensure_dir_is_idempotent_witness :
  Files.EnsureDir MemFS.os "/t/p/q" 448
    (snd (Files.EnsureDir MemFS.os "/t/p/q" 493 twoFiles))
  = (None, snd (Files.EnsureDir MemFS.os "/t/p/q" 493 twoFiles)).
Proof.
  destruct ensure_dir_is_idempotent as (_ & H & _).
  destruct (H "/t/p/q"%string 493 twoFiles
              (snd (Files.EnsureDir MemFS.os "/t/p/q" 493 twoFiles)))
    as (_ & _ & H3); [vm_compute; reflexivity |].
  apply H3.
Defined.

Lemma dry_run_performs_no_file_operation_witness :
  exists stderr',
    Cmd.performNonTransactionalCopy MemFS.files
      (pureMetadata (fun s b => inl (belowRoot s b)))
      threeSources "/d" true false true [] [] existingDestination
    = (None,
       [Cmd.wouldLine "copy" "/s/file1.txt" "/d/file1.txt";
        Cmd.wouldLine "copy" "/s/file2.txt" "/d/file2.txt";
        Cmd.wouldLine "copy" "/s/file3.txt" "/d/file3.txt";
        Cmd.doneLine "Copied" 3],
       stderr', existingDestination).
Proof.
  destruct (dry_run_performs_no_file_operation MemFS.os MemFS.os MemFS.files
              MemFS.files (pureMetadata (fun s b => inl (belowRoot s b)))
              threeSources "/d" false false true [] [] existingDestination)
    as (_ & _ & H).
  destruct (H (fun s => belowRoot s "/d")) as [[stderr' Hcopy] _].
  - intros src _. reflexivity.
  - exists stderr'. exact Hcopy.
Defined.

Lemma non_atomic_copy_keeps_partial_results_witness :
  fst (fst (fst (Cmd.performNonTransactionalCopy MemFS.files
                   (pureMetadata (fun s b => inl (belowRoot s b)))
                   threeSources "/d" false false false [] []
                   existingDestination)))
  = Some (Errorf "destination %q already exists" [OpQ "/d/file2.txt"]) /\
  MemFS.lookup "/d/file1.txt"
    (snd (Cmd.performNonTransactionalCopy MemFS.files
            (pureMetadata (fun s b => inl (belowRoot s b)))
            threeSources "/d" false false false [] [] existingDestination))
  = Some (MemFS.RegularFile "content1" 420) /\
  MemFS.lookup "/d/file1.txt"
    (snd (Execute MemFS.os MemFS.files copiesSecondExists existingDestination))
  = None.
Proof.
  destruct non_atomic_copy_keeps_partial_results as [H _].
  destruct (H MemFS.World MemFS.os belowRoot threeSources "/d"%string false false
              [] [] existingDestination) as [H1 H2].
  unfold MemFS.files. rewrite H1, H2.
  vm_compute. repeat split.
Defined.

Lemma collected_directory_paths_repeat_the_directory_witness :
  Cmd.collectSources MemFS.files (unixPath (fun _ => inl "/home"%string))
    (fun p w' =>
       (Files.ReadDirectory (unixPath (fun _ => inl "/home"%string))
          (fun _ _ => inl entriesOfS) p w', w'))
    "/s" existingDestination
  = (inl ["/s/s/file1.txt"; "/s/s/file2.txt"; "/s/s/file3.txt"]%string,
     existingDestination).
Proof.
  apply (collected_directory_paths_repeat_the_directory MemFS.os
           (fun _ => inl "/home"%string) (fun _ _ => inl entriesOfS)
           "s" [] entriesOfS existingDestination).
  - repeat constructor.
  - repeat constructor.
  - vm_compute. reflexivity.
  - reflexivity.
Defined.

Lemma collect_sources_reports_every_entry_witness :
  Cmd.collectSourcesWithProgress MemFS.files
    (unixPath (fun _ => inl "/home"%string))
    (fun p w' => (inl ["a.png"; "b.jpg"]%string, w')) Recorder "/s" []
    existingDestination
  = (inl ["/s/a.png"; "/s/b.jpg"]%string,
     [CallSetMessage "Reading directory";
      CallSetMessage "Collecting files from directory"; CallSetTotal 2;
      CallSetMessage "Collecting a.png"; CallSetCurrent 1;
      CallSetMessage "Collecting b.jpg"; CallSetCurrent 2; CallFinish],
     existingDestination).
Proof.
  destruct (collect_sources_reports_every_entry MemFS.files
              (unixPath (fun _ => inl "/home"%string))
              (fun p w' => (inl ["a.png"; "b.jpg"]%string, w')) Recorder
              "/s" "/s" [] existingDestination existingDestination eq_refl)
    as (_ & H & _).
  apply (H existingDestination existingDestination ["a.png"; "b.jpg"]%string);
    reflexivity.
Defined.

Lemma non_atomic_move_keeps_partial_results_witness :
  MemFS.lookup "/d/file1.txt"
    (snd (Cmd.performNonTransactionalMove MemFS.os MemFS.files
            (pureMetadata (fun s b => inl (belowRoot s b)))
            ["/s/file1.txt"; "/s/missing.txt"; "/s/file3.txt"]%string "/d"
            false true false [] [] existingDestination))
  = Some (MemFS.RegularFile "content1" 420) /\
  MemFS.lookup "/s/file1.txt"
    (snd (Cmd.performNonTransactionalMove MemFS.os MemFS.files
            (pureMetadata (fun s b => inl (belowRoot s b)))
            ["/s/file1.txt"; "/s/missing.txt"; "/s/file3.txt"]%string "/d"
            false true false [] [] existingDestination))
  = None.
Proof.
  destruct (non_atomic_move_keeps_partial_results MemFS.os belowRoot
              ["/s/file1.txt"; "/s/missing.txt"; "/s/file3.txt"]%string
              "/d" false [] [] existingDestination) as [H _].
  unfold MemFS.files. rewrite H. vm_compute. split; reflexivity.
Defined.


Lemma execute_stops_at_first_failure_witness :
  snd (Execute MemFS.os MemFS.files secondInvalid twoFiles)
  = snd (Execute MemFS.os MemFS.files
           {| operations := [CopyOperation "/t/a" "/t/n1";
                             CopyOperation "/t/missing" "/t/n2"];
              completed := []; overwrite := false |} twoFiles) /\
  MemFS.lookup "/t/n1" (snd (Execute MemFS.os MemFS.files secondInvalid twoFiles))
  = None.
Proof.
  edestruct (execute_stops_at_first_failure MemFS.os MemFS.files
               [CopyOperation "/t/a" "/t/n1"] [CopyOperation "/t/x" "/t/a"] []
               (CopyOperation "/t/missing" "/t/n2") false twoFiles)
    as (_ & H & _).
  - vm_compute. reflexivity.
  - vm_compute. reflexivity.
  - split; [exact H |]. vm_compute. reflexivity.
Defined.

